(** * Prophecy agent: resolution, settlement and reconsideration workflows

    A shallow embedding of the agent under [src/agent]:

    - [graph.ts]: the generation client ([generateContent]), the Researcher,
      Judge and Executor nodes, the decision router ([shouldContinue]), the
      compiled graph, the HTTP handlers that write [activeMarkets] and the
      handlers of [GET /logs/:marketId] and [GET /stats];
    - [ipfs.ts]: [pinTranscript], [pinNFTMetadata], [cidToBytes32],
      [createProofNFTMetadata];
    - [solana.ts]: [resolveMarket], [fetchMarket], [getCredStakesForMarket],
      [distributeRewardToWinner], [distributeAllRewards];
    - [reconsideration.ts]: the two-node reconsideration workflow and
      [processReconsideration].

    The code is asynchronous and effectful.  It is embedded in a state and
    exception monad over a [World]: the mutable module state (the global log,
    the tracked markets, the loaded Anchor program), the ordered trace of
    calls that leave the process, and one counter per external service.  The
    answers of the outside world (the generation service, nft.storage, the
    ledger RPC, the wall clock) are oracles of an [Env], indexed by those
    counters, so every statement below quantifies over all behaviours of the
    collaborators.

    Strings are byte strings (UTF-8); the operations used here on them agree
    with the JavaScript ones on ASCII text. *)

From stdpp Require Import gmap strings list pretty.
From Stdlib Require Import ZArith Ascii String Strings.Byte Lia.

Set Warnings "-register-all".
Open Scope string_scope.
Open Scope list_scope.
Open Scope Z_scope.

(** ** JavaScript values and the few built-ins the agent relies on *)

Module JS.

(** A value produced by [JSON.parse].  Numbers are the integer scores and
    counters the agent reads. *)
Inductive json :=
| JNull
| JBool (b : bool)
| JNum (n : Z)
| JStr (s : string)
| JArr (items : list json)
| JObj (props : list (string * json)).

(** A JavaScript value read from parsed output: [None] is [undefined]. *)
Definition value := option json.

(** An [Error] object; only its [message] is observed by the agent. *)
Record Error := Err { error_message : string }.

Inductive Outcome (A : Type) :=
| Return (a : A)
| Throw (e : Error).
Arguments Return {A} a.
Arguments Throw {A} e.

Definition and_then {A B} (o : Outcome A) (k : A -> Outcome B) : Outcome B :=
  match o with
  | Return a => k a
  | Throw e => Throw e
  end.

Notation "x <~ c1 ;; c2" := (and_then c1 (fun x => c2))
  (at level 100, c1 at next level, right associativity).

(** Truthiness, as tested by [||], [!] and [if]. *)
Definition truthy (v : value) : bool :=
  match v with
  | None | Some JNull => false
  | Some (JBool b) => b
  | Some (JNum n) => negb (n =? 0)
  | Some (JStr s) => negb (String.eqb s "")
  | Some (JArr _) | Some (JObj _) => true
  end.

(** [v ?? d] keeps [v] unless it is [null] or [undefined]. *)
Definition nullish (v : value) : bool :=
  match v with
  | None | Some JNull => true
  | _ => false
  end.

(** Own property of an object literal; [JSON.parse] keeps the last of
    several bindings of one key. *)
Fixpoint own (k : string) (props : list (string * json)) : value :=
  match props with
  | [] => None
  | (k', v) :: rest =>
      match own k rest with
      | Some v' => Some v'
      | None => if String.eqb k k' then Some v else None
      end
  end.

Definition TypeError (what : string) : Error := Err ("TypeError: " +:+ what).

(** [j.k] for the data property names the agent reads.  Reading a
    property of [null] throws. *)
Definition prop (j : json) (k : string) : Outcome value :=
  match j with
  | JNull => Throw (TypeError ("Cannot read properties of null (reading " +:+ k +:+ ")"))
  | JObj props => Return (own k props)
  | JStr s => Return (if String.eqb k "length"
                      then Some (JNum (Z.of_nat (String.length s))) else None)
  | JArr l => Return (if String.eqb k "length"
                      then Some (JNum (Z.of_nat (List.length l))) else None)
  | JBool _ | JNum _ => Return None
  end.

Definition upper_ascii (c : ascii) : ascii :=
  let n := nat_of_ascii c in
  if ((97 <=? n)%nat && (n <=? 122)%nat)%bool then ascii_of_nat (n - 32) else c.

(** [s.toUpperCase()] on ASCII text. *)
Fixpoint toUpperCase (s : string) : string :=
  match s with
  | EmptyString => EmptyString
  | String c s' => String (upper_ascii c) (toUpperCase s')
  end.

(** [s.substring(a, b)]: the two indices are swapped when [a > b]. *)
Definition substring (a b : nat) (s : string) : string :=
  String.substring (Nat.min a b) (Nat.max a b - Nat.min a b) s.

(** [s.replace(/pat/g, '')] for a literal, non-empty pattern: occurrences
    are removed left to right, without overlap.  [skip] counts the
    characters of the current occurrence still to drop. *)
Fixpoint remove_all (pat : string) (skip : nat) (s : string) : string :=
  match s with
  | EmptyString => EmptyString
  | String c s' =>
      match skip with
      | S k => remove_all pat k s'
      | O => if String.prefix pat s
             then remove_all pat (String.length pat - 1) s'
             else String c (remove_all pat 0 s')
      end
  end.

(** [s.indexOf(c)] and [s.lastIndexOf(c)] for a single character; [None]
    is -1. *)
Fixpoint indexOf (c : ascii) (s : string) : option nat :=
  match s with
  | EmptyString => None
  | String c' s' => if Ascii.eqb c c' then Some O else S <$> indexOf c s'
  end.

Fixpoint lastIndexOf (c : ascii) (s : string) : option nat :=
  match s with
  | EmptyString => None
  | String c' s' =>
      match lastIndexOf c s' with
      | Some i => Some (S i)
      | None => if Ascii.eqb c c' then Some O else None
      end
  end.

Definition bytes (codes : list nat) : string :=
  string_of_list_ascii (ascii_of_nat <$> codes).

(** The code points [String.prototype.trim] strips (WhiteSpace and
    LineTerminator), in UTF-8. *)
Definition white_space : list string :=
  bytes <$> [ [9]; [10]; [11]; [12]; [13]; [32]; [194; 160]; [225; 154; 128];
              [226; 128; 128]; [226; 128; 129]; [226; 128; 130]; [226; 128; 131];
              [226; 128; 132]; [226; 128; 133]; [226; 128; 134]; [226; 128; 135];
              [226; 128; 136]; [226; 128; 137]; [226; 128; 138]; [226; 128; 168];
              [226; 128; 169]; [226; 128; 175]; [226; 129; 159]; [227; 128; 128];
              [239; 187; 191] ]%nat.

(** Length of the member of [seqs] that starts [s], if any. *)
Definition leading (seqs : list string) (s : string) : option nat :=
  String.length <$> List.find (fun p => String.prefix p s) seqs.

Fixpoint trimStart_with (seqs : list string) (skip : nat) (s : string) : string :=
  match s with
  | EmptyString => EmptyString
  | String c s' =>
      match skip with
      | S k => trimStart_with seqs k s'
      | O => match leading seqs s with
             | Some n => trimStart_with seqs (n - 1) s'
             | None => s
             end
      end
  end.

(** [s.trim()]. *)
Definition trim (s : string) : string :=
  let s1 := trimStart_with white_space 0 s in
  String.rev (trimStart_with (String.rev <$> white_space) 0 (String.rev s1)).

Definition hex_digit (n : N) : ascii :=
  ascii_of_N (if (n <? 10)%N then 48 + n else 87 + n)%N.

Definition hex_byte (b : byte) : string :=
  let n := Byte.to_N b in
  String (hex_digit (n / 16)%N) (String (hex_digit (n mod 16)%N) EmptyString).

(** [Buffer.toString('hex')] / [digest('hex')]. *)
Fixpoint hex (bs : list byte) : string :=
  match bs with
  | [] => EmptyString
  | b :: rest => hex_byte b +:+ hex rest
  end.

(** [v[0]] and [v.k] on a value that may be [undefined]. *)
Definition member (v : value) (k : string) : Outcome value :=
  match v with
  | None => Throw (TypeError ("Cannot read properties of undefined (reading " +:+ k +:+ ")"))
  | Some j => prop j k
  end.

Definition first (v : value) : Outcome value :=
  match v with
  | None => Throw (TypeError "Cannot read properties of undefined (reading 0)")
  | Some JNull => Throw (TypeError "Cannot read properties of null (reading 0)")
  | Some (JArr l) => Return (List.head l)
  | Some (JStr s) => Return (match s with
                             | EmptyString => None
                             | String c _ => Some (JStr (String c EmptyString))
                             end)
  | Some (JObj props) => Return (own "0" props)
  | Some (JBool _) | Some (JNum _) => Return None
  end.

(** What the embedding takes from the JavaScript runtime and from Node's
    [crypto] as given: these are library functions, not code of the agent. *)
Class Runtime := {
  (** [JSON.parse]; [None] is a [SyntaxError]. *)
  JSON_parse : string -> option json;
  (** string conversion of an array or object inside a template literal;
      [None] is the [TypeError] of one that cannot be converted. *)
  ObjectToString : json -> option string;
  (** [v > n] for a value that is not a number, after conversion. *)
  coerced_greater : value -> Z -> bool;
  (** [`${Math.round(l.reduce((a, b) => a + b, 0) / l.length)}`] for a
      list with an element that is not a number; [None] when an addition
      throws. *)
  coerced_average : list json -> option string;
  (** numeric value of a converted value that is not a number; [None] is
      [NaN]. *)
  coerced_number : json -> option Z;
  (** [JSON.stringify(v, null, 2)]. *)
  JSON_stringify : json -> string;
  (** [new Date(t).toISOString().split('T')[0]]. *)
  isoDate : Z -> string;
  (** [crypto.createHash('sha256').update(s).digest()]. *)
  sha256 : string -> list byte;
  (** base58 form of [PublicKey.findProgramAddressSync(['market', id],
      PROPHECY_PROGRAM_ID)[0]]. *)
  market_pda : string -> string;
}.

(** [`${v}`] *)
Definition ToString `{Runtime} (v : value) : option string :=
  match v with
  | None => Some "undefined"
  | Some JNull => Some "null"
  | Some (JBool b) => Some (if b then "true" else "false")
  | Some (JNum n) => Some (pretty n)
  | Some (JStr s) => Some s
  | Some j => ObjectToString j
  end.

(** [v > n] *)
Definition greater `{Runtime} (v : value) (n : Z) : bool :=
  match v with
  | Some (JNum m) => n <? m
  | _ => coerced_greater v n
  end.

Definition numbers (l : list json) : option (list Z) :=
  mapM (fun j => match j with JNum n => Some n | _ => None end) l.

(** [`${Math.round(l.reduce((a, b) => a + b, 0) / l.length)}`]: the mean,
    rounded half up; [NaN] for the empty list. *)
Definition round_average `{Runtime} (l : list json) : option string :=
  match numbers l with
  | Some [] => Some "NaN"
  | Some ns => let len := Z.of_nat (List.length ns) in
               Some (pretty ((2 * foldr Z.add 0 ns + len) / (2 * len)))
  | None => coerced_average l
  end.

Definition dq : string := String "034"%char EmptyString.

End JS.
Export JS.


(** ** Data model *)

Inductive Speaker := Researcher | Judge | Executor | System.
Inductive Sentiment := Neutral | Positive | Negative.

Record LogEntry := {
  speaker : Speaker;
  message : string;
  timestamp : Z;
  sentiment : Sentiment;
}.

(** Tracked status of a market in [activeMarkets]. *)
Inductive Status := open | researching | judging | executing | resolved.

Record StoredEvidence := {
  ev_cid : string;
  ev_description : string;
  ev_submitter : string;
  ev_filename : string;
  ev_timestamp : Z;
}.

Record TrackedMarket := {
  tm_question : string;
  tm_tweetUrl : option string;
  tm_status : Status;
  tm_logs : list LogEntry;
  tm_createdAt : option Z;
  tm_evidence : list StoredEvidence;
}.

(** A [CredStake] account as decoded by [getCredStakesForMarket]; public
    keys are kept in base58.  [amount] is the JavaScript number read from the
    account, a non-negative integer. *)
Record CredStake := {
  pubkey : string;
  user : string;
  market : string;
  amount : Z;
  direction : bool;
  stake_timestamp : Z;
  bump : Z;
}.

Record TransactionResult := {
  success : bool;
  signature : option string;
  error : option string;
}.

Record DistributionResult := {
  distributed : nat;
  failed : nat;
  total : nat;
}.

Definition speaker_name (sp : Speaker) : string :=
  match sp with
  | Researcher => "Researcher"
  | Judge => "Judge"
  | Executor => "Executor"
  | System => "System"
  end.

Definition sentiment_name (st : Sentiment) : string :=
  match st with
  | Neutral => "Neutral"
  | Positive => "Positive"
  | Negative => "Negative"
  end.

Definition LogEntry_json (l : LogEntry) : json :=
  JObj [("speaker", JStr (speaker_name (speaker l)));
        ("message", JStr (message l));
        ("timestamp", JNum (timestamp l));
        ("sentiment", JStr (sentiment_name (sentiment l)))].

(** ipfs.ts: [EvidenceItem] *)
Module EvidenceItem.
Record t := {
  url : string;
  description : string;
  submittedBy : string;
  timestamp : Z;
}.
Definition to_json (e : t) : json :=
  JObj [("url", JStr (url e));
        ("description", JStr (description e));
        ("submittedBy", JStr (submittedBy e));
        ("timestamp", JNum (timestamp e))].
End EvidenceItem.

(** ipfs.ts: [TranscriptBundle] *)
Module TranscriptBundle.
Record t := {
  marketId : string;
  marketPda : string;
  question : string;
  facts : list string;
  decision : string;
  reasoning : json;
  agentLogs : list LogEntry;
  evidence : list EvidenceItem.t;
  timestamp : Z;
  version : string;
}.
Definition to_json (b : t) : json :=
  JObj [("marketId", JStr (marketId b));
        ("marketPda", JStr (marketPda b));
        ("question", JStr (question b));
        ("facts", JArr (JStr <$> facts b));
        ("decision", JStr (decision b));
        ("reasoning", reasoning b);
        ("agentLogs", JArr (LogEntry_json <$> agentLogs b));
        ("evidence", JArr (EvidenceItem.to_json <$> evidence b));
        ("timestamp", JNum (timestamp b));
        ("version", JStr (version b))].
End TranscriptBundle.

(** ipfs.ts: [NFTMetadata] *)
Module NFTMetadata.
Record t := {
  name : string;
  description : string;
  image : string;
  external_url : string;
  attributes : list (string * string);
  market_id : string;
  outcome : string;
  transcript_cid : string;
  resolution_timestamp : Z;
}.
Definition to_json (m : t) : json :=
  JObj [("name", JStr (name m));
        ("description", JStr (description m));
        ("image", JStr (image m));
        ("external_url", JStr (external_url m));
        ("attributes",
         JArr ((fun a => JObj [("trait_type", JStr (fst a)); ("value", JStr (snd a))])
                 <$> attributes m));
        ("properties",
         JObj [("market_id", JStr (market_id m));
               ("outcome", JStr (outcome m));
               ("transcript_cid", JStr (transcript_cid m));
               ("resolution_timestamp", JNum (resolution_timestamp m))])].
End NFTMetadata.

(** reconsideration.ts: request, workflow state and result *)
Module ReconsiderationRequest.
Record t := {
  marketId : string;
  marketPda : string;
  originalOutcome : string;
  originalReasoning : string;
  newEvidenceCid : string;
  newEvidenceDescription : string;
  submitter : string;
}.
End ReconsiderationRequest.

Module ReconsiderationState.
Record t := {
  request : ReconsiderationRequest.t;
  newEvidence : string;
  factAnalysis : json;
  confidenceLevel : json;
  recommendation : string;
  reasoning : json;
  logs : list LogEntry;
}.
End ReconsiderationState.

Module ReconsiderationResult.
Record t := {
  requestId : string;
  marketId : string;
  originalOutcome : string;
  newOutcome : string;
  (** [None] is [NaN] *)
  confidenceChange : option Z;
  analysis : json;
  recommendation : string;
  annotationNote : value;
  logs : list LogEntry;
  timestamp : Z;
}.
End ReconsiderationResult.

(** The text sent to the generation service; the fixed wording of each
    template is left out, its interpolated parts are kept. *)
Inductive Prompt :=
| ResearchPrompt (question : string) (evidence : list string)
| JudgePrompt (question : string) (factsWithConfidence : list string)
| AnalyzePrompt (marketId originalOutcome originalReasoning cid description : string)
| ReconsiderPrompt (originalOutcome originalReasoning : string)
    (factAnalysis : string) (summary : string).

(** Answer to one HTTP request to the generation service. *)
Inductive Response :=
| NetworkError (e : Error)
| Http (status : Z) (body : string).

(** The external services, each with its own call counter. *)
Inductive Service :=
| Clock | Random | Gemini | NftStorage | Idl
| RpcResolve | RpcFetchMarket | RpcAccounts | RpcDistribute.

#[global] Instance Service_eq_dec : EqDecision Service.
Proof. solve_decision. Defined.

(** Calls to the collaborators, in the order they are made.  The pin
    functions of ipfs.ts and the methods of [SolanaAgent] are recorded when
    they are entered; what the store and the ledger answer is up to the
    oracles of [Env]. *)
Inductive Event :=
| Sleep (ms : Z)
| HttpGenerate (prompt : Prompt)
| PinTranscript (content : string)
| PinNFTMetadata (content : string)
| StoreBlob (content : string)
| ResolveMarket (marketPda : string) (outcome : Z) (ipfsTranscriptHash : list byte)
| FetchMarket (marketId : string)
| GetCredStakes (marketPda : string)
| DistributeReward (marketPda : string) (recipient : string) (rewardAmount : Z).

(** On-chain market account, as far as the agent reads it. *)
Record MarketAccount := { tweetUrl : string }.

(** Behaviour of the collaborators: the [k]-th call to a service gets the
    [k]-th answer. *)
Record Env := {
  Date_now : nat -> Z;
  (** [Math.random().toString(36).substring(7)] *)
  Math_random : nat -> string;
  gemini : nat -> Response;
  (** [process.env.NFT_STORAGE_KEY || ''] *)
  NFT_STORAGE_KEY : string;
  storeBlob : nat -> Outcome string;
  (** whether the IDL file exists and loads when [initProgram] runs *)
  idl_loads : nat -> bool;
  rpc_resolveMarket : nat -> Outcome string;
  rpc_fetchMarket : nat -> Outcome (option MarketAccount);
  rpc_getProgramAccounts : nat -> Outcome (list CredStake);
  rpc_distributeInsightRewards : nat -> Outcome string;
}.

(** Mutable state of the agent process. *)
Record World := {
  calls : Service -> nat;
  (** [solanaAgent.program !== null] *)
  program : bool;
  logHistory : list LogEntry;
  reconsiderationLogs : list LogEntry;
  activeMarkets : gmap string TrackedMarket;
  trace : list Event;
}.

Definition set_calls (f : Service -> nat) (w : World) : World :=
  {| calls := f; program := program w; logHistory := logHistory w;
     reconsiderationLogs := reconsiderationLogs w;
     activeMarkets := activeMarkets w; trace := trace w |}.

Definition set_program (b : bool) (w : World) : World :=
  {| calls := calls w; program := b; logHistory := logHistory w;
     reconsiderationLogs := reconsiderationLogs w;
     activeMarkets := activeMarkets w; trace := trace w |}.

Definition set_logHistory (l : list LogEntry) (w : World) : World :=
  {| calls := calls w; program := program w; logHistory := l;
     reconsiderationLogs := reconsiderationLogs w;
     activeMarkets := activeMarkets w; trace := trace w |}.

Definition set_reconsiderationLogs (l : list LogEntry) (w : World) : World :=
  {| calls := calls w; program := program w; logHistory := logHistory w;
     reconsiderationLogs := l;
     activeMarkets := activeMarkets w; trace := trace w |}.

Definition set_activeMarkets (m : gmap string TrackedMarket) (w : World) : World :=
  {| calls := calls w; program := program w; logHistory := logHistory w;
     reconsiderationLogs := reconsiderationLogs w;
     activeMarkets := m; trace := trace w |}.

Definition set_trace (t : list Event) (w : World) : World :=
  {| calls := calls w; program := program w; logHistory := logHistory w;
     reconsiderationLogs := reconsiderationLogs w;
     activeMarkets := activeMarkets w; trace := t |}.

(** ** The effect monad: state passing with exceptions *)

Definition M (A : Type) : Type := World -> Outcome A * World.

Definition ret {A} (a : A) : M A := fun w => (Return a, w).

Definition throw {A} (e : Error) : M A := fun w => (Throw e, w).

Definition bind {A B} (m : M A) (k : A -> M B) : M B :=
  fun w => match m w with
           | (Return a, w') => k a w'
           | (Throw e, w') => (Throw e, w')
           end.

(** [try { m } catch (e) { h e }] *)
Definition try_catch {A} (m : M A) (h : Error -> M A) : M A :=
  fun w => match m w with
           | (Return a, w') => (Return a, w')
           | (Throw e, w') => h e w'
           end.

Definition lift {A} (o : Outcome A) : M A := fun w => (o, w).
Coercion lift : Outcome >-> M.

Definition gets {A} (f : World -> A) : M A := fun w => (Return (f w), w).

Definition modify (f : World -> World) : M unit := fun w => (Return tt, f w).

Declare Scope monad_scope.
Delimit Scope monad_scope with monad.
Notation "x <- c1 ;; c2" := (bind c1 (fun x => c2))
  (at level 100, c1 at next level, right associativity) : monad_scope.
Notation "c1 ;; c2" := (bind c1 (fun _ => c2))
  (at level 100, right associativity) : monad_scope.
Open Scope monad_scope.

(** Record a call and return its position among the calls to [s]. *)
Definition call (s : Service) : M nat :=
  fun w => (Return (calls w s),
            set_calls (fun s' => if decide (s' = s) then S (calls w s) else calls w s') w).

Definition emit (e : Event) : M unit :=
  modify (fun w => set_trace (trace w ++ [e]) w).

(** [await sleep(ms)] *)
Definition sleep (ms : Z) : M unit := emit (Sleep ms).

(** ** The agent *)

Section Agent.

Context {rt : Runtime} (env : Env).

(** [Date.now()] *)
Definition now : M Z :=
  k <- call Clock ;; ret (Date_now env k).

(** *** Generation client ([generateContent], graph.ts and reconsideration.ts) *)

(** [JSON.parse(text)] *)
Definition parse (text : string) : Outcome json :=
  match JSON_parse text with
  | Some j => Return j
  | None => Throw (Err "SyntaxError: Unexpected token in JSON")
  end.

(** [${v}] *)
Definition interpolate (v : value) : Outcome string :=
  match ToString v with
  | Some s => Return s
  | None => Throw (TypeError "Cannot convert object to primitive value")
  end.

(** [if (!data.candidates?.length) throw ...;
     return data.candidates[0].content.parts[0].text] *)
Definition first_candidate (data : json) : Outcome value :=
  candidates <~ prop data "candidates" ;;
  len <~ (if nullish candidates then Return None else member candidates "length") ;;
  if negb (truthy len) then Throw (Err "No candidates returned")
  else
    c0 <~ first candidates ;;
    content <~ member c0 "content" ;;
    parts <~ member content "parts" ;;
    p0 <~ first parts ;;
    member p0 "text".

(** What one answer of the service amounts to for the client: the 429
    signal, a failure, or the text of the first candidate. *)
Inductive Reply :=
| QuotaExceeded
| Failed (e : Error)
| Text (text : value).

Definition reply_of (with_body : bool) (r : Response) : Reply :=
  match r with
  | NetworkError e => Failed e
  | Http status body =>
      if status =? 429 then QuotaExceeded
      else if negb ((200 <=? status) && (status <=? 299)) then
        Failed (Err ("API Error " +:+ pretty status +:+
                     (if with_body then ": " +:+ body else "")))
      else
        match (data <~ parse body ;; first_candidate data) with
        | Return text => Text text
        | Throw e => Failed e
        end
  end.

(** The [try] block of one loop iteration.  [None] is the [continue] taken
    after a 429 answer.  [with_body] tells the two copies of the client
    apart: graph.ts appends the response text to the error message. *)
Definition request (with_body : bool) (prompt : Prompt) : M (option value) :=
  k <- call Gemini ;;
  emit (HttpGenerate prompt) ;;
  match reply_of with_body (gemini env k) with
  | QuotaExceeded => sleep 10000 ;; ret None
  | Failed e => throw e
  | Text text => ret (Some text)
  end.

(** [for (let attempt = 0; attempt < retries; attempt++) { try {...} catch
    (e) { if (attempt === retries - 1) throw e; await sleep(2000); } }
    throw new Error('Failed to generate content')], over the attempt
    numbers still to run. *)
Fixpoint attempts (with_body : bool) (prompt : Prompt) (retries : nat)
    (todo : list nat) : M value :=
  match todo with
  | [] => throw (Err "Failed to generate content")
  | attempt :: rest =>
      r <- try_catch (request with_body prompt)
             (fun e => if Z.of_nat attempt =? Z.of_nat retries - 1 then throw e
                       else sleep 2000 ;; ret None) ;;
      match r with
      | Some text => ret text
      | None => attempts with_body prompt retries rest
      end
  end.

(** graph.ts *)
Definition generateContent (prompt : Prompt) (retries : nat) : M value :=
  sleep 4000 ;;
  attempts true prompt retries (seq 0 retries).

(** reconsideration.ts *)
Definition recon_generateContent (prompt : Prompt) (retries : nat) : M value :=
  sleep 2000 ;;
  attempts false prompt retries (seq 0 retries).

(** *** Logs and parsing helpers (graph.ts) *)

(** [logHistory.push(entry); if (logHistory.length > 200) logHistory.shift()] *)
Definition addGlobalLog (entry : LogEntry) : M unit :=
  modify (fun w =>
    let l := logHistory w ++ [entry] in
    set_logHistory (if (200 <? List.length l)%nat then List.tail l else l) w).

(** [addGlobalLog({ speaker, message, timestamp: Date.now(), sentiment })] *)
Definition log (sp : Speaker) (msg : string) (st : Sentiment) : M unit :=
  t <- now ;;
  addGlobalLog {| speaker := sp; message := msg; timestamp := t; sentiment := st |}.

(** The receiver of a string method must be a string. *)
Definition as_string (v : value) (method : string) : Outcome string :=
  match v with
  | Some (JStr s) => Return s
  | _ => Throw (TypeError (method +:+ " is not a function"))
  end.

Definition as_array (v : value) (method : string) : Outcome (list json) :=
  match v with
  | Some (JArr l) => Return l
  | _ => Throw (TypeError (method +:+ " is not a function"))
  end.

Definition fenced (text : string) : string :=
  trim (remove_all "```" 0 (remove_all "```json" 0 text)).

(** [cleanJsonString] of graph.ts *)
Definition cleanJsonString (text : string) : string :=
  let clean := fenced text in
  let firstBracket := indexOf "[" clean in
  let lastBracket := lastIndexOf "]" clean in
  let firstBrace := indexOf "{" clean in
  let lastBrace := lastIndexOf "}" clean in
  match firstBracket, lastBracket, firstBrace, lastBrace with
  | Some fb, Some lb, None, _ => substring fb (lb + 1) clean
  | Some fb, Some lb, Some fc, Some lc =>
      if (fb <? fc)%nat then substring fb (lb + 1) clean
      else substring fc (lc + 1) clean
  | Some fb, Some lb, Some fc, None =>
      if (fb <? fc)%nat then substring fb (lb + 1) clean else clean
  | _, _, Some fc, Some lc => substring fc (lc + 1) clean
  | _, _, _, _ => clean
  end.

(** [cleanJsonString] of reconsideration.ts: braces only *)
Definition recon_cleanJsonString (text : string) : string :=
  let clean := fenced text in
  match indexOf "{" clean, lastIndexOf "}" clean with
  | Some fc, Some lc => substring fc (lc + 1) clean
  | _, _ => clean
  end.

(** [l.map((x, i) => ...)] and [l.forEach((x, i) => ...)] with an effectful
    callback, from index [i] on. *)
Fixpoint mapi {A B} (f : A -> nat -> M B) (l : list A) (i : nat) : M (list B) :=
  match l with
  | [] => ret []
  | x :: rest => y <- f x i ;; ys <- mapi f rest (S i) ;; ret (y :: ys)
  end.

(** *** Agent state and the LangGraph channels *)

Record AgentState := {
  question : string;
  marketId : string;
  marketPda : string;
  facts : list string;
  factConfidences : list json;
  (** [None] is the initial [null] *)
  decision : option string;
  reasoning : json;
  iterations : Z;
  logs : list LogEntry;
  evidenceUrls : list string;
  ipfsTranscriptCid : string;
  transactionSignature : string;
}.

(** [Partial<AgentState>] as returned by a node: the fields the nodes set. *)
Record AgentUpdate := {
  u_facts : option (list string);
  u_factConfidences : option (list json);
  u_decision : option string;
  u_reasoning : value;
  u_iterations : option Z;
  u_ipfsTranscriptCid : option string;
  u_transactionSignature : option string;
}.

Definition no_update : AgentUpdate :=
  {| u_facts := None; u_factConfidences := None; u_decision := None;
     u_reasoning := None; u_iterations := None;
     u_ipfsTranscriptCid := None; u_transactionSignature := None |}.

(** The channel reducers [(a, b) => b ?? a]. *)
Definition apply_update (a : AgentState) (b : AgentUpdate) : AgentState :=
  {| question := question a;
     marketId := marketId a;
     marketPda := marketPda a;
     facts := default (facts a) (u_facts b);
     factConfidences := default (factConfidences a) (u_factConfidences b);
     decision := match u_decision b with Some d => Some d | None => decision a end;
     reasoning := match u_reasoning b with
                  | None | Some JNull => reasoning a
                  | Some r => r
                  end;
     iterations := default (iterations a) (u_iterations b);
     logs := logs a;
     evidenceUrls := evidenceUrls a;
     ipfsTranscriptCid := default (ipfsTranscriptCid a) (u_ipfsTranscriptCid b);
     transactionSignature := default (transactionSignature a) (u_transactionSignature b) |}.

(** *** Researcher node *)

Definition research_failure : AgentUpdate :=
  {| u_facts := Some ["Unable to verify facts due to agent error."];
     u_factConfidences := Some [JNum 0];
     u_decision := None; u_reasoning := None; u_iterations := None;
     u_ipfsTranscriptCid := None; u_transactionSignature := None |}.

Definition researcherNode (state : AgentState) : M AgentUpdate :=
  log Researcher
    ("🔍 Researching: " +:+ dq +:+ substring 0 50 (question state) +:+ "..." +:+ dq)
    Neutral ;;
  (if (0 <? List.length (evidenceUrls state))%nat then
     log Researcher
       ("📎 PRIORITY: Analyzing " +:+ pretty (List.length (evidenceUrls state)) +:+
        " user-submitted evidence source(s)") Positive
   else ret tt) ;;
  let prompt := ResearchPrompt (question state) (evidenceUrls state) in
  try_catch
    (responseText <- generateContent prompt 3 ;;
     text <- as_string responseText "text.replace" ;;
     parsed <- parse (cleanJsonString text) ;;
     parsed_facts <- lift (prop parsed "facts") ;;
     let facts := if truthy parsed_facts then parsed_facts else Some (JArr []) in
     parsed_confidences <- lift (prop parsed "confidences") ;;
     confidences <-
       (if truthy parsed_confidences then ret parsed_confidences
        else l <- as_array facts "facts.map" ;;
             ret (Some (JArr ((fun _ => JNum 70) <$> l)))) ;;
     count <- lift (member facts "length") ;;
     count_text <- interpolate count ;;
     confidence_list <- as_array confidences "confidences.reduce" ;;
     average <- match round_average confidence_list with
                | Some s => ret s
                | None => throw (TypeError "Cannot convert object to primitive value")
                end ;;
     log Researcher
       ("✅ Found " +:+ count_text +:+ " facts. Avg confidence: " +:+ average +:+ "%")
       Positive ;;
     fact_list <- as_array facts "facts.forEach" ;;
     fact_texts <-
       mapi (fun fact i =>
               fact_text <- as_string (Some fact) "fact.substring" ;;
               confidence <- interpolate (confidence_list !! i) ;;
               log Researcher
                 ("   [" +:+ pretty (S i) +:+ "] " +:+ substring 0 80 fact_text +:+
                  "... (" +:+ confidence +:+ "% confident)")
                 (if greater (confidence_list !! i) 70 then Positive else Neutral) ;;
               ret fact_text)
            fact_list 0%nat ;;
     ret {| u_facts := Some fact_texts;
            u_factConfidences := Some confidence_list;
            u_decision := None; u_reasoning := None; u_iterations := None;
            u_ipfsTranscriptCid := None; u_transactionSignature := None |})
    (fun e =>
       log System ("❌ Research Error: " +:+ error_message e) Negative ;;
       ret research_failure).

(** *** Judge node *)

(** [state.factConfidences[i] || 70] *)
Definition confidence_or_70 (confidences : list json) (i : nat) : value :=
  if truthy (confidences !! i) then confidences !! i else Some (JNum 70).

(** [judgment.decision?.toUpperCase() || 'UNCERTAIN'] *)
Definition read_decision (judgment : json) : M string :=
  d <- lift (prop judgment "decision") ;;
  if nullish d then ret "UNCERTAIN"
  else
    s <- as_string d "judgment.decision.toUpperCase" ;;
    let upper := toUpperCase s in
    ret (if String.eqb upper "" then "UNCERTAIN" else upper).

(** [judgment.key_evidence?.substring(0, 100)] *)
Definition read_key_evidence (judgment : json) : M value :=
  k <- lift (prop judgment "key_evidence") ;;
  if nullish k then ret None
  else
    s <- as_string k "judgment.key_evidence.substring" ;;
    ret (Some (JStr (substring 0 100 s))).

Definition judgeNode (state : AgentState) : M AgentUpdate :=
  log Judge ("⚖️ Evaluating " +:+ pretty (List.length (facts state)) +:+ " facts...")
    Neutral ;;
  factsWithConfidence <-
    mapi (fun fact i =>
            c <- interpolate (confidence_or_70 (factConfidences state) i) ;;
            ret ("- " +:+ fact +:+ " (confidence: " +:+ c +:+ "%)"))
         (facts state) 0%nat ;;
  let prompt := JudgePrompt (question state) factsWithConfidence in
  try_catch
    (responseText <- generateContent prompt 3 ;;
     text <- as_string responseText "text.replace" ;;
     judgment <- parse (cleanJsonString text) ;;
     decision <- read_decision judgment ;;
     log Judge ("🔨 VERDICT: " +:+ decision)
       (if String.eqb decision "UNCERTAIN" then Neutral else Positive) ;;
     confidence <- lift (prop judgment "confidence") ;;
     confidence_text <- interpolate confidence ;;
     log Judge ("   Confidence: " +:+ confidence_text +:+ "%")
       (if greater confidence 70 then Positive else Neutral) ;;
     key_evidence <- read_key_evidence judgment ;;
     key_text <- interpolate key_evidence ;;
     log Judge ("   Key Evidence: " +:+ key_text +:+ "...") Neutral ;;
     judgment_reasoning <- lift (prop judgment "reasoning") ;;
     ret {| u_facts := None; u_factConfidences := None;
            u_decision := Some decision;
            u_reasoning := judgment_reasoning;
            u_iterations := Some (iterations state + 1);
            u_ipfsTranscriptCid := None; u_transactionSignature := None |})
    (fun e =>
       log Judge ("❌ Error rendering verdict: " +:+ error_message e) Negative ;;
       ret {| u_facts := None; u_factConfidences := None;
              u_decision := Some "UNCERTAIN";
              u_reasoning := Some (JStr "Error in judgment process");
              u_iterations := Some (iterations state + 1);
              u_ipfsTranscriptCid := None; u_transactionSignature := None |}).

(** *** Decision router *)

Inductive Node := researcher | judge | executor.

Definition shouldContinue (state : AgentState) : M Node :=
  if bool_decide (decision state = Some "UNCERTAIN") && (iterations state <? 3) then
    log System
      ("🔄 Decision uncertain. Re-running research (attempt " +:+
       pretty (iterations state + 1) +:+ "/3)...") Neutral ;;
    ret researcher
  else ret executor.

(** *** ipfs.ts *)

(** [getClient() !== null] *)
Definition getClient : bool :=
  let apiKey := NFT_STORAGE_KEY env in
  negb (String.eqb apiKey "" ||
        String.eqb apiKey "YOUR_NFT_STORAGE_API_KEY_HERE" ||
        (String.length apiKey <? 10)%nat).

(** [await client.storeBlob(blob)] *)
Definition client_storeBlob (content : string) : M string :=
  k <- call NftStorage ;;
  emit (StoreBlob content) ;;
  lift (storeBlob env k).

Definition pinTranscript (transcript : TranscriptBundle.t) : M string :=
  let client := getClient in
  let content := JSON_stringify (TranscriptBundle.to_json transcript) in
  let createMockCid := "bafkreig" +:+ substring 0 50 (hex (sha256 content)) in
  emit (PinTranscript content) ;;
  if negb client then ret createMockCid
  else try_catch (client_storeBlob content) (fun _ => ret createMockCid).

Definition pinNFTMetadata (metadata : NFTMetadata.t) : M string :=
  let client := getClient in
  let content := JSON_stringify (NFTMetadata.to_json metadata) in
  let mockCid := "bafkreim" +:+ substring 0 50 (hex (sha256 content)) in
  emit (PinNFTMetadata content) ;;
  if negb client then ret mockCid
  else try_catch (client_storeBlob content) (fun _ => ret mockCid).

Definition cidToBytes32 (cid : string) : list byte := sha256 cid.

Definition createProofNFTMetadata (marketId question outcome transcriptCid : string)
    (resolutionTimestamp : Z) : NFTMetadata.t :=
  {| NFTMetadata.name := "Proof-Of-Truth: " +:+ substring 0 8 marketId;
     NFTMetadata.description :=
       "Verified outcome for: " +:+ dq +:+ question +:+ dq +:+
       bytes [10; 10]%nat +:+
       "This NFT serves as immutable proof of the AI Council's decision. The complete transcript and evidence are permanently stored on IPFS." +:+
       bytes [10; 10]%nat +:+
       "⚠️ This is a collectible with no monetary value. It represents participation in the Prophecy forecasting platform.";
     NFTMetadata.image := "https://prophecy.fun/api/nft-image/" +:+ marketId;
     NFTMetadata.external_url := "https://prophecy.fun/market/" +:+ marketId;
     NFTMetadata.attributes :=
       [("Outcome", outcome);
        ("Resolution Date", isoDate resolutionTimestamp);
        ("Market Type", "Prediction");
        ("Verification", "AI Council Verified")];
     NFTMetadata.market_id := marketId;
     NFTMetadata.outcome := outcome;
     NFTMetadata.transcript_cid := transcriptCid;
     NFTMetadata.resolution_timestamp := resolutionTimestamp |}.

(** *** solana.ts *)

(** [initProgram]: loads the Anchor program when the IDL is there; a failed
    load leaves [this.program] as it was. *)
Definition initProgram : M unit :=
  k <- call Idl ;;
  if idl_loads env k then modify (set_program true) else ret tt.

Definition findMarketPda (marketId : string) : string := market_pda marketId.

Definition tx_success (tx : string) : TransactionResult :=
  {| success := true; signature := Some tx; error := None |}.

Definition tx_failure (e : Error) : TransactionResult :=
  {| success := false; signature := None; error := Some (error_message e) |}.

(** [resolveMarket].  The clock reads stamp the simulated signature and
    the audit record. *)
Definition resolveMarket (marketPda : string) (outcome : Z)
    (ipfsTranscriptHash : list byte) : M TransactionResult :=
  emit (ResolveMarket marketPda outcome ipfsTranscriptHash) ;;
  try_catch
    (loaded <- gets program ;;
     if loaded then
       k <- call RpcResolve ;;
       tx <- lift (rpc_resolveMarket env k) ;;
       _ <- now ;;
       ret (tx_success tx)
     else
       t <- now ;;
       k <- call Random ;;
       _ <- now ;;
       ret (tx_success ("sim_" +:+ pretty t +:+ "_" +:+ Math_random env k)))
    (fun e => ret (tx_failure e)).

Definition fetchMarket (marketId : string) : M (option MarketAccount) :=
  emit (FetchMarket marketId) ;;
  try_catch
    (loaded <- gets program ;;
     if loaded then
       k <- call RpcFetchMarket ;;
       lift (rpc_fetchMarket env k)
     else ret None)
    (fun _ => ret None).

Definition getCredStakesForMarket (marketPda : string) : M (list CredStake) :=
  emit (GetCredStakes marketPda) ;;
  try_catch
    (initProgram ;;
     loaded <- gets program ;;
     if negb loaded then throw (Err "Program not initialized")
     else
       k <- call RpcAccounts ;;
       lift (rpc_getProgramAccounts env k))
    (fun _ => ret []).

Definition distributeRewardToWinner (marketPda userPubkey : string) (amount : Z)
    : M TransactionResult :=
  emit (DistributeReward marketPda userPubkey amount) ;;
  try_catch
    (initProgram ;;
     loaded <- gets program ;;
     if negb loaded then throw (Err "Program not initialized")
     else
       k <- call RpcDistribute ;;
       tx <- lift (rpc_distributeInsightRewards env k) ;;
       ret (tx_success tx))
    (fun e => ret (tx_failure e)).

(** The [for (const stake of winningStakes)] loop with its two counters. *)
Fixpoint reward_loop (marketPda : string) (winningStakes : list CredStake)
    (distributed failed : nat) : M (nat * nat) :=
  match winningStakes with
  | [] => ret (distributed, failed)
  | stake :: rest =>
      let rewardAmount := amount stake * 2 in
      result <- distributeRewardToWinner marketPda (user stake) rewardAmount ;;
      sleep 500 ;;
      if success result
      then reward_loop marketPda rest (S distributed) failed
      else reward_loop marketPda rest distributed (S failed)
  end.

Definition distributeAllRewards (marketPda : string) (outcome : Z)
    : M DistributionResult :=
  stakes <- getCredStakesForMarket marketPda ;;
  if (List.length stakes =? 0)%nat then
    ret {| distributed := 0; failed := 0; total := 0 |}
  else
    let winningStakes :=
      List.filter (fun stake =>
                     let userBetYes := direction stake in
                     let yesWon := outcome =? 1 in
                     Bool.eqb userBetYes yesWon) stakes in
    counts <- reward_loop marketPda winningStakes 0 0 ;;
    ret {| distributed := fst counts; failed := snd counts;
           total := List.length winningStakes |}.

(** *** Executor node *)

(** [logHistory.filter(l => l.timestamp > Date.now() - 60000)]: the clock
    is read once per entry. *)
Fixpoint recent_logs (entries : list LogEntry) : M (list LogEntry) :=
  match entries with
  | [] => ret []
  | l :: rest =>
      t <- now ;;
      kept <- recent_logs rest ;;
      ret (if t - 60000 <? timestamp l then l :: kept else kept)
  end.

Definition submitted_evidence (url : string) : M EvidenceItem.t :=
  t <- now ;;
  ret {| EvidenceItem.url := url;
         EvidenceItem.description := "User submitted evidence";
         EvidenceItem.submittedBy := "user";
         EvidenceItem.timestamp := t |}.

(** The rewards step of the Executor, entered after a successful resolve. *)
Definition executor_rewards (state : AgentState) (decision : string) : M unit :=
  try_catch
    (log Executor "💰 Distributing rewards to winning stakers..." Positive ;;
     let marketPda := market_pda (marketId state) in
     let outcomeNum := if String.eqb decision "YES" then 1 else 0 in
     distResult <- distributeAllRewards marketPda outcomeNum ;;
     if (0 <? total distResult)%nat then
       log Executor
         ("🏆 Distributed rewards: " +:+ pretty (distributed distResult) +:+ "/" +:+
          pretty (total distResult) +:+ " winners received 2x their stake!")
         Positive ;;
       if (0 <? failed distResult)%nat then
         log Executor
           ("⚠️ " +:+ pretty (failed distResult) +:+ " reward distribution(s) failed")
           Negative
       else ret tt
     else
       log Executor "ℹ️ No stakes found for this market" Neutral)
    (fun rewardErr =>
       log Executor ("⚠️ Reward distribution error: " +:+ error_message rewardErr)
         Negative).

Definition executorNode (state : AgentState) : M AgentUpdate :=
  log Executor ("⚡ Processing resolution for market " +:+ marketId state +:+ "...")
    Neutral ;;
  if bool_decide (decision state = Some "YES") || bool_decide (decision state = Some "NO")
  then
    let decision := default "" (decision state) in
    history <- gets logHistory ;;
    agentLogs <- recent_logs history ;;
    evidence <- mapi (fun url _ => submitted_evidence url) (evidenceUrls state) 0%nat ;;
    bundle_time <- now ;;
    let transcriptBundle :=
      {| TranscriptBundle.marketId := marketId state;
         TranscriptBundle.marketPda := marketPda state;
         TranscriptBundle.question := question state;
         TranscriptBundle.facts := facts state;
         TranscriptBundle.decision := decision;
         TranscriptBundle.reasoning := reasoning state;
         TranscriptBundle.agentLogs := agentLogs;
         TranscriptBundle.evidence := evidence;
         TranscriptBundle.timestamp := bundle_time;
         TranscriptBundle.version := "1.0.0" |} in
    log Executor "📤 Pinning transcript to IPFS..." Neutral ;;
    transcriptCid <- pinTranscript transcriptBundle ;;
    let ipfsHash := cidToBytes32 transcriptCid in
    log Executor ("✅ Transcript pinned: " +:+ substring 0 20 transcriptCid +:+ "...")
      Positive ;;
    metadata_time <- now ;;
    let nftMetadata :=
      createProofNFTMetadata (marketId state) (question state) decision
        transcriptCid metadata_time in
    metadataCid <- pinNFTMetadata nftMetadata ;;
    log Executor ("🖼️ NFT metadata pinned: " +:+ substring 0 20 metadataCid +:+ "...")
      Positive ;;
    let outcome := if String.eqb decision "YES" then 1 else 0 in
    result <- resolveMarket
                (if String.eqb (marketPda state) "" then findMarketPda (marketId state)
                 else marketPda state)
                outcome ipfsHash ;;
    if success result then
      log Executor ("🎉 MARKET RESOLVED ON-CHAIN: " +:+ decision) Positive ;;
      log Executor ("   Transaction: " +:+ default "undefined" (signature result))
        Positive ;;
      executor_rewards state decision ;;
      ret {| u_facts := None; u_factConfidences := None; u_decision := None;
             u_reasoning := None; u_iterations := None;
             u_ipfsTranscriptCid := Some transcriptCid;
             u_transactionSignature := Some (default "" (signature result)) |}
    else
      log Executor
        ("❌ On-chain resolution failed: " +:+ default "undefined" (error result))
        Negative ;;
      ret no_update
  else
    log Executor "⏸️ Market remains UNRESOLVED (decision uncertain)" Neutral ;;
    ret no_update.

(** *** The compiled graph *)

(** researcher -> judge -> ([shouldContinue]) -> researcher | executor -> END.
    [limit] is LangGraph's recursion limit: a run that needs more steps
    rejects.  The result carries the nodes visited, in order. *)
Fixpoint run (limit : nat) (node : Node) (state : AgentState)
    : M (list Node * AgentState) :=
  match limit with
  | O => throw (Err "GraphRecursionError: Recursion limit reached")
  | S limit' =>
      match node with
      | researcher =>
          update <- researcherNode state ;;
          r <- run limit' judge (apply_update state update) ;;
          ret (researcher :: fst r, snd r)
      | judge =>
          update <- judgeNode state ;;
          let state' := apply_update state update in
          next <- shouldContinue state' ;;
          r <- run limit' next state' ;;
          ret (judge :: fst r, snd r)
      | executor =>
          update <- executorNode state ;;
          ret ([executor], apply_update state update)
      end
  end.

(** LangGraph's default [recursionLimit]. *)
Definition recursionLimit : nat := 25.

(** [agentApp.invoke(input)] *)
Definition invoke (input : AgentState) : M (list Node * AgentState) :=
  run recursionLimit researcher input.

(** The input both callers of [agentApp.invoke] build. *)
Definition initial_state (question marketId marketPda : string)
    (evidenceUrls : list string) : AgentState :=
  {| question := question; marketId := marketId; marketPda := marketPda;
     iterations := 0; facts := []; factConfidences := []; decision := None;
     reasoning := JStr ""; logs := []; evidenceUrls := evidenceUrls;
     ipfsTranscriptCid := ""; transactionSignature := "" |}.

(** *** HTTP handlers that write [activeMarkets] (graph.ts)

    A missing body field and an empty one are both falsy in the handlers'
    tests; both are the empty string (or list) here. *)

Inductive HttpResponse (A : Type) :=
| Json (body : A)
| Failure (code : Z) (error : string).
Arguments Json {A} body.
Arguments Failure {A} code error.

Record ResolveBody := {
  rb_marketId : string;
  rb_question : string;
  rb_marketPda : string;
  rb_evidenceUrls : list string;
}.

Record ResolveReply := {
  rr_marketId : string;
  rr_tweetUrl : string;
  rr_decision : option string;
  rr_reasoning : json;
  rr_ipfsTranscriptCid : string;
  rr_transactionSignature : string;
}.

(** [if (!question) { ... }]: the question, market address and tweet URL
    the handler goes on with, or the response it returns early. *)
Definition resolve_question (body : ResolveBody)
    : M (string * string * string + HttpResponse ResolveReply) :=
  if String.eqb (rb_question body) "" then
    try_catch
      (let marketPda := findMarketPda (rb_marketId body) in
       marketAccount <- fetchMarket (rb_marketId body) ;;
       match marketAccount with
       | Some account =>
           ret (inl ("Analyze and determine the outcome of this prediction: " +:+
                     tweetUrl account, marketPda, tweetUrl account))
       | None =>
           ret (inr (Failure 404 ("Market " +:+ rb_marketId body +:+
                                 " not found on-chain. Create it first via the frontend.")))
       end)
      (fun err =>
         ret (inr (Failure 500 ("Failed to fetch market from chain: " +:+ error_message err))))
  else ret (inl (rb_question body, rb_marketPda body, "")).

Definition evidence_label (e : StoredEvidence) : string :=
  if String.eqb (ev_description e) "" then "Evidence IPFS: " +:+ ev_cid e
  else ev_description e +:+ " (IPFS: " +:+ ev_cid e +:+ ")".

(** [server.post('/resolve', ...)] *)
Definition post_resolve (body : ResolveBody) : M (HttpResponse ResolveReply) :=
  let marketId := rb_marketId body in
  if String.eqb marketId "" then ret (Failure 400 "marketId is required")
  else
    q <- resolve_question body ;;
    match q with
    | inr response => ret response
    | inl (question, marketPda, tweetUrl) =>
        existingMarket <- gets (fun w => activeMarkets w !! marketId) ;;
        modify (fun w =>
          set_activeMarkets
            (<[marketId :=
                 {| tm_question := question;
                    tm_tweetUrl := Some tweetUrl;
                    tm_status := researching;
                    tm_logs := default [] (tm_logs <$> existingMarket);
                    tm_createdAt := None;
                    tm_evidence := default [] (tm_evidence <$> existingMarket) |}]>
               (activeMarkets w)) w) ;;
        log System ("🔮 Starting resolution for market: " +:+ marketId) Positive ;;
        storedMarket <- gets (fun w => activeMarkets w !! marketId) ;;
        let storedEvidence := default [] (tm_evidence <$> storedMarket) in
        let evidenceFromStorage := evidence_label <$> storedEvidence in
        let allEvidence := evidenceFromStorage ++ rb_evidenceUrls body in
        (if (0 <? List.length allEvidence)%nat then
           log System ("📎 Found " +:+ pretty (List.length allEvidence) +:+
                       " evidence items to consider") Positive
         else ret tt) ;;
        try_catch
          (result <- invoke (initial_state question marketId marketPda allEvidence) ;;
           let final := snd result in
           ret (Json {| rr_marketId := marketId;
                        rr_tweetUrl := tweetUrl;
                        rr_decision := decision final;
                        rr_reasoning := reasoning final;
                        rr_ipfsTranscriptCid := ipfsTranscriptCid final;
                        rr_transactionSignature := transactionSignature final |}))
          (fun error => ret (Failure 500 (error_message error)))
    end.

(** [server.post('/market-created', ...)] *)
Definition post_market_created (marketId tweetUrl : string) : M (HttpResponse unit) :=
  if String.eqb marketId "" then ret (Failure 400 "marketId is required")
  else
    log System ("🆕 Market created: " +:+ marketId) Positive ;;
    createdAt <- now ;;
    modify (fun w =>
      set_activeMarkets
        (<[marketId :=
             {| tm_question := if String.eqb tweetUrl "" then "Market " +:+ marketId
                               else tweetUrl;
                tm_tweetUrl := Some tweetUrl;
                tm_status := open;
                tm_logs := [];
                tm_createdAt := Some createdAt;
                tm_evidence := [] |}]> (activeMarkets w)) w) ;;
    ret (Json tt).

(** [server.post('/evidence', ...)] *)
Definition post_evidence (marketId evidenceCid description submitter filename : string)
    : M (HttpResponse nat) :=
  if String.eqb marketId "" || String.eqb evidenceCid "" then
    ret (Failure 400 "marketId and evidenceCid are required")
  else
    found <- gets (fun w => activeMarkets w !! marketId) ;;
    let market :=
      default {| tm_question := "Market " +:+ marketId; tm_tweetUrl := None;
                 tm_status := open; tm_logs := []; tm_createdAt := None;
                 tm_evidence := [] |} found in
    t <- now ;;
    let market' :=
      {| tm_question := tm_question market; tm_tweetUrl := tm_tweetUrl market;
         tm_status := tm_status market; tm_logs := tm_logs market;
         tm_createdAt := tm_createdAt market;
         tm_evidence := tm_evidence market ++
           [{| ev_cid := evidenceCid; ev_description := description;
               ev_submitter := submitter; ev_filename := filename;
               ev_timestamp := t |}] |} in
    modify (fun w => set_activeMarkets (<[marketId := market']> (activeMarkets w)) w) ;;
    log System
      ("📎 Evidence submitted for market " +:+ marketId +:+ ": " +:+
       substring 0 20 evidenceCid +:+ "... (" +:+
       pretty (List.length (tm_evidence market')) +:+ " total)") Positive ;;
    ret (Json (List.length (tm_evidence market'))).

(** The requests that reach the handlers above. *)
Inductive Request :=
| PostResolve (body : ResolveBody)
| PostMarketCreated (marketId tweetUrl : string)
| PostEvidence (marketId evidenceCid description submitter filename : string).

Definition serve (r : Request) (w : World) : World :=
  match r with
  | PostResolve body => snd (post_resolve body w)
  | PostMarketCreated marketId tweetUrl => snd (post_market_created marketId tweetUrl w)
  | PostEvidence marketId cid description submitter filename =>
      snd (post_evidence marketId cid description submitter filename w)
  end.

(** Requests handled one after the other. *)
Fixpoint serve_all (rs : list Request) (w : World) : World :=
  match rs with
  | [] => w
  | r :: rest => serve_all rest (serve r w)
  end.

(** *** Reconsideration workflow (reconsideration.ts) *)

(** [reconsiderationLogs.push(entry)] *)
Definition addLog (sp : Speaker) (msg : string) (st : Sentiment) : M unit :=
  t <- now ;;
  modify (fun w =>
    set_reconsiderationLogs
      (reconsiderationLogs w ++
       [{| speaker := sp; message := msg; timestamp := t; sentiment := st |}]) w).

(** [Partial<ReconsiderationState>] as returned by a node. *)
Record ReconsiderationUpdate := {
  ru_newEvidence : option string;
  ru_factAnalysis : option json;
  ru_confidenceLevel : option json;
  ru_recommendation : option string;
  ru_reasoning : option json;
  ru_logs : option (list LogEntry);
}.

(** The channel reducers: [(a, b) => b ?? a], and concatenation for [logs].
    The values the nodes return are never [null]. *)
Definition recon_apply (a : ReconsiderationState.t) (b : ReconsiderationUpdate)
    : ReconsiderationState.t :=
  {| ReconsiderationState.request := ReconsiderationState.request a;
     ReconsiderationState.newEvidence :=
       default (ReconsiderationState.newEvidence a) (ru_newEvidence b);
     ReconsiderationState.factAnalysis :=
       default (ReconsiderationState.factAnalysis a) (ru_factAnalysis b);
     ReconsiderationState.confidenceLevel :=
       default (ReconsiderationState.confidenceLevel a) (ru_confidenceLevel b);
     ReconsiderationState.recommendation :=
       default (ReconsiderationState.recommendation a) (ru_recommendation b);
     ReconsiderationState.reasoning :=
       default (ReconsiderationState.reasoning a) (ru_reasoning b);
     ReconsiderationState.logs :=
       ReconsiderationState.logs a ++ default [] (ru_logs b) |}.

(** [v || d] *)
Definition or_else (v : value) (d : json) : json :=
  match v with
  | Some j => if truthy v then j else d
  | None => d
  end.

Definition analyzeEvidenceNode (state : ReconsiderationState.t)
    : M ReconsiderationUpdate :=
  let request := ReconsiderationState.request state in
  addLog Researcher "🔍 Analyzing new evidence for reconsideration..." Neutral ;;
  let prompt :=
    AnalyzePrompt (ReconsiderationRequest.marketId request)
      (ReconsiderationRequest.originalOutcome request)
      (ReconsiderationRequest.originalReasoning request)
      (ReconsiderationRequest.newEvidenceCid request)
      (ReconsiderationRequest.newEvidenceDescription request) in
  try_catch
    (response <- recon_generateContent prompt 3 ;;
     text <- as_string response "text.replace" ;;
     parsed <- parse (recon_cleanJsonString text) ;;
     parsed_facts <- lift (prop parsed "facts") ;;
     count <- (if nullish parsed_facts then ret None
               else lift (member parsed_facts "length")) ;;
     count_text <- interpolate (Some (or_else count (JNum 0))) ;;
     credibility <- lift (prop parsed "credibility_score") ;;
     credibility_text <- interpolate credibility ;;
     warrants <- lift (prop parsed "warrants_reconsideration") ;;
     addLog Researcher
       ("Found " +:+ count_text +:+ " new facts. Credibility: " +:+
        credibility_text +:+ "%")
       (if truthy warrants then Positive else Neutral) ;;
     analysis <- lift (prop parsed "analysis") ;;
     ret {| ru_newEvidence := Some (ReconsiderationRequest.newEvidenceDescription request);
            ru_factAnalysis := Some (or_else parsed_facts (JArr []));
            ru_confidenceLevel := None; ru_recommendation := None;
            ru_reasoning := Some (or_else analysis (JStr ""));
            ru_logs := None |})
    (fun e =>
       addLog System ("Evidence analysis error: " +:+ error_message e) Negative ;;
       ret {| ru_newEvidence := None;
              ru_factAnalysis := Some (JArr [JStr "Unable to analyze evidence"]);
              ru_confidenceLevel := None; ru_recommendation := None;
              ru_reasoning := Some (JStr "Analysis failed");
              ru_logs := None |}).

Fixpoint join_with (sep : string) (texts : list string) : string :=
  match texts with
  | [] => ""
  | [x] => x
  | x :: rest => x +:+ sep +:+ join_with sep rest
  end.

(** [a.join(sep)]: the receiver must be an array; [null] elements give the
    empty string. *)
Definition array_join (a : json) (sep : string) : M string :=
  items <- as_array (Some a) "state.factAnalysis.join" ;;
  texts <- mapi (fun item _ => match item with
                               | JNull => ret ""
                               | _ => interpolate (Some item)
                               end) items 0%nat ;;
  ret (join_with sep texts).

(** [parsed.recommendation?.toUpperCase() || 'UPHOLD'] *)
Definition read_recommendation (parsed : json) : M string :=
  r <- lift (prop parsed "recommendation") ;;
  if nullish r then ret "UPHOLD"
  else
    s <- as_string r "parsed.recommendation.toUpperCase" ;;
    let upper := toUpperCase s in
    ret (if String.eqb upper "" then "UPHOLD" else upper).

Definition reconsiderationJudgeNode (state : ReconsiderationState.t)
    : M ReconsiderationUpdate :=
  let request := ReconsiderationState.request state in
  addLog Judge "⚖️ Evaluating reconsideration request..." Neutral ;;
  analysis <- array_join (ReconsiderationState.factAnalysis state) (bytes [10]%nat +:+ "- ") ;;
  summary <- interpolate (Some (ReconsiderationState.reasoning state)) ;;
  let prompt :=
    ReconsiderPrompt (ReconsiderationRequest.originalOutcome request)
      (ReconsiderationRequest.originalReasoning request) analysis summary in
  try_catch
    (response <- recon_generateContent prompt 3 ;;
     text <- as_string response "text.replace" ;;
     parsed <- parse (recon_cleanJsonString text) ;;
     recommendation <- read_recommendation parsed ;;
     confidence_level <- lift (prop parsed "confidence_level") ;;
     confidence_text <- interpolate confidence_level ;;
     addLog Judge
       ("Verdict: " +:+ recommendation +:+ ". Confidence: " +:+ confidence_text +:+ "%")
       (if String.eqb recommendation "OVERTURN" then Negative else Positive) ;;
     annotation_note <- lift (prop parsed "annotation_note") ;;
     (if String.eqb recommendation "ANNOTATE" && truthy annotation_note then
        note <- interpolate annotation_note ;;
        addLog Judge ("Annotation: " +:+ note) Neutral
      else ret tt) ;;
     parsed_reasoning <- lift (prop parsed "reasoning") ;;
     current_logs <- gets reconsiderationLogs ;;
     ret {| ru_newEvidence := None; ru_factAnalysis := None;
            ru_confidenceLevel := Some (or_else confidence_level (JNum 50));
            ru_recommendation := Some recommendation;
            ru_reasoning := Some (or_else parsed_reasoning (JStr ""));
            ru_logs := Some current_logs |})
    (fun e =>
       addLog Judge ("Judgment error: " +:+ error_message e +:+ ". Defaulting to UPHOLD.")
         Negative ;;
       ret {| ru_newEvidence := None; ru_factAnalysis := None;
              ru_confidenceLevel := Some (JNum 0);
              ru_recommendation := Some "UPHOLD";
              ru_reasoning := Some (JStr "Error in judgment process");
              ru_logs := None |}).

(** [reconsiderationApp.invoke]: analyze_evidence -> judge_reconsideration -> END *)
Definition recon_invoke (initialState : ReconsiderationState.t)
    : M ReconsiderationState.t :=
  analyzed <- analyzeEvidenceNode initialState ;;
  let state := recon_apply initialState analyzed in
  judged <- reconsiderationJudgeNode state ;;
  ret (recon_apply state judged).

Definition to_number (j : json) : option Z :=
  match j with
  | JNum n => Some n
  | _ => coerced_number j
  end.

Definition processReconsideration (request : ReconsiderationRequest.t)
    : M ReconsiderationResult.t :=
  modify (set_reconsiderationLogs []) ;;
  addLog System
    ("📋 Reconsideration request received for market " +:+
     ReconsiderationRequest.marketId request) Neutral ;;
  let initialState :=
    {| ReconsiderationState.request := request;
       ReconsiderationState.newEvidence := "";
       ReconsiderationState.factAnalysis := JArr [];
       ReconsiderationState.confidenceLevel := JNum 50;
       ReconsiderationState.recommendation := "UPHOLD";
       ReconsiderationState.reasoning := JStr "";
       ReconsiderationState.logs := [] |} in
  result <- recon_invoke initialState ;;
  let recommendation := ReconsiderationState.recommendation result in
  let confidenceLevel := to_number (ReconsiderationState.confidenceLevel result) in
  let confidenceChange :=
    if String.eqb recommendation "OVERTURN" then Z.opp <$> confidenceLevel
    else if String.eqb recommendation "ANNOTATE"
         then (fun c => (c - 49) / 2) <$> confidenceLevel
         else Some 0 in
  let newOutcome :=
    if String.eqb recommendation "OVERTURN"
    then (if String.eqb (ReconsiderationRequest.originalOutcome request) "YES"
          then "NO" else "YES")
    else "UNCHANGED" in
  id_time <- now ;;
  k <- call Random ;;
  final_logs <- gets reconsiderationLogs ;;
  timestamp <- now ;;
  ret {| ReconsiderationResult.requestId :=
           "recon_" +:+ pretty id_time +:+ "_" +:+ Math_random env k;
         ReconsiderationResult.marketId := ReconsiderationRequest.marketId request;
         ReconsiderationResult.originalOutcome :=
           ReconsiderationRequest.originalOutcome request;
         ReconsiderationResult.newOutcome := newOutcome;
         ReconsiderationResult.confidenceChange := confidenceChange;
         ReconsiderationResult.analysis := ReconsiderationState.reasoning result;
         ReconsiderationResult.recommendation := recommendation;
         ReconsiderationResult.annotationNote :=
           if String.eqb recommendation "ANNOTATE"
           then Some (ReconsiderationState.reasoning result) else None;
         ReconsiderationResult.logs := final_logs;
         ReconsiderationResult.timestamp := timestamp |}.

End Agent.

Arguments Json {A} body.
Arguments Failure {A} code error.

(** *** Handlers that read the logs (graph.ts) *)

(** [s.includes(pattern)] *)
Fixpoint includes (pattern s : string) : bool :=
  String.prefix pattern s ||
  match s with
  | EmptyString => false
  | String _ s' => includes pattern s'
  end.

(** [server.get('/logs/:marketId', ...)] *)
Definition get_market_logs (marketId : string) : M (list LogEntry) :=
  market <- gets (fun w => activeMarkets w !! marketId) ;;
  if match market with
     | Some m => (0 <? List.length (tm_logs m))%nat
     | None => false
     end
  then ret (default [] (tm_logs <$> market))
  else
    history <- gets logHistory ;;
    let marketSpecificLogs :=
      List.filter (fun l => includes marketId (message l)) history in
    ret (if (0 <? List.length marketSpecificLogs)%nat then marketSpecificLogs
         else history).

(** *** Platform statistics (graph.ts) *)

Record Stats := {
  marketsCreated : nat;
  marketsResolved : nat;
  marketsOpen : Z;
  totalEvidence : nat;
  activeUsers : Z;
  stats_timestamp : Z;
}.

(** [status === 'resolved'] *)
Definition is_resolved (status : Status) : bool :=
  match status with resolved => true | _ => false end.

Section Statistics.

Context (env : Env).

(** [Math.floor(Math.random() * 5)] for the [k]-th draw of [Math.random]. *)
Variable random_below_5 : nat -> Z.

(** [server.get('/stats', ...)].  The counts, the sum and the set do not
    depend on the order in which the map is traversed. *)
Definition get_stats : M Stats :=
  markets <- gets (fun w => snd <$> map_to_list (activeMarkets w)) ;;
  let marketsCreated := List.length markets in
  let marketsResolved :=
    List.length (List.filter (fun m => is_resolved (tm_status m)) markets) in
  let totalEvidence :=
    foldl (fun sum m => (sum + List.length (tm_evidence m))%nat) 0%nat markets in
  let uniqueSubmitters : gset string :=
    foldl (fun set m =>
             foldl (fun set e => if String.eqb (ev_submitter e) "" then set
                                 else {[ ev_submitter e ]} ∪ set)
                   set (tm_evidence m))
          ∅ markets in
  activeUsers <-
    (if (size uniqueSubmitters =? 0)%nat then
       k <- call Random ;; ret (random_below_5 k + 1)
     else ret (Z.of_nat (size uniqueSubmitters))) ;;
  timestamp <- now env ;;
  ret {| marketsCreated := marketsCreated;
         marketsResolved := marketsResolved;
         marketsOpen := Z.of_nat marketsCreated - Z.of_nat marketsResolved;
         totalEvidence := totalEvidence;
         activeUsers := activeUsers;
         stats_timestamp := timestamp |}.

End Statistics.

(** ** Vocabulary of the statements *)

Definition is_Return {A} (o : Outcome A) : bool :=
  match o with
  | Return _ => true
  | Throw _ => false
  end.

(** The events a run added to the trace. *)
Definition new_events (before after : World) : list Event :=
  drop (List.length (trace before)) (trace after).

Definition is_generate (e : Event) : bool :=
  match e with HttpGenerate _ => true | _ => false end.

Definition is_pinning (e : Event) : bool :=
  match e with
  | PinTranscript _ | PinNFTMetadata _ | StoreBlob _ => true
  | _ => false
  end.

Definition is_resolve (e : Event) : bool :=
  match e with ResolveMarket _ _ _ => true | _ => false end.


Definition is_disburse (e : Event) : bool :=
  match e with DistributeReward _ _ _ => true | _ => false end.

Definition count (p : Event -> bool) (events : list Event) : nat :=
  List.length (List.filter p events).

(** What the client does after the answer to attempt number [attempt]. *)
Definition pause (retries attempt : nat) (r : Reply) : list Event :=
  match r with
  | QuotaExceeded => [Sleep 10000]
  | Failed _ => if (S attempt =? retries)%nat then [] else [Sleep 2000]
  | Text _ => []
  end.

(** The trace of the first [n] attempts of a call that starts when [first]
    requests have been made. *)
Definition attempts_trace `{Runtime} (env : Env) (with_body : bool) (prompt : Prompt)
    (retries first n : nat) : list Event :=
  flat_map (fun k => HttpGenerate prompt ::
                     pause retries k (reply_of with_body (gemini env (first + k))))
           (seq 0 n).

(** The world after one more request has been sent. *)
Definition requested (prompt : Prompt) (w : World) : World :=
  set_trace (trace w ++ [HttpGenerate prompt])
    (set_calls (fun s' => if decide (s' = Gemini) then S (calls w Gemini) else calls w s') w).

Definition slept (ms : Z) (w : World) : World :=
  set_trace (trace w ++ [Sleep ms]) w.

(** ** A concrete runtime and concrete collaborators for worked examples *)

Module Sample.

(** Compact JSON text of a value built from integers and strings without
    control characters. *)
Fixpoint escape (s : string) : string :=
  match s with
  | EmptyString => EmptyString
  | String c s' =>
      if Ascii.eqb c "034"%char || Ascii.eqb c "\"%char
      then String "\"%char (String c (escape s'))
      else String c (escape s')
  end.

Definition quote (s : string) : string := dq +:+ escape s +:+ dq.

Fixpoint print (j : json) : string :=
  match j with
  | JNull => "null"
  | JBool b => if b then "true" else "false"
  | JNum n => pretty n
  | JStr s => quote s
  | JArr items => "[" +:+ join_with "," (List.map print items) +:+ "]"
  | JObj props =>
      "{" +:+
      join_with "," (List.map (fun kv => quote (fst kv) +:+ ":" +:+ print (snd kv)) props)
      +:+ "}"
  end.

(** The body of a 200 answer of the generation service whose first
    candidate carries [text]. *)
Definition envelope (text : string) : json :=
  JObj [("candidates",
         JArr [JObj [("content", JObj [("parts", JArr [JObj [("text", JStr text)]])])]])].

Definition answer (reply : json) : Response := Http 200 (print (envelope (print reply))).

Definition research_reply : json :=
  JObj [("facts", JArr [JStr "Argentina beat France on penalties in the final."]);
        ("confidences", JArr [JNum 95])].

Definition judge_yes : json :=
  JObj [("decision", JStr "YES");
        ("reasoning", JStr "The final result is official.");
        ("confidence", JNum 95);
        ("key_evidence", JStr "FIFA match report")].

Definition judge_maybe : json :=
  JObj [("decision", JStr "maybe");
        ("reasoning", JStr "Sources disagree.");
        ("confidence", JNum 40);
        ("key_evidence", JStr "none")].

Definition recon_overturn : json :=
  JObj [("recommendation", JStr "OVERTURN");
        ("confidence_level", JNum 90);
        ("reasoning", JStr "The new document contradicts the outcome.")].

Definition recon_no_facts : json :=
  JObj [("facts", JArr []);
        ("contradicts_original", JBool false);
        ("credibility_score", JNum 10);
        ("warrants_reconsideration", JBool false);
        ("analysis", JStr "The document adds nothing.")].

(** A reply that is not JSON. *)
Definition prose : string := "I could not open the document.".

Definition replies : list json :=
  [research_reply; judge_yes; judge_maybe; recon_overturn; recon_no_facts].

(** [JSON.parse] restricted to the texts of this module: the replies above
    and the bodies that carry them or [prose]. *)
Definition parse_known (text : string) : option json :=
  List.find (fun j => String.eqb (print j) text)
    (replies ++ (envelope <$> (prose :: (print <$> replies)))).


#[local] Instance runtime : Runtime := {|
  JSON_parse := parse_known;
  ObjectToString := fun j => Some (match j with JArr _ => "" | _ => "[object Object]" end);
  coerced_greater := fun _ _ => false;
  coerced_average := fun _ => Some "NaN";
  coerced_number := fun _ => None;
  JSON_stringify := print;
  isoDate := fun _ => "2022-12-18";
  sha256 := fun s => replicate 32 (Byte.x00);
  market_pda := fun marketId => "pda-" +:+ marketId;
|}.

(** Collaborators that are all down: the network fails, no storage key,
    no IDL, every RPC throws. *)
Definition offline : Env :=
  {| Date_now := fun k => 1671400000000 + Z.of_nat k;
     Math_random := fun _ => "k3x9q";
     gemini := fun _ => NetworkError (Err "fetch failed");
     NFT_STORAGE_KEY := "";
     storeBlob := fun _ => Throw (Err "nft.storage unavailable");
     idl_loads := fun _ => false;
     rpc_resolveMarket := fun _ => Throw (Err "AlreadyResolved");
     rpc_fetchMarket := fun _ => Throw (Err "Account does not exist");
     rpc_getProgramAccounts := fun _ => Throw (Err "RPC timeout");
     rpc_distributeInsightRewards := fun _ => Throw (Err "RPC timeout") |}.

Definition with_gemini (g : nat -> Response) (env : Env) : Env :=
  {| Date_now := Date_now env; Math_random := Math_random env; gemini := g;
     NFT_STORAGE_KEY := NFT_STORAGE_KEY env; storeBlob := storeBlob env;
     idl_loads := idl_loads env; rpc_resolveMarket := rpc_resolveMarket env;
     rpc_fetchMarket := rpc_fetchMarket env;
     rpc_getProgramAccounts := rpc_getProgramAccounts env;
     rpc_distributeInsightRewards := rpc_distributeInsightRewards env |}.

(** The [k]-th answer is the [k]-th element of [rs]; later requests fail. *)
Definition scripted (rs : list Response) : nat -> Response :=
  fun k => default (NetworkError (Err "fetch failed")) (rs !! k).

(** A freshly started agent. *)
Definition boot : World :=
  {| calls := fun _ => 0%nat; program := false; logHistory := [];
     reconsiderationLogs := []; activeMarkets := ∅; trace := [] |}.


Definition question_asked : AgentState := initial_state "Did X happen?" "m1" "" [].

Definition request : ReconsiderationRequest.t :=
  {| ReconsiderationRequest.marketId := "m1";
     ReconsiderationRequest.marketPda := "";
     ReconsiderationRequest.originalOutcome := "YES";
     ReconsiderationRequest.originalReasoning := "The final result is official.";
     ReconsiderationRequest.newEvidenceCid := "bafkreie1";
     ReconsiderationRequest.newEvidenceDescription := "Scan of a later report";
     ReconsiderationRequest.submitter := "alice" |}.


End Sample.

(** The stake accounts [getCredStakesForMarket] returns in world [w]: those
    the RPC delivers, or none when the program cannot be loaded or the RPC
    throws. *)
Definition snapshot (env : Env) (w : World) : list CredStake :=
  if program w || idl_loads env (calls w Idl) then
    match rpc_getProgramAccounts env (calls w RpcAccounts) with
    | Return stakes => stakes
    | Throw _ => []
    end
  else [].

Definition winners (outcome : Z) (stakes : list CredStake) : list CredStake :=
  List.filter (fun stake => Bool.eqb (direction stake) (outcome =? 1)) stakes.

(** One call per stake, each followed by the 500 ms pause. *)
Definition disbursements (marketPda : string) (stakes : list CredStake) : list Event :=
  flat_map (fun stake => [DistributeReward marketPda (user stake) (2 * amount stake);
                          Sleep 500]) stakes.

(** The stake query fails in world [w]: the program cannot be loaded, or
    the RPC throws. *)
Definition stake_query_throws (env : Env) (w : World) : bool :=
  negb (program w || idl_loads env (calls w Idl)) ||
  negb (is_Return (rpc_getProgramAccounts env (calls w RpcAccounts))).

(** The stake query succeeds in world [w] and finds no account. *)
Definition no_stakes (env : Env) (w : World) : bool :=
  (program w || idl_loads env (calls w Idl)) &&
  match rpc_getProgramAccounts env (calls w RpcAccounts) with
  | Return [] => true
  | _ => false
  end.

Definition nothing_distributed : DistributionResult :=
  {| distributed := 0; failed := 0; total := 0 |}.

(** [createMockCid()] of [pinTranscript] *)
Definition fallback_cid `{Runtime} (transcript : TranscriptBundle.t) : string :=
  "bafkreig" +:+
  substring 0 50 (hex (sha256 (JSON_stringify (TranscriptBundle.to_json transcript)))).

(** The pin call is not made, or throws, in world [w]. *)
Definition pin_fails (env : Env) (w : World) : bool :=
  negb (getClient env) || negb (is_Return (storeBlob env (calls w NftStorage))).

(** A computation leaves a relation between the world before and after it
    intact, whether it returns or throws. *)
Definition preserves {A} (R : World -> World -> Prop) (m : M A) : Prop :=
  forall w, R w (snd (m w)).

(** A computation that never throws. *)
Definition returns {A} (m : M A) : Prop :=
  forall w, exists a w', m w = (Return a, w').

(** The resolve call made in world [w] reports success: the simulated
    transaction always does, the RPC when it returns. *)
Definition resolve_succeeds (env : Env) (w : World) : bool :=
  if program w then is_Return (rpc_resolveMarket env (calls w RpcResolve)) else true.

(** Steps that may pin, and leave the ledger side of the world alone. *)
Definition pins_only (w w' : World) : Prop :=
  program w' = program w /\
  calls w' RpcResolve = calls w RpcResolve /\
  exists events, trace w' = trace w ++ events /\ Forall (fun e => is_pinning e = true) events.

(** Steps that call no collaborator. *)
Definition silent (w w' : World) : Prop :=
  program w' = program w /\
  calls w' RpcResolve = calls w RpcResolve /\
  trace w' = trace w.

(** Steps that do not write the tracked markets. *)
Definition same_markets (w w' : World) : Prop :=
  activeMarkets w' = activeMarkets w.

(** The ledger outcome of a terminal decision: 1 for YES, 0 for NO, none
    for any other decision. *)
Definition terminal_outcome (state : AgentState) : option Z :=
  if bool_decide (decision state = Some "YES") then Some 1
  else if bool_decide (decision state = Some "NO") then Some 0
  else None.

(** The market address the Executor resolves. *)
Definition resolved_address `{Runtime} (state : AgentState) : string :=
  if String.eqb (marketPda state) "" then market_pda (marketId state)
  else marketPda state.


(** Whatever a computation returns satisfies [P]. *)
Definition ensures {A} (P : A -> Prop) (m : M A) : Prop :=
  forall w a w', m w = (Return a, w') -> P a.

(** The Judge can write every fact with its confidence into its prompt. *)
Definition renderable `{Runtime} (facts : list string) (confidences : list json) : Prop :=
  forall i, (i < List.length facts)%nat ->
            is_Some (ToString (confidence_or_70 confidences i)).

(** What the Researcher returns: facts and confidences the Judge can
    render, and nothing else. *)
Definition research_update `{Runtime} (u : AgentUpdate) : Prop :=
  exists facts confidences,
    renderable facts confidences /\
    u = {| u_facts := Some facts; u_factConfidences := Some confidences;
           u_decision := None; u_reasoning := None; u_iterations := None;
           u_ipfsTranscriptCid := None; u_transactionSignature := None |}.

(** What the Judge returns in a state with [n] iterations: a decision and
    [n + 1] iterations. *)
Definition judge_update (n : Z) (u : AgentUpdate) : Prop :=
  u_iterations u = Some (n + 1) /\
  is_Some (u_decision u) /\
  u_facts u = None /\ u_factConfidences u = None.

(** [field] of a reply of the generation service: some request was
    answered with a text that parses (after [clean]) to an object whose
    [field] is the string [s]. *)
Definition reply_carries `{Runtime} (env : Env) (with_body : bool)
    (clean : string -> string) (field s : string) : Prop :=
  exists (k : nat) (text : string) (parsed : json),
    reply_of with_body (gemini env k) = Text (Some (JStr text)) /\
    JSON_parse (clean text) = Some parsed /\
    prop parsed field = Return (Some (JStr s)).

Definition returned {A} (o : Outcome A) : option A :=
  match o with
  | Return a => Some a
  | Throw _ => None
  end.



(** Every tracked status is one the handlers write: open or researching. *)
Definition open_or_researching (w : World) : Prop :=
  forall id m, activeMarkets w !! id = Some m ->
               tm_status m = open \/ tm_status m = researching.

(** The path of a run with [k] Judge passes. *)
Definition path_of (k : nat) : list Node :=
  List.concat (replicate k [researcher; judge]) ++ [executor].

(** Events that reach neither the store nor the ledger. *)
Definition is_idle (e : Event) : bool :=
  match e with
  | Sleep _ | HttpGenerate _ => true
  | _ => false
  end.

(** The global log holds at most 200 entries. *)
Definition log_bounded (w w' : World) : Prop :=
  (List.length (logHistory w) <= 200)%nat -> (List.length (logHistory w') <= 200)%nat.



(** [mockCid] of [pinNFTMetadata] *)
Definition metadata_fallback_cid {rt : Runtime} (metadata : NFTMetadata.t) : string :=
  "bafkreim" +:+
  substring 0 50 (hex (sha256 (JSON_stringify (NFTMetadata.to_json metadata)))).

(** The evidence stored for market [id]. *)
Definition evidence_of (id : string) (w : World) : list StoredEvidence :=
  default [] (tm_evidence <$> activeMarkets w !! id).

(** None of the [retries] answers to a call of the generation client that
    starts when [first] requests have been made carries a text that parses
    after [clean]: each is a 429, a failure, a text that is not a string,
    or a string that [JSON.parse] rejects. *)
Definition unusable {rt : Runtime} (env : Env) (with_body : bool)
    (clean : string -> string) (first retries : nat) : Prop :=
  forall k text,
    (k < retries)%nat ->
    reply_of with_body (gemini env (first + k)) = Text text ->
    match text with
    | Some (JStr s) => JSON_parse (clean s) = None
    | _ => True
    end.

(** What the Judge returns from its [catch] block. *)
Definition judge_failure (state : AgentState) : AgentUpdate :=
  {| u_facts := None; u_factConfidences := None;
     u_decision := Some "UNCERTAIN";
     u_reasoning := Some (JStr "Error in judgment process");
     u_iterations := Some (iterations state + 1);
     u_ipfsTranscriptCid := None; u_transactionSignature := None |}.

(** Steps that add only sleeps and generation requests to the trace. *)
Definition idle_only (w w' : World) : Prop :=
  exists events, trace w' = trace w ++ events /\ Forall (fun e => is_idle e = true) events.

(** Steps that make no request to the generation service. *)
Definition same_requests (w w' : World) : Prop :=
  calls w' Gemini = calls w Gemini.

(** The state a run ends in when no answer of the generation service was
    usable. *)
Definition unresolved_state (question marketId marketPda : string)
    (evidenceUrls : list string) : AgentState :=
  {| question := question; marketId := marketId; marketPda := marketPda;
     facts := ["Unable to verify facts due to agent error."];
     factConfidences := [JNum 0];
     decision := Some "UNCERTAIN";
     reasoning := JStr "Error in judgment process";
     iterations := 3; logs := []; evidenceUrls := evidenceUrls;
     ipfsTranscriptCid := ""; transactionSignature := "" |}.

(** Steps that add at most [k] generation requests to the trace. *)
Definition generates_within (k : nat) (w w' : World) : Prop :=
  exists events, trace w' = trace w ++ events /\ (count is_generate events <= k)%nat.

(** Judge passes a run may still go through before the cap of 3. *)
Definition passes_left (state : AgentState) : nat := Z.to_nat (3 - iterations state).

(** Generation requests a run that is about to enter [node] may still
    make: three for each pass of the Researcher and of the Judge. *)
Definition request_budget (node : Node) (state : AgentState) : nat :=
  match node with
  | researcher => 6 * Nat.max 1 (passes_left state)
  | judge => 3 + 6 * (passes_left state - 1)
  | executor => 0
  end.

(** Steps of a workflow that only advises: they leave the Anchor program,
    the global log and the tracked markets as they are, and add only
    sleeps and generation requests to the trace. *)
Definition advisory (w w' : World) : Prop :=
  program w' = program w /\
  logHistory w' = logHistory w /\
  activeMarkets w' = activeMarkets w /\
  idle_only w w'.

(** Steps that only add entries to the reconsideration log. *)
Definition appends (w w' : World) : Prop :=
  exists entries, reconsiderationLogs w' = reconsiderationLogs w ++ entries.

(** The first entry of the log of a reconsideration that starts in [w]. *)
Definition received (env : Env) (request : ReconsiderationRequest.t) (w : World)
    : LogEntry :=
  {| speaker := System;
     message := "📋 Reconsideration request received for market " +:+
                ReconsiderationRequest.marketId request;
     timestamp := Date_now env (calls w Clock);
     sentiment := Neutral |}.

(** What the Analyze step returns from its [catch] block. *)
Definition analysis_failure : ReconsiderationUpdate :=
  {| ru_newEvidence := None;
     ru_factAnalysis := Some (JArr [JStr "Unable to analyze evidence"]);
     ru_confidenceLevel := None; ru_recommendation := None;
     ru_reasoning := Some (JStr "Analysis failed");
     ru_logs := None |}.

(** What the reconsideration Judge returns from its [catch] block. *)
Definition verdict_failure : ReconsiderationUpdate :=
  {| ru_newEvidence := None; ru_factAnalysis := None;
     ru_confidenceLevel := Some (JNum 0);
     ru_recommendation := Some "UPHOLD";
     ru_reasoning := Some (JStr "Error in judgment process");
     ru_logs := None |}.

(** No tracked market has log entries of its own. *)
Definition no_market_logs (w : World) : Prop :=
  forall id m, activeMarkets w !! id = Some m -> tm_logs m = [].

(** The entries of the global log whose message mentions [marketId]. *)
Definition mentions (marketId : string) (w : World) : list LogEntry :=
  List.filter (fun l => includes marketId (message l)) (logHistory w).


Definition newline : string := bytes [10]%nat.

(** A text between an opening and a closing character. *)
Definition delimited (a z : ascii) (inner : string) : string :=
  String a (inner +:+ String z "").

(** A text in a Markdown code fence, as the generation service sends it. *)
Definition in_fence (text : string) : string :=
  "```json" +:+ (newline +:+ text +:+ newline) +:+ "```".

(** ** Reasoning about the effect monad *)

Section Run.

Context {A B : Type}.

Lemma run_bind (m : M A) (k : A -> M B) (w : World) :
  bind m k w = match m w with
               | (Return a, w') => k a w'
               | (Throw e, w') => (Throw e, w')
               end.
Proof. reflexivity. Qed.

Lemma run_try_catch (m : M A) (h : Error -> M A) (w : World) :
  try_catch m h w = match m w with
                    | (Return a, w') => (Return a, w')
                    | (Throw e, w') => h e w'
                    end.
Proof. reflexivity. Qed.

End Run.

Lemma flat_map_seq_shift {X} (f : nat -> list X) (n : nat) :
  flat_map f (seq 1 n) = flat_map (fun k => f (S k)) (seq 0 n).
Proof.
  rewrite <- seq_shift. induction (seq 0 n) as [|x l IH]; simpl; [done|].
  by rewrite IH.
Qed.

Section GenerationClient.

Context {rt : Runtime} (env : Env).

Lemma last_attempt (attempt retries : nat) :
  (Z.of_nat attempt =? Z.of_nat retries - 1) = (S attempt =? retries)%nat.
Proof.
  destruct (Nat.eqb_spec (S attempt) retries) as [<-|Hne].
  - apply Z.eqb_eq. lia.
  - apply Z.eqb_neq. lia.
Qed.

(** One loop iteration, by the answer it gets. *)
Lemma attempts_cons (with_body : bool) (prompt : Prompt) (retries attempt : nat)
    (rest : list nat) (w : World) :
  attempts env with_body prompt retries (attempt :: rest) w =
    match reply_of with_body (gemini env (calls w Gemini)) with
    | QuotaExceeded =>
        attempts env with_body prompt retries rest (slept 10000 (requested prompt w))
    | Failed e =>
        if (S attempt =? retries)%nat then (Throw e, requested prompt w)
        else attempts env with_body prompt retries rest (slept 2000 (requested prompt w))
    | Text text => (Return text, requested prompt w)
    end.
Proof.
  cbn [attempts]. rewrite last_attempt.
  unfold bind, try_catch, request, bind, call, emit, modify, sleep, emit, modify,
    throw, ret, requested, slept.
  destruct (reply_of with_body (gemini env (calls w Gemini)));
    [|destruct (S attempt =? retries)%nat|]; reflexivity.
Qed.

Lemma attempts_run (with_body : bool) (prompt : Prompt) (retries : nat) :
  forall (m a : nat) (w : World),
    (a + m = retries)%nat ->
    let r := attempts env with_body prompt retries (seq a m) w in
    let first := calls w Gemini in
    exists n : nat,
      (n <= m)%nat /\
      trace (snd r) = trace w ++
        flat_map (fun k => HttpGenerate prompt ::
                    pause retries (a + k) (reply_of with_body (gemini env (first + k))))
                 (seq 0 n) /\
      calls (snd r) Gemini = (first + n)%nat /\
      match fst r with
      | Return text =>
          exists k, n = S k /\ reply_of with_body (gemini env (first + k)) = Text text
      | Throw e =>
          n = m /\
          match n with
          | O => e = Err "Failed to generate content"
          | S k =>
              match reply_of with_body (gemini env (first + k)) with
              | QuotaExceeded => e = Err "Failed to generate content"
              | Failed e' => e = e'
              | Text _ => False
              end
          end
      end.
Proof.
  induction m as [|m IH]; intros a w Ha.
  - exists 0%nat. simpl. rewrite app_nil_r, Nat.add_0_r. auto.
  - cbn zeta. cbn [seq]. rewrite attempts_cons.
    assert (Hshift : forall w2 n,
      calls w2 Gemini = S (calls w Gemini) ->
      flat_map (fun k => HttpGenerate prompt ::
                  pause retries (S a + k) (reply_of with_body (gemini env (calls w2 Gemini + k))))
               (seq 0 n) =
      flat_map (fun k => HttpGenerate prompt ::
                  pause retries (a + k) (reply_of with_body (gemini env (calls w Gemini + k))))
               (seq 1 n)).
    { intros w2 n Hw2. rewrite flat_map_seq_shift. apply flat_map_ext. intros k.
      rewrite Hw2. by rewrite <- !Nat.add_succ_comm. }
    assert (Hnext : forall w2,
      calls w2 Gemini = S (calls w Gemini) ->
      trace w2 = trace w ++ HttpGenerate prompt ::
                   pause retries (a + 0) (reply_of with_body (gemini env (calls w Gemini + 0))) ->
      (forall t, reply_of with_body (gemini env (calls w Gemini)) <> Text t) ->
      (forall e, reply_of with_body (gemini env (calls w Gemini)) = Failed e ->
                 (S a =? retries)%nat = false) ->
      let r := attempts env with_body prompt retries (seq (S a) m) w2 in
      exists n : nat,
        (n <= S m)%nat /\
        trace (snd r) = trace w ++
          flat_map (fun k => HttpGenerate prompt ::
                      pause retries (a + k) (reply_of with_body (gemini env (calls w Gemini + k))))
                   (seq 0 n) /\
        calls (snd r) Gemini = (calls w Gemini + n)%nat /\
        match fst r with
        | Return text =>
            exists k, n = S k /\
                      reply_of with_body (gemini env (calls w Gemini + k)) = Text text
        | Throw e =>
            n = S m /\
            match n with
            | O => e = Err "Failed to generate content"
            | S k =>
                match reply_of with_body (gemini env (calls w Gemini + k)) with
                | QuotaExceeded => e = Err "Failed to generate content"
                | Failed e' => e = e'
                | Text _ => False
                end
            end
        end).
    { intros w2 Hcalls Htrace Hnot Hfail r.
      destruct (IH (S a) w2) as (n & Hn & Htr & Hc & Hres); [lia|].
      fold r in Htr, Hc, Hres.
      exists (S n). split; [lia|]. split; [|split].
      - rewrite Htr, Htrace. cbn [seq flat_map]. rewrite <- app_assoc. f_equal.
        cbn [app]. f_equal. f_equal. by apply Hshift.
      - rewrite Hc, Hcalls. lia.
      - destruct (fst r) as [text|e].
        + destruct Hres as (k & -> & Hk). exists (S k). split; [done|].
          rewrite Hcalls in Hk. by rewrite <- Nat.add_succ_comm.
        + destruct Hres as [-> Hres]. split; [done|].
          destruct m as [|k].
          * rewrite Nat.add_0_r.
            destruct (reply_of with_body (gemini env (calls w Gemini))) as [|e'|t] eqn:Hr.
            -- done.
            -- specialize (Hfail e' eq_refl).
               apply Nat.eqb_neq in Hfail. lia.
            -- by destruct (Hnot t).
          * rewrite Hcalls in Hres. by rewrite <- Nat.add_succ_comm. }
    destruct (reply_of with_body (gemini env (calls w Gemini))) as [|e|text] eqn:Hreply.
    + apply Hnext; try done.
      rewrite !Nat.add_0_r, Hreply. cbn. by rewrite <- app_assoc.
    + destruct (S a =? retries)%nat eqn:Hlast.
      * exists 1%nat. cbn [seq flat_map app fst snd].
        rewrite !Nat.add_0_r, Hreply. cbn [pause]. rewrite Hlast.
        apply Nat.eqb_eq in Hlast.
        repeat split; cbn; try done; try case_decide; try done; lia.
      * apply Hnext; try done.
        rewrite !Nat.add_0_r, Hreply. cbn [pause]. rewrite Hlast. cbn.
        by rewrite <- app_assoc.
    + exists 1%nat. cbn [seq flat_map app fst snd].
      rewrite !Nat.add_0_r, Hreply. cbn [pause].
      repeat split; cbn; try done; try case_decide; try done; try lia.
      exists 0%nat. by rewrite Nat.add_0_r.
Qed.


End GenerationClient.


(** ** Reward distribution *)

(** Decide equalities between service names that occur in a goal. *)
Ltac services :=
  repeat match goal with
         | |- context [decide (?a = ?b)] =>
             first [ rewrite (decide_True (P := a = b)) by reflexivity
                   | rewrite (decide_False (P := a = b)) by discriminate ]
         end.

Section Rewards.

Context (env : Env).

Lemma getCredStakesForMarket_run (marketPda : string) (w : World) :
  exists w',
    getCredStakesForMarket env marketPda w = (Return (snapshot env w), w') /\
    trace w' = trace w ++ [GetCredStakes marketPda] /\
    program w' = program w || idl_loads env (calls w Idl) /\
    calls w' RpcDistribute = calls w RpcDistribute.
Proof.
  unfold getCredStakesForMarket, snapshot, bind, try_catch, emit, modify, initProgram,
    bind, call, gets, throw, ret, lift.
  cbn.
  destruct (idl_loads env (calls w Idl)) eqn:Hidl; cbn;
    destruct (program w) eqn:Hprog; cbn; services;
    try destruct (rpc_getProgramAccounts env (calls w RpcAccounts)); cbn;
    eexists; (split; [reflexivity|]); cbn; services; done.
Qed.

Lemma distributeRewardToWinner_run (marketPda userPubkey : string) (amount : Z)
    (w : World) :
  exists result w',
    distributeRewardToWinner env marketPda userPubkey amount w = (Return result, w') /\
    trace w' = trace w ++ [DistributeReward marketPda userPubkey amount].
Proof.
  unfold distributeRewardToWinner, bind, try_catch, emit, modify, initProgram,
    bind, call, gets, throw, ret, lift.
  cbn.
  destruct (idl_loads env (calls w Idl)); cbn;
    destruct (program w); cbn; services;
    try destruct (rpc_distributeInsightRewards env (calls w RpcDistribute)); cbn;
    do 2 eexists; (split; [reflexivity|]); done.
Qed.

(** The loop handles every winner, whatever the calls answer, and counts
    each of them once. *)
Lemma reward_loop_run (marketPda : string) (winning : list CredStake) :
  forall (distributed failed : nat) (w : World),
  exists distributed' failed' w',
    reward_loop env marketPda winning distributed failed w =
      (Return (distributed', failed'), w') /\
    (distributed' + failed' = distributed + failed + List.length winning)%nat /\
    trace w' = trace w ++ disbursements marketPda winning.
Proof.
  induction winning as [|stake rest IH]; intros distributed failed w.
  - exists distributed, failed, w. cbn. rewrite app_nil_r. repeat split; lia.
  - cbn [reward_loop]. rewrite run_bind.
    destruct (distributeRewardToWinner_run marketPda (user stake) (amount stake * 2) w)
      as (result & w1 & -> & Htrace1).
    rewrite run_bind. cbn [sleep emit modify].
    destruct (success result).
    + destruct (IH (S distributed) failed (set_trace (trace w1 ++ [Sleep 500]) w1))
        as (d & f & w2 & -> & Hsum & Htrace2).
      exists d, f, w2. split; [done|]. split; [cbn; lia|].
      rewrite Htrace2. cbn. rewrite Htrace1, <- !app_assoc. cbn.
      by rewrite (Z.mul_comm 2).
    + destruct (IH distributed (S failed) (set_trace (trace w1 ++ [Sleep 500]) w1))
        as (d & f & w2 & -> & Hsum & Htrace2).
      exists d, f, w2. split; [done|]. split; [cbn; lia|].
      rewrite Htrace2. cbn. rewrite Htrace1, <- !app_assoc. cbn.
      by rewrite (Z.mul_comm 2).
Qed.

Lemma distributeAllRewards_run (marketPda : string) (outcome : Z) (w : World) :
  let winning := winners outcome (snapshot env w) in
  exists result w',
    distributeAllRewards env marketPda outcome w = (Return result, w') /\
    (distributed result + failed result = total result)%nat /\
    total result = List.length winning /\
    (snapshot env w = [] -> result = {| distributed := 0; failed := 0; total := 0 |}) /\
    trace w' = trace w ++ GetCredStakes marketPda :: disbursements marketPda winning.
Proof.
  cbn zeta. unfold distributeAllRewards. rewrite run_bind.
  destruct (getCredStakesForMarket_run marketPda w) as (w1 & -> & Htrace1 & _).
  destruct (snapshot env w) as [|stake stakes] eqn:Hsnap.
  - cbn. do 2 eexists. split; [reflexivity|]. cbn. repeat split. by rewrite Htrace1.
  - cbn [List.length Nat.eqb]. rewrite run_bind.
    destruct (reward_loop_run marketPda (winners outcome (stake :: stakes)) 0 0 w1)
      as (d & f & w2 & Hloop & Hsum & Htrace2).
    unfold winners in Hloop at 1. rewrite Hloop. cbn.
    do 2 eexists. split; [reflexivity|]. cbn. repeat split; try done.
    rewrite Htrace2, Htrace1, <- app_assoc. done.
Qed.

Lemma count_disbursements (marketPda : string) (stakes : list CredStake) :
  count is_disburse (disbursements marketPda stakes) = List.length stakes.
Proof.
  unfold count, disbursements.
  induction stakes as [|stake rest IH]; simpl; [done|]. by rewrite IH.
Qed.

Lemma new_events_app (w w' : World) (events : list Event) :
  trace w' = trace w ++ events -> new_events w w' = events.
Proof. intros H. unfold new_events. rewrite H. apply drop_app_length. Qed.

(** C4.  For the stake accounts the query returns and any outcome, the run
    asks for the stakes and then makes, for the stakes whose direction is
    [outcome == 1] and for no other, in their order, one call
    [distributeRewardToWinner] with amount [2 * stake.amount], each followed
    by the fixed 500 ms pause; nothing else is called. *)
Theorem distributeAllRewards_calls (marketPda : string) (outcome : Z) (w : World) :
  let stakes := snapshot env w in
  let winning := winners outcome stakes in
  (forall stake, stake ∈ winning <->
                 stake ∈ stakes /\ direction stake = (outcome =? 1)) /\
  new_events w (snd (distributeAllRewards env marketPda outcome w)) =
    GetCredStakes marketPda ::
    flat_map (fun stake => [DistributeReward marketPda (user stake) (2 * amount stake);
                            Sleep 500]) winning.
Proof.
  cbn zeta. split.
  - intros stake. unfold winners. rewrite !list_elem_of_In, filter_In.
    split; intros [Hin Hdir]; (split; [done|]).
    + by apply eqb_prop.
    + rewrite Hdir. apply eqb_reflx.
  - destruct (distributeAllRewards_run marketPda outcome w)
      as (result & w' & -> & _ & _ & _ & Htrace).
    by apply new_events_app.
Qed.

(** C5.  Every run returns a result with [distributed + failed = total],
    where [total] is the number of winning stakes, and it makes one
    disbursement call for each winning stake whatever the calls answer. *)
Theorem distribution_counts (marketPda : string) (outcome : Z) (w : World) :
  let run := distributeAllRewards env marketPda outcome w in
  let winning := winners outcome (snapshot env w) in
  exists result,
    fst run = Return result /\
    (distributed result + failed result = total result)%nat /\
    total result = List.length winning /\
    count is_disburse (new_events w (snd run)) = List.length winning.
Proof.
  cbn zeta.
  destruct (distributeAllRewards_run marketPda outcome w)
    as (result & w' & -> & Hsum & Htotal & _ & Htrace).
  exists result. repeat split; try done.
  cbn [snd]. rewrite (new_events_app _ _ _ Htrace).
  change (count is_disburse (GetCredStakes marketPda :: ?l))
    with (count is_disburse l).
  apply count_disbursements.
Qed.

Lemma snapshot_of_failed_query (w : World) :
  stake_query_throws env w = true -> snapshot env w = [].
Proof.
  unfold stake_query_throws, snapshot.
  destruct (program w || idl_loads env (calls w Idl)); [|done].
  by destruct (rpc_getProgramAccounts env (calls w RpcAccounts)).
Qed.

Lemma snapshot_without_stakes (w : World) :
  no_stakes env w = true -> snapshot env w = [].
Proof.
  unfold no_stakes, snapshot.
  destruct (program w || idl_loads env (calls w Idl)); [|done].
  by destruct (rpc_getProgramAccounts env (calls w RpcAccounts)) as [[|? ?]|].
Qed.

Lemma empty_snapshot_run (marketPda : string) (outcome : Z) (w : World) :
  snapshot env w = [] ->
  fst (getCredStakesForMarket env marketPda w) = Return [] /\
  fst (distributeAllRewards env marketPda outcome w) = Return nothing_distributed /\
  new_events w (snd (distributeAllRewards env marketPda outcome w)) =
    [GetCredStakes marketPda].
Proof.
  intros Hempty. split; [|split].
  - destruct (getCredStakesForMarket_run marketPda w) as (w' & -> & _).
    by rewrite Hempty.
  - destruct (distributeAllRewards_run marketPda outcome w)
      as (result & w' & -> & _ & _ & Hzero & _).
    cbn. f_equal. by apply Hzero.
  - destruct (distributeAllRewards_run marketPda outcome w)
      as (result & w' & -> & _ & _ & _ & Htrace).
    rewrite Hempty in Htrace. by apply new_events_app.
Qed.

End Rewards.

(** C10.  When the stake query throws (the program cannot be loaded, or the
    RPC throws), [getCredStakesForMarket] returns the empty list, and
    [distributeAllRewards] returns [{distributed: 0, failed: 0, total: 0}]
    without any disbursement call: the same result and the same calls as in
    any run, against any collaborators, whose query succeeds and finds no
    stake. *)
Theorem failed_stake_query_looks_like_no_stakes
    (env env' : Env) (marketPda : string) (outcome : Z) (w w' : World) :
  stake_query_throws env w = true ->
  no_stakes env' w' = true ->
  let failed_run := distributeAllRewards env marketPda outcome w in
  let empty_run := distributeAllRewards env' marketPda outcome w' in
  fst (getCredStakesForMarket env marketPda w) = Return [] /\
  fst failed_run = Return nothing_distributed /\
  count is_disburse (new_events w (snd failed_run)) = 0%nat /\
  fst failed_run = fst empty_run /\
  new_events w (snd failed_run) = new_events w' (snd empty_run).
Proof.
  intros Hthrows Hnone. cbn zeta.
  destruct (empty_snapshot_run env marketPda outcome w
              (snapshot_of_failed_query env w Hthrows)) as (Hq & Hr & He).
  destruct (empty_snapshot_run env' marketPda outcome w'
              (snapshot_without_stakes env' w' Hnone)) as (_ & Hr' & He').
  rewrite Hr, Hr', He, He'. done.
Qed.

(** The RPC of the sample collaborators throws; other collaborators load
    the program and find no account. *)
Lemma failed_stake_query_witness :
  let quiet_ledger :=
    {| Date_now := Date_now Sample.offline; Math_random := Math_random Sample.offline;
       gemini := gemini Sample.offline; NFT_STORAGE_KEY := "";
       storeBlob := storeBlob Sample.offline; idl_loads := fun _ => true;
       rpc_resolveMarket := rpc_resolveMarket Sample.offline;
       rpc_fetchMarket := rpc_fetchMarket Sample.offline;
       rpc_getProgramAccounts := fun _ => Return [];
       rpc_distributeInsightRewards := rpc_distributeInsightRewards Sample.offline |} in
  stake_query_throws Sample.offline Sample.boot = true /\
  no_stakes quiet_ledger Sample.boot = true /\
  fst (distributeAllRewards Sample.offline "pda-m1" 1 Sample.boot) =
    fst (distributeAllRewards quiet_ledger "pda-m1" 1 Sample.boot).
Proof.
  cbn zeta. split; [reflexivity|]. split; [reflexivity|].
  apply failed_stake_query_looks_like_no_stakes; reflexivity.
Defined.

(** ** Transcript pinning *)

Section Pinning.

Context {rt : Runtime}.

Lemma pinTranscript_run (env : Env) (transcript : TranscriptBundle.t) (w : World) :
  fst (pinTranscript env transcript w) =
    Return (if getClient env
            then match storeBlob env (calls w NftStorage) with
                 | Return cid => cid
                 | Throw _ => fallback_cid transcript
                 end
            else fallback_cid transcript).
Proof.
  unfold pinTranscript, fallback_cid, try_catch, client_storeBlob, bind, call, emit,
    modify, lift, ret.
  destruct (getClient env); cbn; [|done].
  services. by destruct (storeBlob env (calls w NftStorage)).
Qed.

(** C8.  [pinTranscript] never throws.  When the store is not configured or
    its pin call throws, the CID returned is [bafkreig] followed by the first
    50 hex digits of the SHA-256 of the serialized bundle: it depends on the
    bundle alone, so two failing pins of one bundle, against any
    collaborators and in any state, return the same CID, and the settlement
    digest [cidToBytes32] of it is the SHA-256 of that CID. *)
Theorem pinTranscript_falls_back (env env' : Env) (transcript : TranscriptBundle.t)
    (w w' : World) :
  pin_fails env w = true ->
  pin_fails env' w' = true ->
  (forall env0 w0, exists cid, fst (pinTranscript env0 transcript w0) = Return cid) /\
  fst (pinTranscript env transcript w) = Return (fallback_cid transcript) /\
  fst (pinTranscript env transcript w) = fst (pinTranscript env' transcript w') /\
  cidToBytes32 (fallback_cid transcript) = sha256 (fallback_cid transcript).
Proof.
  assert (Hfallback : forall e v, pin_fails e v = true ->
            fst (pinTranscript e transcript v) = Return (fallback_cid transcript)).
  { intros e v. rewrite pinTranscript_run. unfold pin_fails.
    destruct (getClient e); [|done].
    by destruct (storeBlob e (calls v NftStorage)). }
  intros Hfails Hfails'. split; [|split; [|split]].
  - intros env0 w0. rewrite pinTranscript_run. eauto.
  - by apply Hfallback.
  - by rewrite !Hfallback.
  - reflexivity.
Qed.

End Pinning.

(** A bundle pinned once without a storage key and once with a key whose
    pin call throws. *)
Lemma pinTranscript_falls_back_witness :
  let transcript :=
    {| TranscriptBundle.marketId := "m1"; TranscriptBundle.marketPda := "pda-m1";
       TranscriptBundle.question := "Did X happen?";
       TranscriptBundle.facts := ["X happened."]; TranscriptBundle.decision := "YES";
       TranscriptBundle.reasoning := JStr "The final result is official.";
       TranscriptBundle.agentLogs := []; TranscriptBundle.evidence := [];
       TranscriptBundle.timestamp := 1671400000000;
       TranscriptBundle.version := "1.0.0" |} in
  let keyed :=
    {| Date_now := Date_now Sample.offline; Math_random := Math_random Sample.offline;
       gemini := gemini Sample.offline; NFT_STORAGE_KEY := "eyJhbGciOiJIUzI1NiJ9";
       storeBlob := storeBlob Sample.offline; idl_loads := idl_loads Sample.offline;
       rpc_resolveMarket := rpc_resolveMarket Sample.offline;
       rpc_fetchMarket := rpc_fetchMarket Sample.offline;
       rpc_getProgramAccounts := rpc_getProgramAccounts Sample.offline;
       rpc_distributeInsightRewards := rpc_distributeInsightRewards Sample.offline |} in
  pin_fails Sample.offline Sample.boot = true /\
  pin_fails keyed Sample.boot = true /\
  getClient keyed = true /\
  fst (pinTranscript (rt := Sample.runtime) Sample.offline transcript Sample.boot) =
    fst (pinTranscript (rt := Sample.runtime) keyed transcript Sample.boot).
Proof.
  cbn zeta. split; [reflexivity|]. split; [reflexivity|]. split; [reflexivity|].
  apply (pinTranscript_falls_back (rt := Sample.runtime)); reflexivity.
Defined.

(** ** Frames and totality *)

Section Frames.

Context {A B : Type} (R : World -> World -> Prop) `{!PreOrder R}.

Lemma preserves_ret (a : A) : preserves R (ret a).
Proof. intros w. reflexivity. Qed.

Lemma preserves_throw (e : Error) : preserves R (throw (A := A) e).
Proof. intros w. reflexivity. Qed.

Lemma preserves_lift (o : Outcome A) : preserves R (lift o).
Proof. intros w. reflexivity. Qed.

Lemma preserves_gets (f : World -> A) : preserves R (gets f).
Proof. intros w. reflexivity. Qed.

Lemma preserves_bind (m : M A) (k : A -> M B) :
  preserves R m -> (forall a, preserves R (k a)) -> preserves R (bind m k).
Proof.
  intros Hm Hk w. unfold bind. specialize (Hm w).
  destruct (m w) as [[a|e] w1]; cbn in *; [|done].
  etrans; [exact Hm|apply Hk].
Qed.

Lemma preserves_try_catch (m : M A) (h : Error -> M A) :
  preserves R m -> (forall e, preserves R (h e)) -> preserves R (try_catch m h).
Proof.
  intros Hm Hh w. unfold try_catch. specialize (Hm w).
  destruct (m w) as [[a|e] w1]; cbn in *; [done|].
  etrans; [exact Hm|apply Hh].
Qed.

End Frames.

Lemma preserves_mapi {A B} (R : World -> World -> Prop) `{!PreOrder R}
    (f : A -> nat -> M B) (l : list A) :
  (forall x i, preserves R (f x i)) -> forall i, preserves R (mapi f l i).
Proof.
  intros Hf. induction l as [|x rest IH]; intros i; cbn [mapi].
  - apply preserves_ret, _.
  - apply preserves_bind; [apply _|apply Hf|]. intros y.
    apply preserves_bind; [apply _|apply IH|]. intros ys. apply preserves_ret, _.
Qed.

Lemma preserves_weaken {A} (R R' : World -> World -> Prop) (m : M A) :
  (forall w w', R w w' -> R' w w') -> preserves R m -> preserves R' m.
Proof. intros HR Hm w. apply HR, Hm. Qed.

#[local] Instance silent_preorder : PreOrder silent.
Proof.
  split.
  - by intros w.
  - intros w1 w2 w3 (Hp & Hc & Ht) (Hp' & Hc' & Ht'). repeat split; congruence.
Qed.

#[local] Instance pins_only_preorder : PreOrder pins_only.
Proof.
  split.
  - intros w. repeat split. exists []. by rewrite app_nil_r.
  - intros w1 w2 w3 (Hp & Hc & e1 & Ht & He) (Hp' & Hc' & e2 & Ht' & He').
    split; [congruence|]. split; [congruence|].
    exists (e1 ++ e2). split; [by rewrite Ht', Ht, app_assoc|by apply Forall_app].
Qed.

#[local] Instance same_markets_preorder : PreOrder same_markets.
Proof.
  split.
  - by intros w.
  - intros w1 w2 w3 H H'. unfold same_markets in *. congruence.
Qed.

Lemma silent_pins_only (w w' : World) : silent w w' -> pins_only w w'.
Proof.
  intros (Hp & Hc & Ht). repeat split; try done. exists []. by rewrite app_nil_r.
Qed.

Section Totality.

Context {A B : Type}.

Lemma returns_ret (a : A) : returns (ret a).
Proof. intros w. by exists a, w. Qed.

Lemma returns_gets (f : World -> A) : returns (gets f).
Proof. intros w. by exists (f w), w. Qed.

Lemma returns_bind (m : M A) (k : A -> M B) :
  returns m -> (forall a, returns (k a)) -> returns (bind m k).
Proof.
  intros Hm Hk w. unfold bind. destruct (Hm w) as (a & w1 & ->). apply Hk.
Qed.

(** A [try] whose handler never throws never throws. *)
Lemma returns_try_catch (m : M A) (h : Error -> M A) :
  (forall e, returns (h e)) -> returns (try_catch m h).
Proof.
  intros Hh w. unfold try_catch. destruct (m w) as [[a|e] w1]; [by exists a, w1|].
  apply Hh.
Qed.

(** Running a step that returns, in front of a continuation. *)
Lemma run_step (R : World -> World -> Prop) (m : M A) (k : A -> M B) (w : World) :
  returns m -> preserves R m ->
  exists a w', R w w' /\ bind m k w = k a w'.
Proof.
  intros Hm HR. destruct (Hm w) as (a & w' & Heq). exists a, w'.
  split; [|by rewrite run_bind, Heq].
  specialize (HR w). by rewrite Heq in HR.
Qed.

End Totality.

Lemma returns_mapi {A B} (f : A -> nat -> M B) (l : list A) :
  (forall x i, returns (f x i)) -> forall i, returns (mapi f l i).
Proof.
  intros Hf. induction l as [|x rest IH]; intros i; cbn [mapi].
  - apply returns_ret.
  - apply returns_bind; [apply Hf|]. intros y.
    apply returns_bind; [apply IH|]. intros ys. apply returns_ret.
Qed.

Section Logging.

Context (env : Env).

Lemma returns_now : returns (now env).
Proof. intros w. do 2 eexists. reflexivity. Qed.

Lemma silent_now : preserves silent (now env).
Proof. intros w. cbn. services. done. Qed.

Lemma returns_log sp msg st : returns (log env sp msg st).
Proof. intros w. do 2 eexists. reflexivity. Qed.

Lemma silent_log sp msg st : preserves silent (log env sp msg st).
Proof. intros w. cbn. services. done. Qed.

Lemma same_markets_log sp msg st : preserves same_markets (log env sp msg st).
Proof. by intros w. Qed.


Lemma returns_recent_logs (entries : list LogEntry) : returns (recent_logs env entries).
Proof.
  induction entries as [|l rest IH]; cbn [recent_logs].
  - apply returns_ret.
  - apply returns_bind; [apply returns_now|]. intros t.
    apply returns_bind; [apply IH|]. intros kept. apply returns_ret.
Qed.

Lemma silent_recent_logs (entries : list LogEntry) :
  preserves silent (recent_logs env entries).
Proof.
  induction entries as [|l rest IH]; cbn [recent_logs].
  - apply preserves_ret, _.
  - apply preserves_bind; [apply _|apply silent_now|]. intros t.
    apply preserves_bind; [apply _|apply IH|]. intros kept. apply preserves_ret, _.
Qed.

Lemma returns_submitted_evidence url : returns (submitted_evidence env url).
Proof. intros w. do 2 eexists. reflexivity. Qed.

Lemma silent_submitted_evidence url : preserves silent (submitted_evidence env url).
Proof. intros w. cbn. services. done. Qed.

End Logging.

(** ** Settlement *)

(** Run the first step of a sequence, given that it returns and what it
    preserves. *)
Tactic Notation "step" constr(R) uconstr(Hret) uconstr(Hpres) :=
  match goal with
  | |- context [bind ?m ?k ?w] =>
      let a := fresh "a" in
      let w' := fresh "w" in
      let H := fresh "Hstep" in
      destruct (run_step R m k w Hret Hpres) as (a & w' & H & ->)
  end.

Lemma run_last {A} (R : World -> World -> Prop) (m : M A) (w : World) :
  returns m -> preserves R m -> exists a w', R w w' /\ m w = (Return a, w').
Proof.
  intros Hm HR. destruct (Hm w) as (a & w' & Heq). exists a, w'. split; [|done].
  specialize (HR w). by rewrite Heq in HR.
Qed.

Lemma prefix_app (p s : string) : String.prefix p (p +:+ s) = true.
Proof.
  induction p as [|c p IH]; simpl.
  - destruct s; reflexivity.
  - destruct (ascii_dec c c); [exact IH|congruence].
Qed.

Section Settlement.

Context {rt : Runtime} (env : Env).

Lemma returns_pinTranscript transcript : returns (pinTranscript env transcript).
Proof.
  unfold pinTranscript. apply returns_bind; [by intros w; do 2 eexists|]. intros _.
  destruct (negb (getClient env)); [apply returns_ret|].
  apply returns_try_catch. intros e. apply returns_ret.
Qed.

Lemma pins_only_pinTranscript transcript :
  preserves pins_only (pinTranscript env transcript).
Proof.
  intros w.
  unfold pinTranscript, try_catch, client_storeBlob, bind, call, emit, modify, lift, ret.
  destruct (getClient env); cbn; services;
    try destruct (storeBlob env (calls w NftStorage)); cbn;
    (split; [done|]); (split; [done|]);
    eexists; (split; [try rewrite <- app_assoc; reflexivity|]);
    repeat constructor.
Qed.

Lemma returns_pinNFTMetadata metadata : returns (pinNFTMetadata env metadata).
Proof.
  unfold pinNFTMetadata. apply returns_bind; [by intros w; do 2 eexists|]. intros _.
  destruct (negb (getClient env)); [apply returns_ret|].
  apply returns_try_catch. intros e. apply returns_ret.
Qed.

Lemma pins_only_pinNFTMetadata metadata :
  preserves pins_only (pinNFTMetadata env metadata).
Proof.
  intros w.
  unfold pinNFTMetadata, try_catch, client_storeBlob, bind, call, emit, modify, lift, ret.
  destruct (getClient env); cbn; services;
    try destruct (storeBlob env (calls w NftStorage)); cbn;
    (split; [done|]); (split; [done|]);
    eexists; (split; [try rewrite <- app_assoc; reflexivity|]);
    repeat constructor.
Qed.

Lemma pins_only_log sp msg st : preserves pins_only (log env sp msg st).
Proof. apply (preserves_weaken silent); [apply silent_pins_only|apply silent_log]. Qed.

Lemma pins_only_now : preserves pins_only (now env).
Proof. apply (preserves_weaken silent); [apply silent_pins_only|apply silent_now]. Qed.

Lemma pins_only_recent_logs entries : preserves pins_only (recent_logs env entries).
Proof.
  apply (preserves_weaken silent); [apply silent_pins_only|apply silent_recent_logs].
Qed.

Lemma pins_only_evidence (url : string) (i : nat) :
  preserves pins_only (submitted_evidence env url).
Proof.
  apply (preserves_weaken silent); [apply silent_pins_only|].
  apply silent_submitted_evidence.
Qed.

Lemma resolveMarket_run (marketPda : string) (outcome : Z) (hash : list byte) (w : World) :
  exists result w',
    resolveMarket env marketPda outcome hash w = (Return result, w') /\
    trace w' = trace w ++ [ResolveMarket marketPda outcome hash] /\
    success result = resolve_succeeds env w.
Proof.
  unfold resolveMarket, resolve_succeeds, try_catch, bind, call, emit, modify, gets,
    now, bind, call, lift, ret.
  cbn. destruct (program w); cbn; services.
  - destruct (rpc_resolveMarket env (calls w RpcResolve)); cbn;
      do 2 eexists; (split; [reflexivity|]); done.
  - do 2 eexists. split; [reflexivity|]. done.
Qed.

Lemma executor_rewards_run (state : AgentState) (decision : string) (w : World) :
  exists w' stakes,
    executor_rewards env state decision w = (Return tt, w') /\
    trace w' = trace w ++
      GetCredStakes (market_pda (marketId state)) ::
      disbursements (market_pda (marketId state)) stakes.
Proof.
  unfold executor_rewards. rewrite run_try_catch.
  step silent (returns_log env _ _ _) (silent_log env _ _ _).
  cbv zeta. rewrite run_bind.
  destruct (distributeAllRewards_run env (market_pda (marketId state))
              (if String.eqb decision "YES" then 1 else 0) w0)
    as (result & w1 & -> & _ & _ & _ & Ht1).
  match goal with
  | |- context [(if ?c then ?m1 else ?m2) w1] =>
      destruct (run_last silent (if c then m1 else m2) w1) as ([] & w2 & Hw2 & ->)
  end.
  - destruct (0 <? total result)%nat; [|apply returns_log].
    apply returns_bind; [apply returns_log|]. intros _.
    destruct (0 <? failed result)%nat; [apply returns_log|apply returns_ret].
  - destruct (0 <? total result)%nat; [|apply silent_log].
    apply preserves_bind; [apply _|apply silent_log|]. intros _.
    destruct (0 <? failed result)%nat; [apply silent_log|apply preserves_ret, _].
  - eexists _, _. split; [reflexivity|].
    destruct Hstep as (_ & _ & Hs), Hw2 as (_ & _ & ->). by rewrite Ht1, Hs.
Qed.


Lemma count_app (p : Event -> bool) (l1 l2 : list Event) :
  count p (l1 ++ l2) = (count p l1 + count p l2)%nat.
Proof. unfold count. by rewrite List.filter_app, length_app. Qed.





End Settlement.

(** ** The resolution loop *)

Section Ensures.

Context {A B : Type}.

Lemma ensures_ret (P : A -> Prop) (a : A) : P a -> ensures P (ret a).
Proof. intros HP w a' w' [= <- _]. exact HP. Qed.

Lemma ensures_bind (Q : A -> Prop) (P : B -> Prop) (m : M A) (k : A -> M B) :
  ensures Q m -> (forall a, Q a -> ensures P (k a)) -> ensures P (bind m k).
Proof.
  intros Hm Hk w b w'. unfold bind.
  destruct (m w) as [[a|e] w1] eqn:Hrun; [|done].
  intros Hk'. exact (Hk a (Hm _ _ _ Hrun) _ _ _ Hk').
Qed.

Lemma ensures_try_catch (P : A -> Prop) (m : M A) (h : Error -> M A) :
  ensures P m -> (forall e, ensures P (h e)) -> ensures P (try_catch m h).
Proof.
  intros Hm Hh w a w'. unfold try_catch.
  destruct (m w) as [[a'|e] w1] eqn:Hrun.
  - intros [= <- _]. exact (Hm _ _ _ Hrun).
  - apply Hh.
Qed.

Lemma ensures_any (m : M A) : ensures (fun _ => True) m.
Proof. by intros w a w' _. Qed.


End Ensures.

Section Loop.

Context {rt : Runtime} (env : Env).

(** The Researcher's loop over the facts succeeds only when every
    confidence it prints converts to a string. *)
Lemma research_facts_rendered (confidences : list json) (facts : list json) :
  forall (i : nat),
  ensures (fun texts : list string =>
             List.length texts = List.length facts /\
             forall j, (j < List.length facts)%nat ->
                       is_Some (ToString (confidences !! (i + j)%nat)))
    (mapi (fun fact i =>
             fact_text <- as_string (Some fact) "fact.substring" ;;
             confidence <- interpolate (confidences !! i) ;;
             log env Researcher
               ("   [" +:+ pretty (S i) +:+ "] " +:+ substring 0 80 fact_text +:+
                "... (" +:+ confidence +:+ "% confident)")
               (if greater (confidences !! i) 70 then Positive else Neutral) ;;
             ret fact_text)
          facts i).
Proof.
  induction facts as [|fact rest IH]; intros i; cbn [mapi].
  - apply ensures_ret. split; [done|]. cbn. lia.
  - eapply ensures_bind with
      (Q := fun _ => is_Some (ToString (confidences !! i))).
    + intros w a w'. rewrite !run_bind. unfold lift, as_string, interpolate.
      destruct fact; try done. cbn.
      destruct (ToString (confidences !! i)); [eauto|done].
    + intros text Hi. eapply ensures_bind; [apply IH|].
      intros texts [Hlen Hrest]. apply ensures_ret. split; [cbn; lia|].
      intros [|j] Hj; [by rewrite Nat.add_0_r|].
      rewrite <- Nat.add_succ_comm. apply Hrest. cbn in Hj. lia.
Qed.

Lemma researcherNode_returns (state : AgentState) : returns (researcherNode env state).
Proof.
  unfold researcherNode.
  apply returns_bind; [apply returns_log|]. intros _.
  apply returns_bind.
  { destruct (0 <? _)%nat; [apply returns_log|apply returns_ret]. }
  intros _. apply returns_try_catch. intros e.
  apply returns_bind; [apply returns_log|]. intros _. apply returns_ret.
Qed.

Lemma researcherNode_ensures (state : AgentState) :
  ensures research_update (researcherNode env state).
Proof.
  unfold researcherNode.
  eapply ensures_bind; [apply ensures_any|]. intros _ _.
  eapply ensures_bind; [apply ensures_any|]. intros _ _.
  apply ensures_try_catch.
  - do 8 (eapply ensures_bind; [apply ensures_any|]; intros ? _).
    eapply ensures_bind; [apply ensures_any|]. intros confidence_list _.
    do 3 (eapply ensures_bind; [apply ensures_any|]; intros ? _).
    eapply ensures_bind; [apply (research_facts_rendered confidence_list _ 0)|].
    intros fact_texts [Hlen Hrendered]. apply ensures_ret.
    exists fact_texts, confidence_list. split; [|done].
    intros i Hi. unfold confidence_or_70.
    destruct (truthy (confidence_list !! i)); [|by eexists].
    apply (Hrendered i). lia.
  - intros e. eapply ensures_bind; [apply ensures_any|]. intros _ _.
    apply ensures_ret. eexists _, _. split; [|reflexivity].
    intros [|i] Hi; [by eexists|]. cbn in Hi. lia.
Qed.

Lemma judge_lines_return (question : string) (confidences : list json)
    (facts : list string) :
  forall i,
  (forall j, (j < List.length facts)%nat ->
             is_Some (ToString (confidence_or_70 confidences (i + j)))) ->
  returns (mapi (fun fact i =>
                   c <- interpolate (confidence_or_70 confidences i) ;;
                   ret ("- " +:+ fact +:+ " (confidence: " +:+ c +:+ "%)"))
                facts i).
Proof.
  induction facts as [|fact rest IH]; intros i Hrender; cbn [mapi].
  - apply returns_ret.
  - apply returns_bind.
    + intros w. rewrite run_bind. unfold lift, interpolate.
      destruct (Hrender 0%nat) as [c Hc]; [cbn; lia|].
      rewrite Nat.add_0_r in Hc. rewrite Hc. by eexists _, _.
    + intros line. apply returns_bind; [|intros; apply returns_ret].
      apply IH. intros j Hj. rewrite Nat.add_succ_comm. apply Hrender. cbn. lia.
Qed.


(** Every Judge pass that returns sets a decision and adds one to the
    iteration count. *)
Lemma judgeNode_ensures (state : AgentState) :
  ensures (judge_update (iterations state)) (judgeNode env state).
Proof.
  unfold judgeNode.
  do 2 (eapply ensures_bind; [apply ensures_any|]; intros ? _).
  apply ensures_try_catch.
  - do 12 (eapply ensures_bind; [apply ensures_any|]; intros ? _).
    apply ensures_ret. repeat split. by eexists.
  - intros e. eapply ensures_bind; [apply ensures_any|]. intros _ _.
    apply ensures_ret. repeat split. by eexists.
Qed.

Lemma shouldContinue_run (state : AgentState) (w : World) :
  exists w',
    shouldContinue env state w =
      (Return (if bool_decide (decision state = Some "UNCERTAIN") && (iterations state <? 3)
               then researcher else executor), w').
Proof.
  unfold shouldContinue.
  destruct (bool_decide (decision state = Some "UNCERTAIN") && (iterations state <? 3)).
  - by eexists.
  - by eexists.
Qed.


Lemma run_researcher (limit : nat) (state : AgentState) :
  run env (S limit) researcher state =
    (update <- researcherNode env state ;;
     r <- run env limit judge (apply_update state update) ;;
     ret (researcher :: fst r, snd r)).
Proof. reflexivity. Qed.

Lemma run_judge (limit : nat) (state : AgentState) :
  run env (S limit) judge state =
    (update <- judgeNode env state ;;
     next <- shouldContinue env (apply_update state update) ;;
     r <- run env limit next (apply_update state update) ;;
     ret (judge :: fst r, snd r)).
Proof. reflexivity. Qed.

Lemma run_executor (limit : nat) (state : AgentState) :
  run env (S limit) executor state =
    (update <- executorNode env state ;;
     ret ([executor], apply_update state update)).
Proof. reflexivity. Qed.






End Loop.


(** ** Verdicts and recommendations *)

Section Verdicts.

Context {rt : Runtime} (env : Env).

Lemma ensures_lift {A} (o : Outcome A) : ensures (fun a => o = Return a) (lift o).
Proof. by intros w a w' [= -> _]. Qed.

Lemma ensures_attempts (with_body : bool) (prompt : Prompt) (retries : nat) :
  ensures (fun text => exists k, reply_of with_body (gemini env k) = Text text)
    (attempts env with_body prompt retries (seq 0 retries)).
Proof.
  intros w text w' Hrun.
  destruct (attempts_run env with_body prompt retries retries 0 w eq_refl)
    as (n & _ & _ & _ & Hresult).
  rewrite Hrun in Hresult. cbn in Hresult. destruct Hresult as (k & _ & Hk). eauto.
Qed.

Lemma ensures_generateContent (prompt : Prompt) (retries : nat) :
  ensures (fun text => exists k, reply_of true (gemini env k) = Text text)
    (generateContent env prompt retries).
Proof.
  unfold generateContent. eapply ensures_bind; [apply ensures_any|]. intros _ _.
  apply ensures_attempts.
Qed.


Lemma as_string_Return (v : value) (method s : string) :
  as_string v method = Return s -> v = Some (JStr s).
Proof. destruct v as [[| | |s'| |]|]; cbn; congruence. Qed.

Lemma parse_Return (text : string) (j : json) :
  parse text = Return j -> JSON_parse text = Some j.
Proof. unfold parse. destruct (JSON_parse text); congruence. Qed.

(** [field?.toUpperCase() || fallback] *)
Lemma read_field_ensures (parsed : json) (field fallback method : string)
    (m : M string) :
  m = (r <- lift (prop parsed field) ;;
       if nullish r then ret fallback
       else
         s <- as_string r method ;;
         ret (if String.eqb (toUpperCase s) "" then fallback else toUpperCase s)) ->
  ensures (fun d => d = fallback \/
                    exists s, prop parsed field = Return (Some (JStr s)) /\
                              d = toUpperCase s) m.
Proof.
  intros -> w d w'. unfold bind, lift, ret.
  destruct (prop parsed field) as [r|e]; [|done].
  destruct r as [[| | |s| |]|]; cbn; try done; try (intros [= <- _]; by left).
  destruct (String.eqb (toUpperCase s) ""); intros [= <- _]; [by left|].
  right. by exists s.
Qed.

(** The Judge's decision is UNCERTAIN unless a reply of the generation
    service carried a decision; then it is that decision in upper case. *)
Lemma judgeNode_decision (state : AgentState) :
  ensures (fun u => u_decision u = Some "UNCERTAIN" \/
                    exists s, reply_carries env true cleanJsonString "decision" s /\
                              u_decision u = Some (toUpperCase s))
    (judgeNode env state).
Proof.
  unfold judgeNode.
  do 2 (eapply ensures_bind; [apply ensures_any|]; intros ? _).
  apply ensures_try_catch.
  - eapply ensures_bind; [apply ensures_generateContent|]. intros responseText [k Hk].
    eapply ensures_bind; [apply ensures_lift|]. intros text Htext.
    apply as_string_Return in Htext as ->.
    eapply ensures_bind; [apply ensures_lift|]. intros judgment Hparse.
    apply parse_Return in Hparse.
    eapply ensures_bind; [by eapply read_field_ensures|]. intros decision Hdecision.
    do 8 (eapply ensures_bind; [apply ensures_any|]; intros ? _).
    apply ensures_ret. cbn.
    destruct Hdecision as [->|(s & Hs & ->)]; [by left|].
    right. exists s. split; [|done]. by exists k, text, judgment.
  - intros e. eapply ensures_bind; [apply ensures_any|]. intros _ _.
    apply ensures_ret. by left.
Qed.




End Verdicts.



(** C6, at the failing input.  The generation service answers the Judge
    with a well-formed reply whose decision is ["maybe"].  The Judge returns
    the decision [MAYBE], which is none of YES, NO and UNCERTAIN.  In a run,
    the router then goes to the Executor after this single pass (the
    decision is not UNCERTAIN), and the Executor resolves nothing. *)
Lemma judge_returns_unknown_decision :
  let judged := Sample.with_gemini (Sample.scripted [Sample.answer Sample.judge_maybe])
                  Sample.offline in
  let asked := Sample.with_gemini
                 (Sample.scripted [Sample.answer Sample.research_reply;
                                   Sample.answer Sample.judge_maybe]) Sample.offline in
  let run := invoke (rt := Sample.runtime) asked Sample.question_asked Sample.boot in
  u_decision <$> returned (fst (judgeNode (rt := Sample.runtime) judged
                                  Sample.question_asked Sample.boot)) =
    Some (Some "MAYBE") /\
  fst <$> returned (fst run) = Some [researcher; judge; executor] /\
  decision ∘ snd <$> returned (fst run) = Some (Some "MAYBE") /\
  count is_resolve (trace (snd run)) = 0%nat.
Proof. vm_compute. repeat split. Qed.

(** ** The tracked markets *)

(** Split a goal [preserves same_markets m] along the structure of [m]. *)
Ltac markets :=
  repeat first
    [ apply preserves_ret; apply _
    | apply preserves_throw; apply _
    | apply preserves_lift; apply _
    | apply preserves_gets; apply _
    | apply preserves_bind; [apply _| |intros ?]
    | apply preserves_try_catch; [apply _| |intros ?]
    | apply preserves_mapi; [apply _|intros ? ?]
    | solve [intros ?; reflexivity]
    | match goal with
      | |- preserves _ (if ?c then _ else _) => destruct c
      | |- preserves _ (match ?x with _ => _ end) => destruct x
      end ].

Section Markets.

Context {rt : Runtime} (env : Env).

Lemma same_markets_attempts with_body prompt retries todo :
  preserves same_markets (attempts env with_body prompt retries todo).
Proof.
  induction todo as [|attempt rest IH]; cbn [attempts]; [markets|].
  unfold request, sleep. markets. apply IH.
Qed.

Lemma same_markets_generateContent prompt retries :
  preserves same_markets (generateContent env prompt retries).
Proof. unfold generateContent, sleep. markets. apply same_markets_attempts. Qed.

Lemma same_markets_researcherNode state :
  preserves same_markets (researcherNode env state).
Proof.
  unfold researcherNode. cbv zeta. markets; try apply same_markets_generateContent.
Qed.

Lemma same_markets_judgeNode state : preserves same_markets (judgeNode env state).
Proof.
  unfold judgeNode, read_decision, read_key_evidence. cbv zeta.
  markets; try apply same_markets_generateContent.
Qed.

Lemma same_markets_shouldContinue state :
  preserves same_markets (shouldContinue env state).
Proof. unfold shouldContinue. markets. Qed.

Lemma same_markets_recent_logs entries :
  preserves same_markets (recent_logs env entries).
Proof.
  induction entries as [|l rest IH]; cbn [recent_logs]; [markets|].
  markets. apply IH.
Qed.

Lemma same_markets_reward_loop marketPda winning :
  forall distributed failed,
    preserves same_markets (reward_loop env marketPda winning distributed failed).
Proof.
  induction winning as [|stake rest IH]; intros distributed failed;
    cbn [reward_loop]; [markets|].
  unfold distributeRewardToWinner, initProgram, sleep. cbv zeta.
  markets; apply IH.
Qed.

Lemma same_markets_distributeAllRewards marketPda outcome :
  preserves same_markets (distributeAllRewards env marketPda outcome).
Proof.
  unfold distributeAllRewards, getCredStakesForMarket, initProgram. cbv zeta.
  markets. apply same_markets_reward_loop.
Qed.

Lemma same_markets_executorNode state : preserves same_markets (executorNode env state).
Proof.
  unfold executorNode, executor_rewards, pinTranscript, pinNFTMetadata,
    client_storeBlob, resolveMarket, submitted_evidence. cbv zeta.
  markets;
    try apply same_markets_recent_logs; try apply same_markets_distributeAllRewards;
    try apply same_markets_reward_loop.
Qed.

Lemma same_markets_run (limit : nat) :
  forall node state, preserves same_markets (run env limit node state).
Proof.
  induction limit as [|limit IH]; intros node state; cbn [run]; [markets|].
  destruct node; cbv zeta.
  - apply preserves_bind; [apply _|apply same_markets_researcherNode|]. intros u.
    apply preserves_bind; [apply _|apply IH|]. intros r. apply preserves_ret, _.
  - apply preserves_bind; [apply _|apply same_markets_judgeNode|]. intros u.
    apply preserves_bind; [apply _|apply same_markets_shouldContinue|]. intros next.
    apply preserves_bind; [apply _|apply IH|]. intros r. apply preserves_ret, _.
  - apply preserves_bind; [apply _|apply same_markets_executorNode|]. intros u.
    apply preserves_ret, _.
Qed.

Lemma same_markets_resolve_question body :
  preserves same_markets (resolve_question env body).
Proof. unfold resolve_question, fetchMarket. cbv zeta. markets. Qed.

End Markets.

(** ** The resolve trigger and the tracked status *)

Section Trigger.

Context {rt : Runtime} (env : Env).


(** The early responses of the question lookup are failures. *)
Lemma resolve_question_early body :
  ensures (fun q => match q with inr (Json _) => False | _ => True end)
    (resolve_question env body).
Proof.
  intros w q w'. unfold resolve_question.
  destruct (String.eqb (rb_question body) ""); [|by intros [= <- _]].
  unfold fetchMarket, emit, modify, try_catch, bind, gets, call, lift, ret. cbn.
  destruct (program w); cbn; [|by intros [= <- _]].
  destruct (rpc_fetchMarket env (calls w RpcFetchMarket)) as [[account|]|e];
    by intros [= <- _].
Qed.

(** What the pipeline leaves of the tracked markets once the trigger has
    written its entry. *)
Lemma post_resolve_markets body w :
  (activeMarkets (snd (post_resolve env body w)) = activeMarkets w /\
   forall reply, fst (post_resolve env body w) <> Return (Json reply)) \/
  exists m, tm_status m = researching /\
            activeMarkets (snd (post_resolve env body w)) =
            <[rb_marketId body := m]> (activeMarkets w).
Proof.
  unfold post_resolve. cbv zeta.
  destruct (String.eqb (rb_marketId body) ""); [by left|].
  rewrite run_bind.
  pose proof (same_markets_resolve_question env body w) as Hq.
  pose proof (resolve_question_early body w) as Hearly.
  destruct (resolve_question env body w) as [[q|e] w1]; cbn [snd] in Hq;
    [|by left].
  specialize (Hearly q w1 eq_refl).
  destruct q as [[[question pda] tweet]|response].
  2:{ left. split; [done|]. intros reply [= ->]. done. }
  right. rewrite run_bind. cbn [gets]. rewrite run_bind. cbn [modify].
  match goal with
  | |- context [snd (?rest ?w0)] =>
      assert (preserves same_markets rest) as Hrest; [|specialize (Hrest w0)]
  end.
  { apply preserves_bind; [apply _|apply same_markets_log|intros []].
    apply preserves_bind; [apply _|apply preserves_gets, _|intros stored].
    apply preserves_bind; [apply _| |intros []].
    { destruct (_ <? _)%nat; [apply same_markets_log|apply preserves_ret, _]. }
    apply preserves_try_catch; [apply _| |intros e; apply preserves_ret, _].
    apply preserves_bind; [apply _|apply same_markets_run|].
    intros r. apply preserves_ret, _. }
  eexists. split; [|rewrite Hrest; cbn; rewrite Hq; reflexivity]. done.
Qed.

Lemma same_markets_now : preserves same_markets (now env).
Proof. unfold now. markets. Qed.

Lemma serve_open_or_researching request w :
  open_or_researching w -> open_or_researching (serve env request w).
Proof.
  unfold open_or_researching. intros Hw.
  destruct request as [body|marketId tweetUrl|marketId cid d s f]; cbn [serve].
  - destruct (post_resolve_markets body w) as [[-> _]|(m & Hm & ->)]; [done|].
    intros id m' Hid. destruct (decide (rb_marketId body = id)) as [<-|Hne].
    + rewrite lookup_insert_eq in Hid. injection Hid as <-. by right.
    + rewrite lookup_insert_ne in Hid by done. by eapply Hw.
  - unfold post_market_created.
    destruct (String.eqb marketId ""); [done|].
    rewrite run_bind.
    pose proof (same_markets_log env System ("🆕 Market created: " +:+ marketId)
                  Positive w) as Hlog.
    destruct (returns_log env System ("🆕 Market created: " +:+ marketId) Positive w)
      as ([] & w1 & Hrun).
    rewrite Hrun in Hlog |- *. cbn [snd] in Hlog.
    rewrite run_bind.
    pose proof (same_markets_now w1) as Hnow.
    destruct (returns_now env w1) as (t & w2 & Hrun2).
    rewrite Hrun2 in Hnow |- *. cbn [snd] in Hnow. cbn.
    intros id m' Hid. destruct (decide (marketId = id)) as [<-|Hne].
    + rewrite lookup_insert_eq in Hid. injection Hid as <-. by left.
    + rewrite lookup_insert_ne in Hid by done. rewrite Hnow, Hlog in Hid. by eapply Hw.
  - unfold post_evidence.
    destruct (String.eqb marketId "" || String.eqb cid ""); [done|].
    rewrite run_bind. cbn [gets]. rewrite run_bind.
    pose proof (same_markets_now w) as Hnow.
    destruct (returns_now env w) as (t & w1 & Hrun).
    rewrite Hrun in Hnow |- *. cbn [snd] in Hnow. cbv zeta.
    rewrite run_bind. cbn [modify]. rewrite run_bind.
    match goal with
    | |- context [log env ?sp ?msg ?st ?w0] =>
        pose proof (same_markets_log env sp msg st w0) as Hlog;
        destruct (returns_log env sp msg st w0) as ([] & w2 & Hrun2);
        rewrite Hrun2 in Hlog |- *
    end.
    cbn [fst snd ret] in Hlog |- *. rewrite Hlog. cbn [activeMarkets set_activeMarkets].
    rewrite Hnow.
    intros id m' Hid. destruct (decide (marketId = id)) as [<-|Hne].
    + rewrite lookup_insert_eq in Hid. injection Hid as <-. cbn.
      destruct (activeMarkets w !! marketId) as [m|] eqn:Hm; cbn; [by eapply Hw|by left].
    + rewrite lookup_insert_ne in Hid by done. by eapply Hw.
Qed.

Lemma serve_all_open_or_researching requests :
  forall w, open_or_researching w -> open_or_researching (serve_all env requests w).
Proof.
  induction requests as [|r rest IH]; intros w Hw; cbn [serve_all]; [done|].
  by apply IH, serve_open_or_researching.
Qed.



End Trigger.


(** ** Frames of the resolution pipeline *)

(** Split a goal [preserves R m] along the structure of [m]; [leaf] closes
    the goals for the primitive steps. *)
Ltac frame leaf :=
  repeat first
    [ leaf
    | apply preserves_ret; apply _
    | apply preserves_throw; apply _
    | apply preserves_lift; apply _
    | apply preserves_gets; apply _
    | apply preserves_bind; [apply _| |intros ?]
    | apply preserves_try_catch; [apply _| |intros ?]
    | apply preserves_mapi; [apply _|intros ? ?]
    | match goal with
      | |- preserves _ (if ?c then _ else _) => destruct c
      | |- preserves _ (match ?x with _ => _ end) => destruct x
      end ].

Section Pipeline.

Context {rt : Runtime} (env : Env) (R : World -> World -> Prop) `{!PreOrder R}.

(** What the pipeline is made of: calls to the collaborators, with the
    requests to the generation service apart; trace events, with the sleeps
    and the generation requests apart; log entries; the loading of the
    Anchor program. *)
Hypothesis R_call : forall s, s <> Gemini -> preserves R (call s).
Hypothesis R_request : preserves R (call Gemini).
Hypothesis R_sleep : forall ms, preserves R (emit (Sleep ms)).
Hypothesis R_generate : forall prompt, preserves R (emit (HttpGenerate prompt)).
Hypothesis R_emit : forall e, is_idle e = false -> preserves R (emit e).
Hypothesis R_addGlobalLog : forall entry, preserves R (addGlobalLog entry).
Hypothesis R_load : preserves R (modify (set_program true)).

Ltac primitive :=
  first [ apply R_call; discriminate | apply R_request
        | apply R_sleep | apply R_generate | apply R_emit; reflexivity
        | apply R_addGlobalLog | apply R_load ].

Lemma frame_now : preserves R (now env).
Proof. unfold now. frame primitive. Qed.

Lemma frame_log sp msg st : preserves R (log env sp msg st).
Proof. unfold log. frame ltac:(first [apply frame_now | primitive]). Qed.

Lemma frame_attempts with_body prompt retries todo :
  preserves R (attempts env with_body prompt retries todo).
Proof.
  induction todo as [|attempt rest IH]; cbn [attempts].
  - apply preserves_throw, _.
  - unfold request, sleep. frame ltac:(first [apply IH | primitive]).
Qed.

Lemma frame_generateContent prompt retries :
  preserves R (generateContent env prompt retries).
Proof.
  unfold generateContent, sleep. frame ltac:(first [apply frame_attempts | primitive]).
Qed.

Ltac logging := first [ apply frame_log | apply frame_now | primitive ].

Lemma frame_researcherNode state : preserves R (researcherNode env state).
Proof.
  unfold researcherNode. cbv zeta.
  frame ltac:(first [apply frame_generateContent | logging]).
Qed.

Lemma frame_judgeNode state : preserves R (judgeNode env state).
Proof.
  unfold judgeNode, read_decision, read_key_evidence. cbv zeta.
  frame ltac:(first [apply frame_generateContent | logging]).
Qed.

Lemma frame_shouldContinue state : preserves R (shouldContinue env state).
Proof. unfold shouldContinue. frame logging. Qed.

Lemma frame_recent_logs entries : preserves R (recent_logs env entries).
Proof.
  induction entries as [|entry rest IH]; cbn [recent_logs];
    frame ltac:(first [apply IH | logging]).
Qed.

Lemma frame_distributeRewardToWinner marketPda userPubkey amount :
  preserves R (distributeRewardToWinner env marketPda userPubkey amount).
Proof. unfold distributeRewardToWinner, initProgram. frame primitive. Qed.

Lemma frame_reward_loop marketPda winning :
  forall distributed failed,
    preserves R (reward_loop env marketPda winning distributed failed).
Proof.
  induction winning as [|stake rest IH]; intros distributed failed; cbn [reward_loop].
  - apply preserves_ret, _.
  - unfold sleep. cbv zeta.
    frame ltac:(first [apply IH | apply frame_distributeRewardToWinner | primitive]).
Qed.

Lemma frame_distributeAllRewards marketPda outcome :
  preserves R (distributeAllRewards env marketPda outcome).
Proof.
  unfold distributeAllRewards, getCredStakesForMarket, initProgram. cbv zeta.
  frame ltac:(first [apply frame_reward_loop | primitive]).
Qed.

Lemma frame_executorNode state : preserves R (executorNode env state).
Proof.
  unfold executorNode, executor_rewards, pinTranscript, pinNFTMetadata,
    client_storeBlob, resolveMarket, submitted_evidence. cbv zeta.
  frame ltac:(first [ apply frame_recent_logs | apply frame_distributeAllRewards
                    | logging ]).
Qed.

Lemma frame_run (limit : nat) :
  forall node state, preserves R (run env limit node state).
Proof.
  induction limit as [|limit IH]; intros node state; cbn [run];
    [apply preserves_throw, _|].
  destruct node; cbv zeta.
  - apply preserves_bind; [apply _|apply frame_researcherNode|]. intros u.
    apply preserves_bind; [apply _|apply IH|]. intros r. apply preserves_ret, _.
  - apply preserves_bind; [apply _|apply frame_judgeNode|]. intros u.
    apply preserves_bind; [apply _|apply frame_shouldContinue|]. intros next.
    apply preserves_bind; [apply _|apply IH|]. intros r. apply preserves_ret, _.
  - apply preserves_bind; [apply _|apply frame_executorNode|]. intros u.
    apply preserves_ret, _.
Qed.

End Pipeline.
(** ** The window of the global log *)

#[local] Instance log_bounded_preorder : PreOrder log_bounded.
Proof.
  split.
  - by intros w Hw.
  - intros w1 w2 w3 H12 H23 Hw. by apply H23, H12.
Qed.

Lemma addGlobalLog_window (entry : LogEntry) (w : World) :
  (List.length (logHistory w) <= 200)%nat ->
  logHistory (snd (addGlobalLog entry w)) =
    drop (S (List.length (logHistory w)) - 200) (logHistory w ++ [entry]).
Proof.
  intros Hw. unfold addGlobalLog, modify. cbn [snd]. cbv zeta.
  unfold set_logHistory. cbn [logHistory].
  rewrite length_app. cbn [List.length].
  destruct (Nat.ltb_spec 200 (List.length (logHistory w) + 1)) as [Hfull|Hroom].
  - replace (S (List.length (logHistory w)) - 200)%nat with 1%nat by lia.
    by destruct (logHistory w ++ [entry]).
  - by replace (S (List.length (logHistory w)) - 200)%nat with 0%nat by lia.
Qed.

Lemma log_bounded_addGlobalLog (entry : LogEntry) :
  preserves log_bounded (addGlobalLog entry).
Proof.
  intros w Hw. rewrite addGlobalLog_window by done.
  rewrite length_drop, length_app. cbn. lia.
Qed.

(** Steps that leave the global log as it is. *)
Ltac log_untouched := solve [intros; intros w Hw; exact Hw].

Section Window.

Context {rt : Runtime} (env : Env).

Lemma log_bounded_run limit node state :
  preserves log_bounded (run env limit node state).
Proof.
  apply frame_run; try apply _; try log_untouched.
  apply log_bounded_addGlobalLog.
Qed.

Lemma log_bounded_log sp msg st : preserves log_bounded (log env sp msg st).
Proof.
  apply frame_log; try apply _; try log_untouched.
  apply log_bounded_addGlobalLog.
Qed.

Lemma log_bounded_serve request w : log_bounded w (serve env request w).
Proof.
  destruct request as [body|marketId tweetUrl|marketId cid d s f]; cbn [serve].
  - revert w. change (preserves log_bounded (post_resolve env body)).
    unfold post_resolve, resolve_question, fetchMarket, invoke. cbv zeta.
    frame ltac:(first [ apply log_bounded_run | apply log_bounded_log | log_untouched ]).
  - revert w. change (preserves log_bounded (post_market_created env marketId tweetUrl)).
    unfold post_market_created, now.
    frame ltac:(first [ apply log_bounded_log | log_untouched ]).
  - revert w. change (preserves log_bounded (post_evidence env marketId cid d s f)).
    unfold post_evidence, now. cbv zeta.
    frame ltac:(first [ apply log_bounded_log | log_untouched ]).
Qed.

(** X1.  The global log is a window of the 200 newest entries: a new entry
    goes to the end and, when the log is full, the oldest one is dropped.
    No sequence of requests to the handlers, with the pipeline runs they
    start, makes the log longer than 200 entries. *)
Theorem log_history_window (entry : LogEntry) (requests : list Request) (w : World) :
  (List.length (logHistory w) <= 200)%nat ->
  logHistory (snd (addGlobalLog entry w)) =
    drop (S (List.length (logHistory w)) - 200) (logHistory w ++ [entry]) /\
  (List.length (logHistory (serve_all env requests w)) <= 200)%nat.
Proof.
  intros Hw. split; [by apply addGlobalLog_window|].
  revert w Hw. induction requests as [|r rest IH]; intros w Hw; cbn [serve_all]; [done|].
  apply IH. by apply log_bounded_serve.
Qed.

End Window.

(** A freshly started agent that is asked to resolve a market while the
    generation service is down. *)
Lemma log_history_window_witness :
  let entry := {| speaker := System; message := "up"; timestamp := 0;
                  sentiment := Neutral |} in
  let requests :=
    [PostResolve {| rb_marketId := "m1"; rb_question := "Did X happen?";
                    rb_marketPda := ""; rb_evidenceUrls := [] |}] in
  (List.length (logHistory Sample.boot) <= 200)%nat /\
  (List.length (logHistory (serve_all (rt := Sample.runtime) Sample.offline requests
                              Sample.boot)) <= 200)%nat.
Proof.
  cbn zeta. split; [cbn; lia|].
  apply (log_history_window (rt := Sample.runtime) Sample.offline
           {| speaker := System; message := "up"; timestamp := 0; sentiment := Neutral |}).
  cbn. lia.
Defined.

(** ** The disbursement loop *)

Section Ledger.

Context (env : Env).





End Ledger.

(** ** Fallback identifiers *)

Lemma length_substring (n m : nat) (s : string) :
  String.length (String.substring n m s) = Nat.min m (String.length s - n).
Proof.
  revert n m. induction s as [|c s IH]; intros [|n] [|m]; cbn; try done;
    rewrite IH; cbn; by rewrite ?Nat.sub_0_r.
Qed.

Lemma length_append (s1 s2 : string) :
  String.length (s1 +:+ s2) = (String.length s1 + String.length s2)%nat.
Proof. induction s1 as [|c s1 IH]; simpl; [done|]. by f_equal. Qed.

Lemma length_hex (bs : list byte) : String.length (hex bs) = (2 * List.length bs)%nat.
Proof.
  induction bs as [|b bs IH]; [done|].
  change (hex (b :: bs)) with (hex_byte b +:+ hex bs).
  rewrite length_append, IH. cbn. lia.
Qed.

Section Fallbacks.

Context {rt : Runtime}.

Lemma pinNFTMetadata_run (env : Env) (metadata : NFTMetadata.t) (w : World) :
  fst (pinNFTMetadata env metadata w) =
    Return (if getClient env then
              match storeBlob env (calls w NftStorage) with
              | Return cid => cid
              | Throw _ => metadata_fallback_cid metadata
              end
            else metadata_fallback_cid metadata).
Proof.
  unfold pinNFTMetadata, metadata_fallback_cid, try_catch, bind, client_storeBlob,
    bind, call, emit, modify, lift, ret.
  cbn. destruct (getClient env); cbn; [|done].
  by destruct (storeBlob env (calls w NftStorage)).
Qed.

(** X3.  [pinNFTMetadata] never throws.  When the store is not configured
    or its pin call throws, it returns [bafkreim] followed by the first 50
    hex digits of the SHA-256 of the serialized metadata, whatever the
    collaborators and the state are.  With a 32-byte digest that identifier
    has 58 characters, and it differs from the fallback identifier of every
    transcript. *)
Theorem pinNFTMetadata_falls_back (env : Env) (metadata : NFTMetadata.t) (w : World) :
  pin_fails env w = true ->
  List.length (sha256 (JSON_stringify (NFTMetadata.to_json metadata))) = 32%nat ->
  (forall env0 w0, exists cid, fst (pinNFTMetadata env0 metadata w0) = Return cid) /\
  fst (pinNFTMetadata env metadata w) = Return (metadata_fallback_cid metadata) /\
  String.length (metadata_fallback_cid metadata) = 58%nat /\
  forall transcript, metadata_fallback_cid metadata <> fallback_cid transcript.
Proof.
  intros Hfails Hdigest. split; [|split; [|split]].
  - intros env0 w0. rewrite pinNFTMetadata_run. eauto.
  - rewrite pinNFTMetadata_run. unfold pin_fails in Hfails.
    destruct (getClient env); [|done].
    by destruct (storeBlob env (calls w NftStorage)).
  - unfold metadata_fallback_cid, substring.
    rewrite length_append, length_substring, length_hex, Hdigest. reflexivity.
  - intros transcript. unfold metadata_fallback_cid, fallback_cid.
    cbn [String.append]. intros Heq. discriminate Heq.
Qed.

End Fallbacks.

(** No storage key is configured, and the stand-in digest has 32 bytes. *)
Lemma pinNFTMetadata_falls_back_witness :
  let metadata :=
    createProofNFTMetadata (rt := Sample.runtime) "m1" "Did X happen?" "YES"
      "bafkreig00" 1671400000000 in
  pin_fails Sample.offline Sample.boot = true /\
  fst (pinNFTMetadata (rt := Sample.runtime) Sample.offline metadata Sample.boot) =
    Return (metadata_fallback_cid (rt := Sample.runtime) metadata).
Proof.
  cbn zeta. split; [reflexivity|].
  apply (pinNFTMetadata_falls_back (rt := Sample.runtime)); reflexivity.
Defined.

(** ** The generation client of the reconsideration workflow *)

Lemma append_empty_r (s : string) : s +:+ "" = s.
Proof.
  induction s as [|c s IH]; [reflexivity|].
  change (String c (s +:+ "") = String c s). by rewrite IH.
Qed.

Section ReconsiderationClient.

Context {rt : Runtime} (env : Env).


End ReconsiderationClient.

(** ** The evidence store *)

Section Evidence.

Context {rt : Runtime} (env : Env).

(** The entry a resolve trigger writes keeps the logs and the evidence of
    the entry it replaces. *)
Lemma post_resolve_entry body w :
  activeMarkets (snd (post_resolve env body w)) = activeMarkets w \/
  exists m,
    tm_evidence m = evidence_of (rb_marketId body) w /\
    tm_logs m = default [] (tm_logs <$> activeMarkets w !! rb_marketId body) /\
    activeMarkets (snd (post_resolve env body w)) =
      <[rb_marketId body := m]> (activeMarkets w).
Proof.
  unfold post_resolve. cbv zeta.
  destruct (String.eqb (rb_marketId body) ""); [by left|].
  rewrite run_bind.
  pose proof (same_markets_resolve_question env body w) as Hq.
  destruct (resolve_question env body w) as [[q|e] w1]; cbn [snd] in Hq; [|by left].
  destruct q as [[[question pda] tweet]|response]; [|by left].
  right. rewrite run_bind. cbn [gets]. rewrite run_bind. cbn [modify].
  match goal with
  | |- context [snd (?rest ?w0)] =>
      assert (preserves same_markets rest) as Hrest; [|specialize (Hrest w0)]
  end.
  { apply preserves_bind; [apply _|apply same_markets_log|intros []].
    apply preserves_bind; [apply _|apply preserves_gets, _|intros stored].
    apply preserves_bind; [apply _| |intros []].
    { destruct (_ <? _)%nat; [apply same_markets_log|apply preserves_ret, _]. }
    apply preserves_try_catch; [apply _| |intros e; apply preserves_ret, _].
    apply preserves_bind; [apply _|apply same_markets_run|].
    intros r. apply preserves_ret, _. }
  unfold same_markets in Hq. eexists. split; [|split].
  3: { rewrite Hrest. cbn [snd activeMarkets set_activeMarkets]. rewrite Hq. reflexivity. }
  - reflexivity.
  - reflexivity.
Qed.

Lemma post_evidence_run marketId cid d s f w :
  String.eqb marketId "" || String.eqb cid "" = false ->
  exists w',
    post_evidence env marketId cid d s f w =
      (Return (Json (S (List.length (evidence_of marketId w)))), w') /\
    exists m,
      tm_evidence m =
        evidence_of marketId w ++
        [{| ev_cid := cid; ev_description := d; ev_submitter := s; ev_filename := f;
            ev_timestamp := Date_now env (calls w Clock) |}] /\
      tm_status m = default open (tm_status <$> activeMarkets w !! marketId) /\
      tm_logs m = default [] (tm_logs <$> activeMarkets w !! marketId) /\
      activeMarkets w' = <[marketId := m]> (activeMarkets w).
Proof.
  intros Hvalid. unfold post_evidence. rewrite Hvalid.
  rewrite run_bind. cbn [gets]. rewrite run_bind.
  change (now env w) with
    (Return (Date_now env (calls w Clock)),
     set_calls (fun s' => if decide (s' = Clock) then S (calls w Clock) else calls w s') w).
  cbv beta iota zeta. rewrite run_bind. cbn [modify]. rewrite run_bind.
  match goal with
  | |- context [log env ?sp ?msg ?st ?w0] =>
      pose proof (same_markets_log env sp msg st w0) as Hlog;
      destruct (returns_log env sp msg st w0) as ([] & w2 & Hrun2);
      rewrite Hrun2 in Hlog |- *
  end.
  cbn [fst snd ret] in Hlog |- *. exists w2. split.
  - unfold evidence_of, ret. do 3 f_equal. cbn [tm_evidence]. rewrite length_app.
    destruct (activeMarkets w !! marketId); cbn; lia.
  - unfold same_markets in Hlog. eexists. split; [|split; [|split]].
    4: { rewrite Hlog. reflexivity. }
    + unfold evidence_of. cbn. by destruct (activeMarkets w !! marketId).
    + cbn. by destruct (activeMarkets w !! marketId).
    + cbn. by destruct (activeMarkets w !! marketId).
Qed.

Lemma evidence_of_insert id id' m w w' :
  activeMarkets w' = <[id := m]> (activeMarkets w) ->
  evidence_of id' w' = if decide (id = id') then tm_evidence m else evidence_of id' w.
Proof.
  intros Hw'. unfold evidence_of. rewrite Hw'. case_decide as Hid.
  - subst id'. by rewrite lookup_insert_eq.
  - by rewrite lookup_insert_ne.
Qed.

Lemma post_market_created_run marketId tweetUrl w :
  String.eqb marketId "" = false ->
  exists m,
    tm_evidence m = [] /\ tm_logs m = [] /\ tm_status m = open /\
    activeMarkets (snd (post_market_created env marketId tweetUrl w)) =
      <[marketId := m]> (activeMarkets w).
Proof.
  intros Hvalid. unfold post_market_created. rewrite Hvalid.
  rewrite run_bind.
  pose proof (same_markets_log env System ("🆕 Market created: " +:+ marketId)
                Positive w) as Hlog.
  destruct (returns_log env System ("🆕 Market created: " +:+ marketId) Positive w)
    as ([] & w1 & Hrun).
  rewrite Hrun in Hlog |- *. cbn [snd] in Hlog.
  rewrite run_bind.
  change (now env w1) with
    (Return (Date_now env (calls w1 Clock)),
     set_calls (fun s' => if decide (s' = Clock) then S (calls w1 Clock) else calls w1 s')
       w1).
  cbn. unfold same_markets in Hlog. eexists. rewrite Hlog.
  split; [|split; [|split]]. 4: reflexivity. all: reflexivity.
Qed.

(** X5.  Evidence submitted for a market is appended to what is stored
    for it, and the response counts the stored items; the evidence of other
    markets is left alone.  A resolve trigger, whatever its pipeline run
    does, leaves the stored evidence of every market as it is.  A
    market-created notification for the market discards its stored
    evidence. *)
Theorem evidence_store (marketId cid description submitter filename : string)
    (w : World) :
  String.eqb marketId "" || String.eqb cid "" = false ->
  let w1 := serve env (PostEvidence marketId cid description submitter filename) w in
  let item := {| ev_cid := cid; ev_description := description;
                 ev_submitter := submitter; ev_filename := filename;
                 ev_timestamp := Date_now env (calls w Clock) |} in
  fst (post_evidence env marketId cid description submitter filename w) =
    Return (Json (S (List.length (evidence_of marketId w)))) /\
  evidence_of marketId w1 = evidence_of marketId w ++ [item] /\
  (forall id, id <> marketId -> evidence_of id w1 = evidence_of id w) /\
  (forall body id, evidence_of id (serve env (PostResolve body) w1) = evidence_of id w1) /\
  (forall tweetUrl,
     evidence_of marketId (serve env (PostMarketCreated marketId tweetUrl) w1) = []).
Proof.
  intros Hvalid. cbn zeta. cbn [serve].
  destruct (post_evidence_run marketId cid description submitter filename w Hvalid)
    as (w1 & Hrun & m & Hevidence & _ & _ & Hmarkets).
  rewrite Hrun. cbn [fst snd]. split; [done|]. split; [|split; [|split]].
  - rewrite (evidence_of_insert _ marketId _ _ _ Hmarkets).
    by rewrite decide_True.
  - intros id Hid. rewrite (evidence_of_insert _ id _ _ _ Hmarkets).
    by rewrite decide_False.
  - intros body id.
    destruct (post_resolve_entry body w1) as [Hsame|(m' & Hm' & _ & Hinsert)].
    + unfold evidence_of. by rewrite Hsame.
    + rewrite (evidence_of_insert _ id _ _ _ Hinsert). case_decide as Hid; [|done].
      by subst id.
  - intros tweetUrl.
    destruct (post_market_created_run marketId tweetUrl w1) as (m' & Hm' & _ & _ & Hinsert).
    { by apply orb_false_elim in Hvalid as [-> _]. }
    rewrite (evidence_of_insert _ marketId _ _ _ Hinsert). by rewrite decide_True.
Qed.

End Evidence.

(** Evidence for market [m1], submitted to a freshly started agent. *)
Lemma evidence_store_witness :
  let w1 := serve (rt := Sample.runtime) Sample.offline
              (PostEvidence "m1" "bafkreie1" "Scan of a later report" "alice" "scan.pdf")
              Sample.boot in
  String.eqb "m1" "" || String.eqb "bafkreie1" "" = false /\
  List.length (evidence_of "m1" w1) = 1%nat.
Proof.
  cbn zeta. split; [reflexivity|].
  destruct (evidence_store (rt := Sample.runtime) Sample.offline "m1" "bafkreie1"
              "Scan of a later report" "alice" "scan.pdf" Sample.boot eq_refl)
    as (_ & -> & _).
  reflexivity.
Defined.

(** ** When the generation service gives nothing usable *)

#[local] Instance idle_only_preorder : PreOrder idle_only.
Proof.
  split.
  - intros w. exists []. by rewrite app_nil_r.
  - intros w1 w2 w3 (e1 & H1 & F1) (e2 & H2 & F2). exists (e1 ++ e2).
    split; [by rewrite H2, H1, app_assoc|]. by apply Forall_app.
Qed.

#[local] Instance same_requests_preorder : PreOrder same_requests.
Proof.
  split.
  - by intros w.
  - intros w1 w2 w3 H12 H23. unfold same_requests in *. congruence.
Qed.

Ltac idle_step :=
  solve [ intros; intros w; exists []; cbn; by rewrite app_nil_r
        | intros; intros w; eexists [_]; split; [reflexivity|by repeat constructor] ].

Ltac quiet_step :=
  solve [ intros; intros w; unfold same_requests; cbn; services; reflexivity
        | intros s Hs w; unfold same_requests; cbn; by rewrite decide_False ].

Section Unusable.

Context {rt : Runtime} (env : Env).

Lemma idle_only_log sp msg st : preserves idle_only (log env sp msg st).
Proof. apply frame_log; try apply _; idle_step. Qed.

Lemma same_requests_log sp msg st : preserves same_requests (log env sp msg st).
Proof. apply frame_log; try apply _; quiet_step. Qed.

Lemma idle_only_researcherNode state : preserves idle_only (researcherNode env state).
Proof. apply frame_researcherNode; try apply _; idle_step. Qed.

Lemma idle_only_judgeNode state : preserves idle_only (judgeNode env state).
Proof. apply frame_judgeNode; try apply _; idle_step. Qed.

Lemma idle_only_shouldContinue state : preserves idle_only (shouldContinue env state).
Proof. apply frame_shouldContinue; try apply _; idle_step. Qed.

(** A call of the client whose answers are unusable throws, or returns a
    text that the caller cannot parse. *)
Lemma generateContent_unusable (prompt : Prompt) (w : World) :
  unusable env true cleanJsonString (calls w Gemini) 3 ->
  match fst (generateContent env prompt 3 w) with
  | Return (Some (JStr s)) => JSON_parse (cleanJsonString s) = None
  | _ => True
  end.
Proof.
  intros Hdown.
  change (generateContent env prompt 3 w)
    with (attempts env true prompt 3 (seq 0 3) (slept 4000 w)).
  destruct (attempts_run env true prompt 3 3 0 (slept 4000 w) eq_refl)
    as (n & Hn & _ & _ & Hresult).
  destruct (fst (attempts env true prompt 3 (seq 0 3) (slept 4000 w))) as [text|e];
    [|done].
  destruct Hresult as (k & -> & Hk). apply (Hdown k text); [lia|exact Hk].
Qed.

(** The Researcher's [catch] block is entered when nothing usable is
    answered. *)
Lemma researcherNode_unusable (state : AgentState) (w : World) :
  unusable env true cleanJsonString (calls w Gemini) 3 ->
  exists w',
    researcherNode env state w = (Return research_failure, w') /\ idle_only w w'.
Proof.
  intros Hdown.
  pose proof (idle_only_researcherNode state w) as Hidle.
  destruct (researcherNode env state w) as [o w'] eqn:Hrun. cbn [snd] in Hidle.
  exists w'. split; [|exact Hidle]. f_equal.
  change o with (fst (o, w')). rewrite <- Hrun. clear Hrun Hidle.
  unfold researcherNode.
  step same_requests (returns_log env _ _ _) (same_requests_log _ _ _).
  match goal with
  | |- context [bind ?m ?k w0] =>
      destruct (run_step same_requests m k w0) as ([] & w1 & Hstep1 & ->)
  end.
  { destruct (0 <? _)%nat; [apply returns_log|apply returns_ret]. }
  { destruct (0 <? _)%nat; [apply same_requests_log|apply preserves_ret, _]. }
  assert (Hcalls : calls w1 Gemini = calls w Gemini)
    by (unfold same_requests in *; congruence).
  rewrite <- Hcalls in Hdown. cbv zeta.
  match goal with
  | |- fst (try_catch ?body ?handler w1) = _ =>
      assert (Hthrows : exists e w2, body w1 = (Throw e, w2));
        [|destruct Hthrows as (e & w2 & Hthrows); rewrite run_try_catch, Hthrows]
  end.
  + rewrite run_bind.
    pose proof (generateContent_unusable
                  (ResearchPrompt (question state) (evidenceUrls state)) w1 Hdown)
      as Htext.
    destruct (generateContent env _ 3 w1) as [[text|e] w2]; cbn [fst] in Htext;
      [|by eexists _, _].
    rewrite run_bind. unfold lift at 1.
    destruct text as [[| | |s| |]|]; cbn [as_string]; try by eexists _, _.
    rewrite run_bind. unfold lift at 1, parse. rewrite Htext. by eexists _, _.
  + destruct (returns_log env System ("❌ Research Error: " +:+ error_message e)
                Negative w2) as ([] & w3 & Hlog).
    rewrite run_bind, Hlog. done.
Qed.

(** So is the Judge's. *)
Lemma judgeNode_unusable (state : AgentState) (w : World) :
  renderable (facts state) (factConfidences state) ->
  unusable env true cleanJsonString (calls w Gemini) 3 ->
  exists w',
    judgeNode env state w = (Return (judge_failure state), w') /\ idle_only w w'.
Proof.
  intros Hrender Hdown.
  pose proof (idle_only_judgeNode state w) as Hidle.
  destruct (judgeNode env state w) as [o w'] eqn:Hrun. cbn [snd] in Hidle.
  exists w'. split; [|exact Hidle]. f_equal.
  change o with (fst (o, w')). rewrite <- Hrun. clear Hrun Hidle.
  unfold judgeNode.
  step same_requests (returns_log env _ _ _) (same_requests_log _ _ _).
  match goal with
  | |- context [bind ?m ?k w0] =>
      destruct (run_step same_requests m k w0) as (lines & w1 & Hstep1 & ->)
  end.
  { by apply (judge_lines_return (question state)). }
  { apply preserves_mapi; [apply _|]. intros fact i.
    apply preserves_bind; [apply _|apply preserves_lift, _|].
    intros c. apply preserves_ret, _. }
  assert (Hcalls : calls w1 Gemini = calls w Gemini)
    by (unfold same_requests in *; congruence).
  rewrite <- Hcalls in Hdown. cbv zeta.
  match goal with
  | |- fst (try_catch ?body ?handler w1) = _ =>
      assert (Hthrows : exists e w2, body w1 = (Throw e, w2));
        [|destruct Hthrows as (e & w2 & Hthrows); rewrite run_try_catch, Hthrows]
  end.
  + rewrite run_bind.
    pose proof (generateContent_unusable (JudgePrompt (question state) lines) w1 Hdown)
      as Htext.
    destruct (generateContent env _ 3 w1) as [[text|e] w2]; cbn [fst] in Htext;
      [|by eexists _, _].
    rewrite run_bind. unfold lift at 1.
    destruct text as [[| | |s| |]|]; cbn [as_string]; try by eexists _, _.
    rewrite run_bind. unfold lift at 1, parse. rewrite Htext. by eexists _, _.
  + destruct (returns_log env Judge ("❌ Error rendering verdict: " +:+ error_message e)
                Negative w2) as ([] & w3 & Hlog).
    rewrite run_bind, Hlog. done.
Qed.

(** X6.  The Researcher never throws.  When none of the answers to its
    three requests carries a text that parses, it returns the one fact
    [Unable to verify facts due to agent error.] with confidence 0, having
    added nothing but sleeps and generation requests to the trace. *)
Theorem researcher_falls_back (state : AgentState) (w : World) :
  unusable env true cleanJsonString (calls w Gemini) 3 ->
  (forall s v, exists u, fst (researcherNode env s v) = Return u) /\
  fst (researcherNode env state w) = Return research_failure /\
  Forall (fun e => is_idle e = true) (new_events w (snd (researcherNode env state w))).
Proof.
  intros Hdown. split.
  - intros s v. destruct (researcherNode_returns env s v) as (u & v' & ->). eauto.
  - destruct (researcherNode_unusable state w Hdown) as (w' & -> & events & Htrace & Hidle).
    split; [done|]. cbn [snd]. by rewrite (new_events_app _ _ _ Htrace).
Qed.

(** X7.  When none of the answers to the Judge's three requests carries a
    text that parses, the Judge returns the decision UNCERTAIN with the
    reasoning [Error in judgment process] and one more iteration, having
    added nothing but sleeps and generation requests to the trace. *)
Theorem judge_falls_back (state : AgentState) (w : World) :
  renderable (facts state) (factConfidences state) ->
  unusable env true cleanJsonString (calls w Gemini) 3 ->
  fst (judgeNode env state w) = Return (judge_failure state) /\
  Forall (fun e => is_idle e = true) (new_events w (snd (judgeNode env state w))).
Proof.
  intros Hrender Hdown.
  destruct (judgeNode_unusable state w Hrender Hdown)
    as (w' & -> & events & Htrace & Hidle).
  split; [done|]. cbn [snd]. by rewrite (new_events_app _ _ _ Htrace).
Qed.

End Unusable.

(** The generation service cannot be reached. *)
Lemma researcher_falls_back_witness :
  unusable (rt := Sample.runtime) Sample.offline true cleanJsonString
    (calls Sample.boot Gemini) 3 /\
  fst (researcherNode (rt := Sample.runtime) Sample.offline Sample.question_asked
         Sample.boot) = Return research_failure.
Proof.
  assert (Hdown : unusable (rt := Sample.runtime) Sample.offline true cleanJsonString
                    (calls Sample.boot Gemini) 3) by (intros k text _ Hk; discriminate Hk).
  split; [exact Hdown|].
  apply (researcher_falls_back (rt := Sample.runtime) Sample.offline
           Sample.question_asked Sample.boot Hdown).
Defined.

(** The Judge is asked about the Researcher's fallback fact while the
    generation service cannot be reached. *)
Lemma judge_falls_back_witness :
  let state := apply_update Sample.question_asked research_failure in
  renderable (H := Sample.runtime) (facts state) (factConfidences state) /\
  fst (judgeNode (rt := Sample.runtime) Sample.offline state Sample.boot) =
    Return (judge_failure state).
Proof.
  cbn zeta.
  assert (Hrender : renderable (H := Sample.runtime)
                      (facts (apply_update Sample.question_asked research_failure))
                      (factConfidences (apply_update Sample.question_asked research_failure))).
  { intros [|i] Hi; [by eexists|]. cbn in Hi. lia. }
  split; [exact Hrender|].
  apply (judge_falls_back (rt := Sample.runtime) Sample.offline _ Sample.boot Hrender).
  intros k text _ Hk. discriminate Hk.
Defined.

Section Outage.

Context {rt : Runtime} (env : Env).

Hypothesis outage : forall first, unusable env true cleanJsonString first 3.

(** With a decision other than YES and NO the Executor only logs. *)
Lemma executorNode_unresolved (state : AgentState) (w : World) :
  terminal_outcome state = None ->
  exists w', executorNode env state w = (Return no_update, w') /\ trace w' = trace w.
Proof.
  intros Hnone. unfold executorNode.
  step silent (returns_log env _ _ _) (silent_log env _ _ _).
  assert (Hterminal : bool_decide (decision state = Some "YES") ||
                      bool_decide (decision state = Some "NO") = false).
  { unfold terminal_outcome in Hnone.
    destruct (bool_decide (decision state = Some "YES")); [done|].
    by destruct (bool_decide (decision state = Some "NO")). }
  rewrite Hterminal.
  step silent (returns_log env _ _ _) (silent_log env _ _ _).
  eexists. split; [reflexivity|].
  destruct Hstep as (_ & _ & H0), Hstep0 as (_ & _ & H1). by rewrite H1, H0.
Qed.

(** One Research pass and one Judge pass during the outage. *)
Lemma outage_cycle (state : AgentState) (w : World) (limit : nat) :
  let researched := apply_update state research_failure in
  let judged := apply_update researched (judge_failure researched) in
  exists w',
    idle_only w w' /\
    run env (S (S limit)) researcher state w =
      (r <- run env limit (if iterations state + 1 <? 3 then researcher else executor)
              judged ;;
       ret (researcher :: judge :: fst r, snd r)) w'.
Proof.
  cbn zeta. rewrite run_researcher, run_bind.
  destruct (researcherNode_unusable env state w (outage _)) as (w1 & -> & Hidle1).
  rewrite run_bind, run_judge, run_bind.
  set (researched := apply_update state research_failure).
  destruct (judgeNode_unusable env researched w1) as (w2 & -> & Hidle2).
  { intros [|i] Hi; [by eexists|]. cbn in Hi. lia. }
  { apply outage. }
  rewrite run_bind.
  set (judged := apply_update researched (judge_failure researched)).
  pose proof (idle_only_shouldContinue env judged w2) as Hidle3.
  destruct (shouldContinue_run env judged w2) as (w3 & Hrouter).
  rewrite Hrouter in Hidle3 |- *. cbn [snd] in Hidle3.
  exists w3. split; [by etrans; [|etrans]|].
  change (bool_decide (decision judged = Some "UNCERTAIN")) with true.
  change (iterations judged) with (iterations state + 1).
  rewrite !run_bind. cbn [andb].
  by destruct (run env limit _ judged w3) as [[r|e] w4].
Qed.

(** X8.  When no answer of the generation service is usable during a run,
    the run started by the handlers goes three times through the Researcher
    and the Judge and then through the Executor.  It ends undecided, with
    the Researcher's fallback fact, the Judge's fallback reasoning, three
    iterations, no transcript and no transaction, and it has called
    neither the store nor the ledger. *)
Theorem outage_run (question marketId marketPda : string) (evidenceUrls : list string)
    (w : World) :
  let r := invoke env (initial_state question marketId marketPda evidenceUrls) w in
  fst r = Return (path_of 3, unresolved_state question marketId marketPda evidenceUrls) /\
  Forall (fun e => is_idle e = true) (new_events w (snd r)).
Proof.
  cbn zeta. unfold invoke, recursionLimit.
  set (s0 := initial_state question marketId marketPda evidenceUrls).
  change 25%nat with (S (S 23)).
  destruct (outage_cycle s0 w 23) as (w1 & Hidle1 & ->). rewrite run_bind.
  set (s1 := apply_update (apply_update s0 research_failure) _).
  change (iterations s0 + 1 <? 3) with true. cbv iota.
  change 23%nat with (S (S 21)).
  destruct (outage_cycle s1 w1 21) as (w2 & Hidle2 & ->). rewrite run_bind.
  set (s2 := apply_update (apply_update s1 research_failure) _).
  change (iterations s1 + 1 <? 3) with true. cbv iota.
  change 21%nat with (S (S 19)).
  destruct (outage_cycle s2 w2 19) as (w3 & Hidle3 & ->). rewrite run_bind.
  set (s3 := apply_update (apply_update s2 research_failure) _).
  change (iterations s2 + 1 <? 3) with false. cbv iota.
  change 19%nat with (S 18). rewrite run_executor, run_bind.
  destruct (executorNode_unresolved s3 w3 eq_refl) as (w4 & -> & Htrace).
  cbn [fst snd ret]. split; [reflexivity|].
  assert (Hidle : idle_only w w3) by (etrans; [|etrans]; eassumption).
  destruct Hidle as (events & Hevents & Hidle).
  rewrite (new_events_app w w4 events); [done|]. by rewrite Htrace.
Qed.

End Outage.

(** The generation service cannot be reached. *)
Lemma outage_run_witness :
  (forall first, unusable (rt := Sample.runtime) Sample.offline true cleanJsonString
                   first 3) /\
  fst (invoke (rt := Sample.runtime) Sample.offline
         (initial_state "Did X happen?" "m1" "" []) Sample.boot) =
    Return (path_of 3, unresolved_state "Did X happen?" "m1" "" []).
Proof.
  assert (Hdown : forall first,
            unusable (rt := Sample.runtime) Sample.offline true cleanJsonString first 3)
    by (intros first k text _ Hk; discriminate Hk).
  split; [exact Hdown|].
  apply (outage_run (rt := Sample.runtime) Sample.offline Hdown).
Defined.

(** ** The request budget of a run *)

#[local] Instance generates_within_0_preorder : PreOrder (generates_within 0).
Proof.
  split.
  - intros w. exists []. by rewrite app_nil_r.
  - intros w1 w2 w3 (e1 & H1 & F1) (e2 & H2 & F2). exists (e1 ++ e2).
    split; [by rewrite H2, H1, app_assoc|]. rewrite count_app. lia.
Qed.

Lemma generates_within_trans (a b : nat) (w1 w2 w3 : World) :
  generates_within a w1 w2 -> generates_within b w2 w3 ->
  generates_within (a + b) w1 w3.
Proof.
  intros (e1 & H1 & F1) (e2 & H2 & F2). exists (e1 ++ e2).
  split; [by rewrite H2, H1, app_assoc|]. rewrite count_app. lia.
Qed.

Lemma generates_within_mono (a b : nat) (w w' : World) :
  (a <= b)%nat -> generates_within a w w' -> generates_within b w w'.
Proof. intros Hab (e & He & Hcount). exists e. split; [done|lia]. Qed.

Lemma within_bind {A B} (a b : nat) (m : M A) (k : A -> M B) :
  preserves (generates_within a) m ->
  (forall x, preserves (generates_within b) (k x)) ->
  preserves (generates_within (a + b)) (bind m k).
Proof.
  intros Hm Hk w. rewrite run_bind. specialize (Hm w).
  destruct (m w) as [[x|e] w1]; cbn [snd] in Hm.
  - eapply generates_within_trans; [exact Hm|apply Hk].
  - cbn [snd]. eapply generates_within_mono; [|done]. lia.
Qed.

Lemma within_try_catch {A} (a b : nat) (m : M A) (h : Error -> M A) :
  preserves (generates_within a) m ->
  (forall e, preserves (generates_within b) (h e)) ->
  preserves (generates_within (a + b)) (try_catch m h).
Proof.
  intros Hm Hh w. rewrite run_try_catch. specialize (Hm w).
  destruct (m w) as [[x|e] w1]; cbn [snd] in Hm.
  - cbn [snd]. eapply generates_within_mono; [|done]. lia.
  - eapply generates_within_trans; [exact Hm|apply Hh].
Qed.

(** Steps that add no generation request. *)
Ltac no_request :=
  solve [ intros; intros w; exists []; cbn; by rewrite app_nil_r
        | intros; intros w; eexists [_]; split; [reflexivity|cbn; lia]
        | intros [] He w; try discriminate He;
          eexists [_]; (split; [reflexivity|cbn; lia]) ].

Section Budget.

Context {rt : Runtime} (env : Env).

Lemma count_attempts_trace with_body prompt retries first n :
  count is_generate (attempts_trace env with_body prompt retries first n) = n.
Proof.
  unfold attempts_trace.
  transitivity (List.length (seq 0 n)); [|apply length_seq].
  induction (seq 0 n) as [|k ks IH]; [done|].
  cbn [flat_map List.length]. rewrite count_app, IH.
  unfold count. cbn [List.filter is_generate List.length].
  assert (Hpause : List.filter is_generate
                     (pause retries k (reply_of with_body (gemini env (first + k)))) = []).
  { unfold pause. destruct (reply_of _ _); [done| |done].
    by destruct (S k =? retries)%nat. }
  rewrite Hpause. done.
Qed.

Lemma within_generateContent prompt retries :
  preserves (generates_within retries) (generateContent env prompt retries).
Proof.
  intros w.
  change (generateContent env prompt retries w)
    with (attempts env true prompt retries (seq 0 retries) (slept 4000 w)).
  destruct (attempts_run env true prompt retries retries 0 (slept 4000 w) eq_refl)
    as (n & Hn & Htrace & _).
  eexists. split; [rewrite Htrace; cbn [slept set_trace trace]; by rewrite <- app_assoc|].
  change (?x ++ ?y) with (x ++ y).
  rewrite count_app.
  change (flat_map _ (seq 0 n)) with (attempts_trace env true prompt retries
                                         (calls (slept 4000 w) Gemini) n).
  rewrite count_attempts_trace. cbn. lia.
Qed.

Lemma no_request_log sp msg st : preserves (generates_within 0) (log env sp msg st).
Proof. apply frame_log; try apply _; no_request. Qed.

Lemma no_request_shouldContinue state :
  preserves (generates_within 0) (shouldContinue env state).
Proof. apply frame_shouldContinue; try apply _; no_request. Qed.

Lemma no_request_executorNode state :
  preserves (generates_within 0) (executorNode env state).
Proof. apply frame_executorNode; try apply _; no_request. Qed.

Lemma within_researcherNode state :
  preserves (generates_within 3) (researcherNode env state).
Proof.
  unfold researcherNode. cbv zeta.
  apply (within_bind 0 3); [apply no_request_log|intros _].
  apply (within_bind 0 3).
  { destruct (0 <? _)%nat; [apply no_request_log|apply preserves_ret, _]. }
  intros _. apply (within_try_catch 3 0).
  - apply (within_bind 3 0); [apply within_generateContent|intros text].
    frame ltac:(first [apply no_request_log | no_request]).
  - intros e. frame ltac:(first [apply no_request_log | no_request]).
Qed.

Lemma within_judgeNode state :
  preserves (generates_within 3) (judgeNode env state).
Proof.
  unfold judgeNode, read_decision, read_key_evidence. cbv zeta.
  apply (within_bind 0 3); [apply no_request_log|intros _].
  apply (within_bind 0 3).
  { frame ltac:(first [apply no_request_log | no_request]). }
  intros lines. apply (within_try_catch 3 0).
  - apply (within_bind 3 0); [apply within_generateContent|intros text].
    frame ltac:(first [apply no_request_log | no_request]).
  - intros e. frame ltac:(first [apply no_request_log | no_request]).
Qed.

Lemma run_budget (limit : nat) :
  forall node state,
    preserves (generates_within (request_budget node state)) (run env limit node state).
Proof.
  induction limit as [|limit IH]; intros node state w.
  { exists []. cbn. rewrite app_nil_r. split; [done|lia]. }
  destruct node.
  - rewrite run_researcher, run_bind.
    pose proof (within_researcherNode state w) as Hnode.
    destruct (researcherNode env state w) as [[u|e] w1] eqn:Hrun; cbn [snd] in Hnode.
    + destruct (researcherNode_ensures env state w u w1 Hrun)
        as (facts & confidences & _ & ->).
      rewrite run_bind.
      set (state' := apply_update state _).
      pose proof (IH judge state' w1) as Hrest.
      assert (Hfinal : snd (match run env limit judge state' w1 with
                            | (Return r, w2) => ret (researcher :: fst r, snd r) w2
                            | (Throw e, w2) => (Throw e, w2)
                            end) = snd (run env limit judge state' w1))
        by (by destruct (run env limit judge state' w1) as [[r|e] w2]).
      rewrite Hfinal.
      eapply generates_within_mono; [|eapply generates_within_trans; eassumption].
      cbn [request_budget].
      change (passes_left state') with (passes_left state). lia.
    + cbn [snd]. eapply generates_within_mono; [|exact Hnode].
      cbn [request_budget]. lia.
  - rewrite run_judge, run_bind.
    pose proof (within_judgeNode state w) as Hnode.
    destruct (judgeNode env state w) as [[u|e] w1] eqn:Hrun; cbn [snd] in Hnode.
    + destruct (judgeNode_ensures env state w u w1 Hrun) as (Hiter & _).
      rewrite run_bind.
      set (state' := apply_update state u).
      assert (Hiter' : iterations state' = iterations state + 1)
        by (subst state'; cbn; by rewrite Hiter).
      pose proof (no_request_shouldContinue state' w1) as Hrouter.
      destruct (shouldContinue_run env state' w1) as (w2 & Hnext).
      rewrite Hnext in Hrouter |- *. cbn [snd] in Hrouter.
      rewrite run_bind.
      set (next := if bool_decide (decision state' = Some "UNCERTAIN") &&
                      (iterations state' <? 3) then researcher else executor).
      pose proof (IH next state' w2) as Hrest.
      assert (Hfinal : snd (match run env limit next state' w2 with
                            | (Return r, w3) => ret (judge :: fst r, snd r) w3
                            | (Throw e, w3) => (Throw e, w3)
                            end) = snd (run env limit next state' w2))
        by (by destruct (run env limit next state' w2) as [[r|e] w3]).
      rewrite Hfinal.
      eapply generates_within_mono;
        [|eapply generates_within_trans;
            [exact Hnode|eapply generates_within_trans; eassumption]].
      subst next. unfold request_budget, passes_left. rewrite Hiter'.
      destruct (bool_decide (decision state' = Some "UNCERTAIN")); cbn [andb]; [|lia].
      destruct (Z.ltb_spec (iterations state + 1) 3); lia.
    + cbn [snd]. eapply generates_within_mono; [|exact Hnode].
      cbn [request_budget]. lia.
  - rewrite run_executor, run_bind.
    pose proof (no_request_executorNode state w) as Hnode.
    by destruct (executorNode env state w) as [[u|e] w1].
Qed.

(** X9.  A run that is about to enter a node makes at most the generation
    requests of the passes it may still go through, three for the
    Researcher and three for the Judge of each pass: a run started by the
    handlers makes at most 18 requests, whatever the service answers. *)
Theorem requests_of_a_run (limit : nat) (node : Node) (state : AgentState)
    (question marketId marketPda : string) (evidenceUrls : list string) (w : World) :
  (count is_generate (new_events w (snd (run env limit node state w))) <=
   request_budget node state)%nat /\
  (count is_generate
     (new_events w (snd (invoke env
                           (initial_state question marketId marketPda evidenceUrls) w))) <=
   18)%nat.
Proof.
  split.
  - destruct (run_budget limit node state w) as (events & Htrace & Hcount).
    by rewrite (new_events_app _ _ _ Htrace).
  - destruct (run_budget recursionLimit researcher
                (initial_state question marketId marketPda evidenceUrls) w)
      as (events & Htrace & Hcount).
    unfold invoke. by rewrite (new_events_app _ _ _ Htrace).
Qed.

End Budget.

(** ** Frames of the reconsideration workflow *)

Section Reconsidering.

Context {rt : Runtime} (env : Env) (R : World -> World -> Prop) `{!PreOrder R}.

Hypothesis R_call : forall s, preserves R (call s).
Hypothesis R_sleep : forall ms, preserves R (emit (Sleep ms)).
Hypothesis R_generate : forall prompt, preserves R (emit (HttpGenerate prompt)).
Hypothesis R_push : forall entry,
  preserves R (modify (fun w =>
    set_reconsiderationLogs (reconsiderationLogs w ++ [entry]) w)).

Ltac primitive :=
  first [ apply R_call | apply R_sleep | apply R_generate | apply R_push ].

Lemma frame_addLog sp msg st : preserves R (addLog env sp msg st).
Proof. unfold addLog, now. frame primitive. Qed.

Lemma frame_recon_generateContent prompt retries :
  preserves R (recon_generateContent env prompt retries).
Proof.
  unfold recon_generateContent, sleep.
  apply preserves_bind; [apply _|apply R_sleep|intros _].
  apply frame_attempts; try apply _; try primitive.
Qed.

Ltac workflow :=
  first [ apply frame_recon_generateContent | apply frame_addLog | primitive ].

Lemma frame_analyzeEvidenceNode state : preserves R (analyzeEvidenceNode env state).
Proof. unfold analyzeEvidenceNode. cbv zeta. frame workflow. Qed.

Lemma frame_reconsiderationJudgeNode state :
  preserves R (reconsiderationJudgeNode env state).
Proof.
  unfold reconsiderationJudgeNode, array_join, read_recommendation. cbv zeta.
  frame workflow.
Qed.

Lemma frame_recon_invoke state : preserves R (recon_invoke env state).
Proof.
  unfold recon_invoke. cbv zeta.
  frame ltac:(first [ apply frame_analyzeEvidenceNode
                    | apply frame_reconsiderationJudgeNode ]).
Qed.

End Reconsidering.

#[local] Instance advisory_preorder : PreOrder advisory.
Proof.
  split.
  - intros w. repeat split. reflexivity.
  - intros w1 w2 w3 (P1 & L1 & M1 & I1) (P2 & L2 & M2 & I2).
    repeat split; try congruence. by etrans.
Qed.

#[local] Instance appends_preorder : PreOrder appends.
Proof.
  split.
  - intros w. exists []. by rewrite app_nil_r.
  - intros w1 w2 w3 (e1 & H1) (e2 & H2). exists (e1 ++ e2).
    by rewrite H2, H1, app_assoc.
Qed.

Ltac advisory_step :=
  solve [ intros; intros w; repeat split; exists []; cbn; by rewrite app_nil_r
        | intros; intros w; repeat split; eexists [_];
          split; [reflexivity|by repeat constructor] ].

Ltac appends_step :=
  solve [ intros; intros w; exists []; cbn; by rewrite app_nil_r
        | intros; intros w; eexists [_]; reflexivity ].

Section Advice.

Context {rt : Runtime} (env : Env).

Lemma advisory_recon_invoke state : preserves advisory (recon_invoke env state).
Proof. apply frame_recon_invoke; try apply _; advisory_step. Qed.

Lemma appends_recon_invoke state : preserves appends (recon_invoke env state).
Proof. apply frame_recon_invoke; try apply _; appends_step. Qed.

Lemma advisory_processReconsideration request :
  preserves advisory (processReconsideration env request).
Proof.
  unfold processReconsideration, now. cbv zeta.
  frame ltac:(first [ apply advisory_recon_invoke
                    | apply frame_addLog; try apply _; advisory_step
                    | advisory_step ]).
Qed.

End Advice.

(** ** What a reconsideration does and does not do *)

Section Reconsideration.

Context {rt : Runtime} (env : Env).

Lemma within_recon_generateContent prompt retries :
  preserves (generates_within retries) (recon_generateContent env prompt retries).
Proof.
  intros w.
  change (recon_generateContent env prompt retries w)
    with (attempts env false prompt retries (seq 0 retries) (slept 2000 w)).
  destruct (attempts_run env false prompt retries retries 0 (slept 2000 w) eq_refl)
    as (n & Hn & Htrace & _).
  eexists. split; [rewrite Htrace; cbn [slept set_trace trace]; by rewrite <- app_assoc|].
  rewrite count_app.
  change (flat_map _ (seq 0 n)) with (attempts_trace env false prompt retries
                                         (calls (slept 2000 w) Gemini) n).
  rewrite count_attempts_trace. cbn. lia.
Qed.

Lemma no_request_addLog sp msg st : preserves (generates_within 0) (addLog env sp msg st).
Proof. apply frame_addLog; try apply _; no_request. Qed.

Lemma within_analyzeEvidenceNode state :
  preserves (generates_within 3) (analyzeEvidenceNode env state).
Proof.
  unfold analyzeEvidenceNode. cbv zeta.
  apply (within_bind 0 3); [apply no_request_addLog|intros _].
  apply (within_try_catch 3 0).
  - apply (within_bind 3 0); [apply within_recon_generateContent|intros text].
    frame ltac:(first [apply no_request_addLog | no_request]).
  - intros e. frame ltac:(first [apply no_request_addLog | no_request]).
Qed.

Lemma within_reconsiderationJudgeNode state :
  preserves (generates_within 3) (reconsiderationJudgeNode env state).
Proof.
  unfold reconsiderationJudgeNode, array_join, read_recommendation. cbv zeta.
  apply (within_bind 0 3); [apply no_request_addLog|intros _].
  apply (within_bind 0 3).
  { frame ltac:(first [apply no_request_addLog | no_request]). }
  intros analysis. apply (within_bind 0 3).
  { frame ltac:(first [apply no_request_addLog | no_request]). }
  intros summary. apply (within_try_catch 3 0).
  - apply (within_bind 3 0); [apply within_recon_generateContent|intros text].
    frame ltac:(first [apply no_request_addLog | no_request]).
  - intros e. frame ltac:(first [apply no_request_addLog | no_request]).
Qed.

Lemma within_processReconsideration request :
  preserves (generates_within 6) (processReconsideration env request).
Proof.
  unfold processReconsideration, recon_invoke, now. cbv zeta.
  apply (within_bind 0 6); [no_request|intros _].
  apply (within_bind 0 6); [apply no_request_addLog|intros _].
  apply (within_bind 6 0).
  - apply (within_bind 3 3); [apply within_analyzeEvidenceNode|intros analyzed].
    apply (within_bind 3 0); [apply within_reconsiderationJudgeNode|intros judged].
    apply preserves_ret, _.
  - intros result. frame no_request.
Qed.

(** X10.  A reconsideration only advises.  Whatever it recommends, it
    leaves the Anchor program, the global log and the tracked markets as
    they are, and it calls neither the store nor the ledger: all it adds to
    the trace are sleeps and at most 6 generation requests. *)
Theorem reconsideration_only_advises (request : ReconsiderationRequest.t) (w : World) :
  let w' := snd (processReconsideration env request w) in
  program w' = program w /\
  logHistory w' = logHistory w /\
  activeMarkets w' = activeMarkets w /\
  Forall (fun e => is_idle e = true) (new_events w w') /\
  (count is_generate (new_events w w') <= 6)%nat.
Proof.
  cbn zeta.
  destruct (advisory_processReconsideration env request w)
    as (Hprogram & Hlog & Hmarkets & events & Htrace & Hidle).
  destruct (within_processReconsideration request w) as (events' & Htrace' & Hcount).
  repeat split; try done.
  - by rewrite (new_events_app _ _ _ Htrace).
  - by rewrite (new_events_app _ _ _ Htrace').
Qed.

(** X11.  The reconsideration log is per request.  A request starts from
    an empty log, so that its outcome does not depend on the entries of
    earlier requests; the first entry says that the request was received;
    and the log returned with the result is the log the module holds
    afterwards. *)
Theorem reconsideration_log_is_per_request (request : ReconsiderationRequest.t)
    (earlier : list LogEntry) (w : World) :
  let r := processReconsideration env request w in
  processReconsideration env request (set_reconsiderationLogs earlier w) = r /\
  (exists rest, reconsiderationLogs (snd r) = received env request w :: rest) /\
  forall result, fst r = Return result ->
                 ReconsiderationResult.logs result = reconsiderationLogs (snd r).
Proof.
  cbn zeta. split; [reflexivity|].
  unfold processReconsideration.
  rewrite run_bind. cbn [modify]. rewrite run_bind.
  change (addLog env System _ Neutral (set_reconsiderationLogs [] w))
    with (Return tt,
          set_reconsiderationLogs [received env request w]
            (set_calls (fun s' => if decide (s' = Clock) then S (calls w Clock)
                                  else calls w s') w)).
  cbv beta iota zeta.
  set (w1 := set_reconsiderationLogs _ _).
  rewrite run_bind.
  pose proof (appends_recon_invoke env
                {| ReconsiderationState.request := request;
                   ReconsiderationState.newEvidence := "";
                   ReconsiderationState.factAnalysis := JArr [];
                   ReconsiderationState.confidenceLevel := JNum 50;
                   ReconsiderationState.recommendation := "UPHOLD";
                   ReconsiderationState.reasoning := JStr "";
                   ReconsiderationState.logs := [] |} w1) as (rest & Hrest).
  destruct (recon_invoke env _ w1) as [[state|e] w2]; cbn [snd] in Hrest.
  - cbn. split; [by exists rest|]. by intros result [= <-].
  - cbn. split; [by exists rest|]. done.
Qed.

End Reconsideration.

Section ReconsiderationOutage.

Context {rt : Runtime} (env : Env).

Hypothesis outage : forall first, unusable env false recon_cleanJsonString first 3.

Lemma returns_addLog sp msg st : returns (addLog env sp msg st).
Proof. intros w. by eexists _, _. Qed.

Lemma recon_generateContent_unusable (prompt : Prompt) (w : World) :
  match fst (recon_generateContent env prompt 3 w) with
  | Return (Some (JStr s)) => JSON_parse (recon_cleanJsonString s) = None
  | _ => True
  end.
Proof.
  change (recon_generateContent env prompt 3 w)
    with (attempts env false prompt 3 (seq 0 3) (slept 2000 w)).
  destruct (attempts_run env false prompt 3 3 0 (slept 2000 w) eq_refl)
    as (n & Hn & _ & _ & Hresult).
  destruct (fst (attempts env false prompt 3 (seq 0 3) (slept 2000 w))) as [text|e];
    [|done].
  destruct Hresult as (k & -> & Hk). apply (outage (calls (slept 2000 w) Gemini) k text); [lia|exact Hk].
Qed.

(** The [try] block of a node throws when nothing usable is answered. *)
Lemma unusable_text_throws {A} (prompt : Prompt) (rest : json -> M A) (w : World) :
  exists e w',
    (response <- recon_generateContent env prompt 3 ;;
     text <- as_string response "text.replace" ;;
     parsed <- parse (recon_cleanJsonString text) ;;
     rest parsed) w = (Throw e, w').
Proof.
  rewrite run_bind. pose proof (recon_generateContent_unusable prompt w) as Htext.
  destruct (recon_generateContent env prompt 3 w) as [[text|e] w1]; cbn [fst] in Htext;
    [|by eexists _, _].
  rewrite run_bind. unfold lift at 1.
  destruct text as [[| | |s| |]|]; cbn [as_string]; try by eexists _, _.
  rewrite run_bind. unfold lift at 1, parse. rewrite Htext. by eexists _, _.
Qed.

Ltac enter_catch w1 :=
  rewrite run_try_catch;
  match goal with
  | |- context [match ?body w1 with _ => _ end] =>
      let e := fresh "e" in
      let w2 := fresh "w" in
      let Hthrows := fresh "Hthrows" in
      assert (Hthrows : exists e w2, body w1 = (Throw e, w2))
        by apply unusable_text_throws;
      destruct Hthrows as (e & w2 & Hthrows); rewrite Hthrows
  end.

Lemma analyzeEvidenceNode_unusable (state : ReconsiderationState.t) (w : World) :
  exists w', analyzeEvidenceNode env state w = (Return analysis_failure, w').
Proof.
  unfold analyzeEvidenceNode. cbv zeta. rewrite run_bind.
  destruct (returns_addLog Researcher "🔍 Analyzing new evidence for reconsideration..."
              Neutral w) as ([] & w1 & ->).
  enter_catch w1. rewrite run_bind.
  destruct (returns_addLog System ("Evidence analysis error: " +:+ error_message e)
              Negative w0) as ([] & w3 & ->).
  by eexists.
Qed.

Lemma reconsiderationJudgeNode_unusable (state : ReconsiderationState.t) (w : World) :
  ReconsiderationState.factAnalysis state = JArr [JStr "Unable to analyze evidence"] ->
  ReconsiderationState.reasoning state = JStr "Analysis failed" ->
  exists w', reconsiderationJudgeNode env state w = (Return verdict_failure, w').
Proof.
  intros Hfacts Hreasoning. unfold reconsiderationJudgeNode. cbv zeta.
  rewrite Hfacts, Hreasoning. rewrite run_bind.
  destruct (returns_addLog Judge "⚖️ Evaluating reconsideration request..." Neutral w)
    as ([] & w1 & ->).
  rewrite run_bind.
  change (array_join (JArr [JStr "Unable to analyze evidence"]) (bytes [10]%nat +:+ "- ") w1)
    with (Return "Unable to analyze evidence", w1).
  cbv beta iota. rewrite run_bind.
  change (lift (interpolate (Some (JStr "Analysis failed"))) w1)
    with (Return "Analysis failed", w1).
  cbv beta iota.
  enter_catch w1. rewrite run_bind.
  destruct (returns_addLog Judge
              ("Judgment error: " +:+ error_message e +:+ ". Defaulting to UPHOLD.")
              Negative w0) as ([] & w3 & ->).
  by eexists.
Qed.

(** X12.  When no answer of the generation service is usable, a
    reconsideration upholds the original outcome: it returns the
    recommendation UPHOLD, the outcome UNCHANGED, a confidence change of 0
    and no annotation, for the market and the original outcome of the
    request. *)
Theorem reconsideration_outage (request : ReconsiderationRequest.t) (w : World) :
  exists result,
    fst (processReconsideration env request w) = Return result /\
    ReconsiderationResult.recommendation result = "UPHOLD" /\
    ReconsiderationResult.newOutcome result = "UNCHANGED" /\
    ReconsiderationResult.confidenceChange result = Some 0 /\
    ReconsiderationResult.annotationNote result = None /\
    ReconsiderationResult.analysis result = JStr "Error in judgment process" /\
    ReconsiderationResult.marketId result = ReconsiderationRequest.marketId request /\
    ReconsiderationResult.originalOutcome result =
      ReconsiderationRequest.originalOutcome request.
Proof.
  unfold processReconsideration. rewrite run_bind. cbn [modify]. rewrite run_bind.
  destruct (returns_addLog System
              ("📋 Reconsideration request received for market " +:+
               ReconsiderationRequest.marketId request) Neutral
              (set_reconsiderationLogs [] w)) as ([] & w1 & ->).
  cbv zeta. rewrite run_bind. unfold recon_invoke. rewrite run_bind.
  destruct (analyzeEvidenceNode_unusable
              {| ReconsiderationState.request := request;
                 ReconsiderationState.newEvidence := "";
                 ReconsiderationState.factAnalysis := JArr [];
                 ReconsiderationState.confidenceLevel := JNum 50;
                 ReconsiderationState.recommendation := "UPHOLD";
                 ReconsiderationState.reasoning := JStr "";
                 ReconsiderationState.logs := [] |} w1) as (w2 & ->).
  cbv zeta. rewrite run_bind.
  match goal with
  | |- context [reconsiderationJudgeNode env ?state w2] =>
      destruct (reconsiderationJudgeNode_unusable state w2 eq_refl eq_refl) as (w3 & ->)
  end.
  cbn. eexists. split; [reflexivity|]. cbn. repeat split.
Qed.

End ReconsiderationOutage.

(** The generation service cannot be reached. *)
Lemma reconsideration_outage_witness :
  (forall first, unusable (rt := Sample.runtime) Sample.offline false
                   recon_cleanJsonString first 3) /\
  exists result,
    fst (processReconsideration (rt := Sample.runtime) Sample.offline Sample.request
           Sample.boot) = Return result /\
    ReconsiderationResult.recommendation result = "UPHOLD".
Proof.
  assert (Hdown : forall first,
            unusable (rt := Sample.runtime) Sample.offline false recon_cleanJsonString
              first 3)
    by (intros first k text _ Hk; discriminate Hk).
  split; [exact Hdown|].
  destruct (reconsideration_outage (rt := Sample.runtime) Sample.offline Hdown
              Sample.request Sample.boot) as (result & Hrun & Hrecommendation & _).
  exists result. split; [exact Hrun|exact Hrecommendation].
Defined.

(** ** The logs of one market *)

Section MarketLogs.

Context {rt : Runtime} (env : Env).

Lemma serve_no_market_logs request w :
  no_market_logs w -> no_market_logs (serve env request w).
Proof.
  unfold no_market_logs. intros Hw.
  assert (Hinsert : forall id0 m0 w',
            tm_logs m0 = default [] (tm_logs <$> activeMarkets w !! id0) ->
            activeMarkets w' = <[id0 := m0]> (activeMarkets w) ->
            forall id m, activeMarkets w' !! id = Some m -> tm_logs m = []).
  { intros id0 m0 w' Hlogs -> id m Hid.
    destruct (decide (id0 = id)) as [<-|Hne].
    - rewrite lookup_insert_eq in Hid. injection Hid as <-. rewrite Hlogs.
      destruct (activeMarkets w !! id0) as [m1|] eqn:Hm1; [|done]. by eapply Hw.
    - rewrite lookup_insert_ne in Hid by done. by eapply Hw. }
  destruct request as [body|marketId tweetUrl|marketId cid d s f]; cbn [serve].
  - destruct (post_resolve_entry env body w) as [->|(m & _ & Hlogs & Hmarkets)]; [done|].
    by eapply Hinsert.
  - destruct (String.eqb marketId "") eqn:Hvalid.
    + unfold post_market_created. by rewrite Hvalid.
    + destruct (post_market_created_run env marketId tweetUrl w Hvalid)
        as (m & _ & Hlogs & _ & Hmarkets).
      eapply Hinsert; [|exact Hmarkets]. rewrite Hlogs.
      destruct (activeMarkets w !! marketId) as [m1|] eqn:Hm1; [|done].
      cbn. symmetry. by eapply Hw.
  - destruct (String.eqb marketId "" || String.eqb cid "") eqn:Hvalid.
    + unfold post_evidence. by rewrite Hvalid.
    + destruct (post_evidence_run env marketId cid d s f w Hvalid)
        as (w' & Hrun & m & _ & _ & Hlogs & Hmarkets).
      rewrite Hrun. cbn [snd]. by eapply Hinsert.
Qed.

Lemma serve_all_no_market_logs requests :
  forall w, no_market_logs w -> no_market_logs (serve_all env requests w).
Proof.
  induction requests as [|r rest IH]; intros w Hw; cbn [serve_all]; [done|].
  by apply IH, serve_no_market_logs.
Qed.

(** X13.  No handler writes log entries into a tracked market, so the
    per-market branch of [GET /logs/:marketId] is never taken: after any
    sequence of requests the handler answers with the entries of the global
    log that mention the market, or with the whole global log when none
    does. *)
Theorem market_logs_come_from_the_global_log (requests : list Request)
    (marketId : string) (w : World) :
  no_market_logs w ->
  let w' := serve_all env requests w in
  no_market_logs w' /\
  fst (get_market_logs marketId w') =
    Return (if (0 <? List.length (mentions marketId w'))%nat then mentions marketId w'
            else logHistory w').
Proof.
  intros Hw. cbn zeta.
  pose proof (serve_all_no_market_logs requests w Hw) as Hw'.
  split; [exact Hw'|].
  unfold get_market_logs. rewrite run_bind. cbn [gets].
  destruct (activeMarkets (serve_all env requests w) !! marketId) as [m|] eqn:Hm.
  - by rewrite (Hw' marketId m Hm).
  - done.
Qed.

End MarketLogs.

(** A freshly started agent tracks no market. *)
Lemma market_logs_witness :
  let requests := [PostMarketCreated "m1" "https://x.com/status/1";
                   PostEvidence "m1" "bafkreie1" "Scan of a later report" "alice" ""] in
  no_market_logs Sample.boot /\
  List.length <$> returned
    (fst (get_market_logs "m1"
            (serve_all (rt := Sample.runtime) Sample.offline requests Sample.boot))) =
  Some 2%nat.
Proof.
  cbn zeta. split; [by intros id m Hid|].
  rewrite (proj2 (market_logs_come_from_the_global_log (rt := Sample.runtime)
                    Sample.offline _ "m1" Sample.boot
                    (fun id m Hid => ltac:(done)))).
  vm_compute. reflexivity.
Defined.

(** ** Platform statistics *)

Section Counting.

Context {rt : Runtime} (env : Env) (random_below_5 : nat -> Z).

(** X14.  The statistics never count a resolved market: after any sequence
    of requests to an agent whose tracked markets are open or being
    researched, [GET /stats] reports 0 resolved markets and as many open
    markets as there are tracked markets; and it reports at least one
    active user when the random draws are in their range. *)
Theorem stats_never_count_a_resolution (requests : list Request) (w : World) :
  open_or_researching w ->
  (forall k, 0 <= random_below_5 k < 5) ->
  let w' := serve_all env requests w in
  exists stats,
    fst (get_stats env random_below_5 w') = Return stats /\
    marketsCreated stats = size (activeMarkets w') /\
    marketsResolved stats = 0%nat /\
    marketsOpen stats = Z.of_nat (size (activeMarkets w')) /\
    1 <= activeUsers stats.
Proof.
  intros Hw Hrandom. cbn zeta.
  pose proof (serve_all_open_or_researching env requests w Hw) as Hw'.
  set (w' := serve_all env requests w) in *.
  unfold get_stats. rewrite run_bind. cbn [gets]. cbv zeta.
  set (markets := snd <$> map_to_list (activeMarkets w')).
  assert (Hcreated : List.length markets = size (activeMarkets w')).
  { subst markets. by rewrite length_fmap, length_map_to_list. }
  assert (Hresolved :
    List.filter (fun m => is_resolved (tm_status m)) markets = []).
  { assert (Hall : Forall (fun m => is_resolved (tm_status m) = false) markets).
    { subst markets. apply Forall_fmap, list.Forall_forall. intros [id m] Hin. cbn.
      apply elem_of_map_to_list in Hin.
      destruct (Hw' id m Hin) as [Hs|Hs]; by rewrite Hs. }
    clear Hcreated. induction Hall as [|m rest Hm _ IH]; [done|].
    cbn [List.filter]. rewrite Hm. exact IH. }
  rewrite Hresolved, Hcreated. cbn [List.length].
  set (submitters := foldl _ ∅ markets).
  clearbody submitters markets.
  destruct (size submitters =? 0)%nat eqn:Hsize; unfold bind, call, ret, now; cbn;
    (eexists; split; [reflexivity|]); cbn; repeat split; try lia.
  - specialize (Hrandom (calls w' Random)). lia.
  - apply Nat.eqb_neq in Hsize. lia.
Qed.

End Counting.

(** A freshly started agent is told of a market and given evidence for it. *)
Lemma stats_witness :
  let requests := [PostMarketCreated "m1" "https://x.com/status/1";
                   PostEvidence "m1" "bafkreie1" "Scan of a later report" "alice" ""] in
  open_or_researching Sample.boot /\
  (forall k : nat, 0 <= 2 < 5) /\
  (marketsResolved <$>
     returned (fst (get_stats Sample.offline (fun _ => 2)
                      (serve_all (rt := Sample.runtime) Sample.offline requests
                         Sample.boot)))) = Some 0%nat.
Proof.
  cbn zeta. split; [by intros id m Hid|]. split; [lia|].
  destruct (stats_never_count_a_resolution (rt := Sample.runtime) Sample.offline
              (fun _ => 2)
              [PostMarketCreated "m1" "https://x.com/status/1";
               PostEvidence "m1" "bafkreie1" "Scan of a later report" "alice" ""]
              Sample.boot (fun id m Hid => ltac:(done)) (fun _ => ltac:(lia)))
    as (stats & -> & _ & Hresolved & _).
  cbn. by rewrite Hresolved.
Defined.

(** ** What a run keeps and what the Judge decides *)

Lemma upper_ascii_idempotent (c : ascii) : upper_ascii (upper_ascii c) = upper_ascii c.
Proof. by destruct c as [[] [] [] [] [] [] [] []]. Qed.

Lemma toUpperCase_idempotent (s : string) : toUpperCase (toUpperCase s) = toUpperCase s.
Proof.
  induction s as [|c s IH]; [done|]. cbn [toUpperCase].
  by rewrite upper_ascii_idempotent, IH.
Qed.

Section Kept.

Context {rt : Runtime} (env : Env).




(** The decision read from a parsed judgment is not empty and is in upper
    case. *)
Lemma read_decision_normal (judgment : json) :
  ensures (fun d => d <> "" /\ toUpperCase d = d) (read_decision judgment).
Proof.
  intros w d w'. unfold read_decision, bind, lift, ret.
  destruct (prop judgment "decision") as [r|e]; [|done].
  destruct r as [[| | |s| |]|]; cbn; try done; try (intros [= <- _]; by split).
  destruct (String.eqb_spec (toUpperCase s) "") as [Hempty|Hfull];
    intros [= <- _]; [by split|].
  split; [done|]. apply toUpperCase_idempotent.
Qed.

(** X16.  Whatever the generation service answers, a decision the Judge
    returns is never empty and is left unchanged by [toUpperCase]: it holds
    no lower-case ASCII letter. *)
Theorem judge_decision_is_normalised (state : AgentState) (update : AgentUpdate)
    (w w' : World) :
  judgeNode env state w = (Return update, w') ->
  exists d, u_decision update = Some d /\ d <> "" /\ toUpperCase d = d.
Proof.
  revert w update w'.
  change (ensures (fun u => exists d, u_decision u = Some d /\ d <> "" /\
                                      toUpperCase d = d) (judgeNode env state)).
  unfold judgeNode.
  do 2 (eapply ensures_bind; [apply ensures_any|]; intros ? _).
  apply ensures_try_catch.
  - do 3 (eapply ensures_bind; [apply ensures_any|]; intros ? _).
    eapply ensures_bind; [apply read_decision_normal|]. intros d Hd.
    do 8 (eapply ensures_bind; [apply ensures_any|]; intros ? _).
    apply ensures_ret. by exists d.
  - intros e. eapply ensures_bind; [apply ensures_any|]. intros _ _.
    apply ensures_ret. by exists "UNCERTAIN".
Qed.

End Kept.


(** The Judge is answered [maybe]. *)
Lemma judge_decision_is_normalised_witness :
  let env := Sample.with_gemini (Sample.scripted [Sample.answer Sample.judge_maybe])
               Sample.offline in
  let r := judgeNode (rt := Sample.runtime) env Sample.question_asked Sample.boot in
  let update := {| u_facts := None; u_factConfidences := None;
                   u_decision := Some "MAYBE";
                   u_reasoning := Some (JStr "Sources disagree.");
                   u_iterations := Some 1;
                   u_ipfsTranscriptCid := None; u_transactionSignature := None |} in
  r = (Return update, snd r) /\
  exists d, u_decision update = Some d /\ d <> "" /\ toUpperCase d = d.
Proof.
  cbn zeta.
  set (env := Sample.with_gemini _ _).
  set (update := Build_AgentUpdate _ _ _ _ _ _ _).
  assert (Hrun :
    judgeNode (rt := Sample.runtime) env Sample.question_asked Sample.boot =
    (Return update,
     snd (judgeNode (rt := Sample.runtime) env Sample.question_asked Sample.boot)))
    by (vm_compute; reflexivity).
  split; [exact Hrun|].
  exact (judge_decision_is_normalised (rt := Sample.runtime) env Sample.question_asked
           update Sample.boot
           (snd (judgeNode (rt := Sample.runtime) env Sample.question_asked Sample.boot))
           Hrun).
Defined.

(** ** Cleaning the text of a reply *)

Section Strings.

Lemma append_assoc (s1 s2 s3 : string) : (s1 +:+ s2) +:+ s3 = s1 +:+ s2 +:+ s3.
Proof.
  induction s1 as [|c s1 IH]; [done|].
  change (String c ((s1 +:+ s2) +:+ s3) = String c (s1 +:+ s2 +:+ s3)). by rewrite IH.
Qed.

Lemma rev_app_append (s acc : string) : String.rev_app s acc = String.rev s +:+ acc.
Proof.
  unfold String.rev. revert acc. induction s as [|c s IH]; intros acc; [done|].
  cbn [String.rev_app]. rewrite IH, (IH (String c "")), append_assoc. done.
Qed.

Lemma rev_cons (c : ascii) (s : string) :
  String.rev (String c s) = String.rev s +:+ String c "".
Proof. unfold String.rev at 1. cbn [String.rev_app]. apply rev_app_append. Qed.

Lemma rev_snoc (c : ascii) (s : string) :
  String.rev (s +:+ String c "") = String c (String.rev s).
Proof.
  induction s as [|a s IH]; [done|].
  change (String a s +:+ String c "") with (String a (s +:+ String c "")).
  by rewrite !rev_cons, IH.
Qed.

Lemma rev_involutive (s : string) : String.rev (String.rev s) = s.
Proof.
  induction s as [|c s IH]; [done|]. by rewrite rev_cons, rev_snoc, IH.
Qed.

Lemma substring_full (s : string) : String.substring 0 (String.length s) s = s.
Proof. induction s as [|c s IH]; [done|]. cbn. by rewrite IH. Qed.

Lemma lastIndexOf_snoc (c : ascii) (s : string) :
  lastIndexOf c (s +:+ String c "") = Some (String.length s).
Proof.
  induction s as [|a s IH].
  - change ("" +:+ String c "") with (String c "").
    cbn [lastIndexOf String.length]. by rewrite Ascii.eqb_refl.
  - change (String a s +:+ String c "") with (String a (s +:+ String c "")).
    cbn [lastIndexOf String.length]. by rewrite IH.
Qed.

Lemma indexOf_append (c : ascii) (s1 s2 : string) :
  indexOf c s1 = None -> indexOf c s2 = None -> indexOf c (s1 +:+ s2) = None.
Proof.
  intros H1 H2. induction s1 as [|a s1 IH]; [done|].
  change (String a s1 +:+ s2) with (String a (s1 +:+ s2)).
  cbn [indexOf] in H1 |- *. destruct (Ascii.eqb c a); [done|].
  destruct (indexOf c s1); [done|]. by rewrite IH.
Qed.

(** A pattern is not found where its first character does not occur. *)
Lemma remove_all_absent (c : ascii) (p s1 s2 : string) :
  indexOf c s1 = None ->
  remove_all (String c p) 0 (s1 +:+ s2) = s1 +:+ remove_all (String c p) 0 s2.
Proof.
  intros Habsent. induction s1 as [|a s1 IH]; [done|].
  change (String a s1 +:+ s2) with (String a (s1 +:+ s2)).
  cbn [indexOf] in Habsent. destruct (Ascii.eqb_spec c a) as [|Hne]; [done|].
  destruct (indexOf c s1); [done|].
  cbn [remove_all String.prefix]. destruct (ascii_dec c a) as [|_]; [done|].
  rewrite IH by done. done.
Qed.

Lemma remove_all_skip (pat s1 s2 : string) :
  remove_all pat (String.length s1) (s1 +:+ s2) = remove_all pat 0 s2.
Proof.
  induction s1 as [|a s1 IH]; [done|].
  change (String a s1 +:+ s2) with (String a (s1 +:+ s2)).
  cbn [String.length remove_all]. exact IH.
Qed.

Lemma remove_all_prefix (c : ascii) (p s : string) :
  remove_all (String c p) 0 (String c p +:+ s) = remove_all (String c p) 0 s.
Proof.
  pose proof (prefix_app (String c p) s) as Hprefix.
  change (String c p +:+ s) with (String c (p +:+ s)) in *.
  cbn [remove_all]. rewrite Hprefix. cbn [String.length].
  rewrite Nat.sub_1_r. cbn [Nat.pred]. apply remove_all_skip.
Qed.

Lemma remove_all_clean (c : ascii) (p s : string) :
  indexOf c s = None -> remove_all (String c p) 0 s = s.
Proof.
  intros Habsent. rewrite <- (append_empty_r s) at 1.
  rewrite remove_all_absent by done. apply append_empty_r.
Qed.

Lemma indexOf_delimited (c a z : ascii) (inner : string) :
  Ascii.eqb c a = false -> Ascii.eqb c z = false -> indexOf c inner = None ->
  indexOf c (delimited a z inner) = None.
Proof.
  intros Ha Hz Hinner. unfold delimited. cbn [indexOf]. rewrite Ha.
  rewrite indexOf_append; [done|done|]. cbn [indexOf]. by rewrite Hz.
Qed.

(** [trim] leaves a text alone that starts and ends with characters that
    are not white space, and strips one line feed before and after it. *)
Lemma trim_delimited (a z : ascii) (inner : string) :
  (forall t, leading white_space (String a t) = None) ->
  (forall t, leading (String.rev <$> white_space) (String z t) = None) ->
  trim (delimited a z inner) = delimited a z inner /\
  trim (newline +:+ delimited a z inner +:+ newline) = delimited a z inner.
Proof.
  intros Ha Hz.
  assert (Hrev : String.rev (delimited a z inner) = String z (String.rev (String a inner))).
  { unfold delimited.
    change (String a (inner +:+ String z "")) with (String a inner +:+ String z "").
    apply rev_snoc. }
  assert (Hend :
    trimStart_with (String.rev <$> white_space) 0 (String.rev (delimited a z inner)) =
    String.rev (delimited a z inner)).
  { rewrite Hrev. cbn [trimStart_with]. by rewrite Hz. }
  unfold trim. split.
  - cbv zeta. unfold delimited at 1. cbn [trimStart_with]. rewrite Ha.
    fold (delimited a z inner). rewrite Hend. apply rev_involutive.
  - cbv zeta.
    change (newline +:+ delimited a z inner +:+ newline)
      with (String "010" (String a ((inner +:+ String z "") +:+ newline))).
    cbn [trimStart_with].
    change (leading white_space (String "010" (String a ((inner +:+ String z "") +:+ newline))))
      with (Some 1%nat).
    cbn [Nat.sub trimStart_with]. rewrite Ha.
    change (String a ((inner +:+ String z "") +:+ newline))
      with (delimited a z inner +:+ String "010" "").
    rewrite rev_snoc, Hrev. cbn [trimStart_with].
    change (leading (String.rev <$> white_space)
              (String "010" (String z (String.rev (String a inner)))))
      with (Some 1%nat).
    cbn [Nat.sub trimStart_with]. rewrite Hz.
    rewrite <- Hrev. apply rev_involutive.
Qed.

Lemma fenced_delimited (a z : ascii) (inner : string) :
  (forall t, leading white_space (String a t) = None) ->
  (forall t, leading (String.rev <$> white_space) (String z t) = None) ->
  Ascii.eqb "`" a = false -> Ascii.eqb "`" z = false ->
  indexOf "`" inner = None ->
  fenced (delimited a z inner) = delimited a z inner /\
  fenced (in_fence (delimited a z inner)) = delimited a z inner.
Proof.
  intros Ha Hz Hta Htz Hinner.
  pose proof (indexOf_delimited "`" a z inner Hta Htz Hinner) as Hclean.
  destruct (trim_delimited a z inner Ha Hz) as [Hbare Hlines].
  unfold fenced. split.
  - rewrite (remove_all_clean "`" "``json" _ Hclean), (remove_all_clean "`" "``" _ Hclean).
    exact Hbare.
  - unfold in_fence. rewrite remove_all_prefix.
    assert (Hlinesclean : indexOf "`" (newline +:+ delimited a z inner +:+ newline) = None).
    { apply (indexOf_append _ newline); [done|]. by apply indexOf_append. }
    rewrite remove_all_absent by done.
    change (remove_all "```json" 0 "```") with "```".
    rewrite remove_all_absent by done.
    change (remove_all "```" 0 "```") with "".
    by rewrite append_empty_r.
Qed.

End Strings.

(** X17.  Both copies of [cleanJsonString] return a JSON object unchanged
    when it comes bare, and extract it when it comes in a Markdown fence on
    lines of its own, provided it holds no backtick; the copy of graph.ts
    does the same for an array. *)
Theorem cleanJsonString_extracts (inner : string) :
  indexOf "`" inner = None ->
  let object := delimited "{" "}" inner in
  let array := delimited "[" "]" inner in
  cleanJsonString object = object /\
  cleanJsonString (in_fence object) = object /\
  recon_cleanJsonString object = object /\
  recon_cleanJsonString (in_fence object) = object /\
  cleanJsonString array = array /\
  cleanJsonString (in_fence array) = array.
Proof.
  intros Hinner. cbn zeta.
  destruct (fenced_delimited "{" "}" inner) as [Hobject Hfence];
    [by intros t|by intros t|done|done|done|].
  destruct (fenced_delimited "[" "]" inner) as [Harray Hfence'];
    [by intros t|by intros t|done|done|done|].
  assert (Hsub : forall a z,
    JS.substring 0 (S (String.length inner) + 1) (delimited a z inner) = delimited a z inner).
  { intros a z. unfold JS.substring. cbn [Nat.min Nat.max Nat.add Nat.sub].
    rewrite <- (substring_full (delimited a z inner)) at 2. unfold delimited.
    cbn [String.length]. rewrite length_append. cbn [String.length]. done. }
  assert (Hfirst : forall a z, indexOf a (delimited a z inner) = Some 0%nat).
  { intros a z. unfold delimited. cbn [indexOf]. by rewrite Ascii.eqb_refl. }
  assert (Hlast : forall a z,
    lastIndexOf z (delimited a z inner) = Some (S (String.length inner))).
  { intros a z. unfold delimited. cbn [lastIndexOf]. by rewrite lastIndexOf_snoc. }
  assert (Hobj : forall text, fenced text = delimited "{" "}" inner ->
            cleanJsonString text = delimited "{" "}" inner /\
            recon_cleanJsonString text = delimited "{" "}" inner).
  { intros text Htext. unfold cleanJsonString, recon_cleanJsonString. rewrite Htext.
    cbv zeta. rewrite (Hfirst "{"%char "}"%char), (Hlast "{"%char "}"%char).
    split; [|apply Hsub].
    destruct (indexOf "[" (delimited "{" "}" inner)) as [fb|];
      destruct (lastIndexOf "]" (delimited "{" "}" inner)) as [lb|]; apply Hsub. }
  assert (Harr : forall text, fenced text = delimited "[" "]" inner ->
            cleanJsonString text = delimited "[" "]" inner).
  { intros text Htext. unfold cleanJsonString. rewrite Htext.
    cbv zeta. rewrite (Hfirst "["%char "]"%char), (Hlast "["%char "]"%char).
    unfold delimited at 1 2. cbn [indexOf Ascii.eqb Bool.eqb].
    fold (delimited "[" "]" inner).
    destruct (indexOf "{" (inner +:+ "]")) as [fc|]; cbn [fmap option_fmap option_map];
      [|apply Hsub].
    destruct (lastIndexOf "}" (delimited "[" "]" inner)) as [lc|]; apply Hsub. }
  destruct (Hobj _ Hobject) as [? ?], (Hobj _ Hfence) as [? ?].
  repeat split; try done; by apply Harr.
Qed.

(** A verdict of the Judge. *)
Lemma cleanJsonString_extracts_witness :
  let inner := dq +:+ "decision" +:+ dq +:+ ":" +:+ dq +:+ "YES" +:+ dq in
  indexOf "`" inner = None /\
  cleanJsonString (in_fence (delimited "{" "}" inner)) = delimited "{" "}" inner.
Proof.
  cbn zeta. split; [reflexivity|].
  apply (cleanJsonString_extracts (dq +:+ "decision" +:+ dq +:+ ":" +:+ dq +:+ "YES" +:+ dq)).
  reflexivity.
Defined.

(** ** What the Executor reports *)

Section Reported.

Context {rt : Runtime} (env : Env).

Lemma executorNode_commits (state : AgentState) (w : World) :
  exists update w',
    executorNode env state w = (Return update, w') /\
    match terminal_outcome state with
    | None => update = no_update
    | Some outcome =>
        if resolve_succeeds env w then
          exists cid tx pins rewards,
            update = {| u_facts := None; u_factConfidences := None; u_decision := None;
                        u_reasoning := None; u_iterations := None;
                        u_ipfsTranscriptCid := Some cid;
                        u_transactionSignature := Some tx |} /\
            trace w' = trace w ++ pins ++
              ResolveMarket (resolved_address state) outcome (cidToBytes32 cid) :: rewards
        else update = no_update
    end.
Proof.
  unfold executorNode, terminal_outcome.
  step silent (returns_log env _ _ _) (silent_log env _ _ _).
  destruct (bool_decide (decision state = Some "YES") ||
            bool_decide (decision state = Some "NO")) eqn:Hterminal.
  - assert (Houtcome :
      (if bool_decide (decision state = Some "YES") then Some 1
       else if bool_decide (decision state = Some "NO") then Some 0 else None) =
      Some (if String.eqb (default "" (decision state)) "YES" then 1 else 0)).
    { destruct (bool_decide_reflect (decision state = Some "YES")) as [->|_]; [done|].
      destruct (bool_decide_reflect (decision state = Some "NO")) as [->|_]; done. }
    rewrite Houtcome. clear Houtcome Hterminal. apply silent_pins_only in Hstep.
    step pins_only (returns_gets _) (preserves_gets pins_only _).
    step pins_only (returns_recent_logs env _) (pins_only_recent_logs env _).
    step pins_only (returns_mapi _ _ (fun url _ => returns_submitted_evidence env url) _)
      (preserves_mapi pins_only _ _ (pins_only_evidence env) _).
    step pins_only (returns_now env) (pins_only_now env).
    step pins_only (returns_log env _ _ _) (pins_only_log env _ _ _).
    step pins_only (returns_pinTranscript env _) (pins_only_pinTranscript env _).
    step pins_only (returns_log env _ _ _) (pins_only_log env _ _ _).
    step pins_only (returns_now env) (pins_only_now env).
    step pins_only (returns_pinNFTMetadata env _) (pins_only_pinNFTMetadata env _).
    step pins_only (returns_log env _ _ _) (pins_only_log env _ _ _).
    assert (Hprefix : pins_only w w10) by (repeat (etrans; [eassumption|]); reflexivity).
    destruct Hprefix as (Hprogram & Hcalls & pins & Htrace & Hpins).
    rewrite run_bind.
    destruct (resolveMarket_run env
                (if String.eqb (marketPda state) "" then findMarketPda (marketId state)
                 else marketPda state)
                (if String.eqb (default "" (decision state)) "YES" then 1 else 0)
                (cidToBytes32 a5) w10)
      as (result & w11 & -> & Htrace11 & Hsuccess).
    assert (Hsame : resolve_succeeds env w10 = resolve_succeeds env w)
      by (unfold resolve_succeeds; by rewrite Hprogram, Hcalls).
    rewrite Hsame in Hsuccess. rewrite <- Hsuccess.
    destruct (success result).
    + step silent (returns_log env _ _ _) (silent_log env _ _ _).
      step silent (returns_log env _ _ _) (silent_log env _ _ _).
      rewrite run_bind.
      destruct (executor_rewards_run env state (default "" (decision state)) w13)
        as (w14 & stakes & -> & Htrace14).
      eexists _, _. split; [reflexivity|]. eexists a5, _, pins, _. split; [reflexivity|].
      rewrite Htrace14.
      destruct Hstep11 as (_ & _ & ->), Hstep10 as (_ & _ & ->).
      rewrite Htrace11, Htrace, <- !app_assoc. done.
    + step silent (returns_log env _ _ _) (silent_log env _ _ _).
      eexists _, _. split; reflexivity.
  - assert (Hnone :
      (if bool_decide (decision state = Some "YES") then Some 1
       else if bool_decide (decision state = Some "NO") then Some 0 else None) = None).
    { apply orb_false_elim in Hterminal as [-> ->]. done. }
    rewrite Hnone.
    step silent (returns_log env _ _ _) (silent_log env _ _ _).
    eexists _, _. split; reflexivity.
Qed.

(** X18.  The Executor reports only what it committed.  An update it
    returns is empty, so that the state keeps its empty identifier and
    signature, or it carries a transcript identifier and a transaction
    signature and nothing else; in that case the decision was YES or NO and
    the Executor has made a resolve call for the market with that outcome
    and the digest of the identifier it returns.  When the resolve call
    does not succeed the update is empty. *)
Theorem executor_reports_what_it_committed (state : AgentState) (update : AgentUpdate)
    (w w' : World) :
  executorNode env state w = (Return update, w') ->
  (update = no_update \/
   exists outcome cid tx,
     terminal_outcome state = Some outcome /\
     update = {| u_facts := None; u_factConfidences := None; u_decision := None;
                 u_reasoning := None; u_iterations := None;
                 u_ipfsTranscriptCid := Some cid;
                 u_transactionSignature := Some tx |} /\
     ResolveMarket (resolved_address state) outcome (cidToBytes32 cid) ∈
       new_events w w') /\
  (resolve_succeeds env w = false -> update = no_update).
Proof.
  intros Hrun.
  destruct (executorNode_commits state w) as (update' & w'' & Hrun' & Hupdate).
  rewrite Hrun in Hrun'. injection Hrun' as <- <-.
  destruct (terminal_outcome state) as [outcome|]; [|by split; [left|]].
  destruct (resolve_succeeds env w); [|by split; [left|]].
  destruct Hupdate as (cid & tx & pins & rewards & -> & Htrace).
  split; [|done]. right. exists outcome, cid, tx. repeat split.
  rewrite (new_events_app _ _ _ Htrace). set_solver.
Qed.

End Reported.

(** The Executor of a market judged YES, with no Anchor program loaded. *)
Lemma executor_reports_witness :
  let state := apply_update Sample.question_asked
                 {| u_facts := None; u_factConfidences := None;
                    u_decision := Some "YES"; u_reasoning := None;
                    u_iterations := Some 1;
                    u_ipfsTranscriptCid := None; u_transactionSignature := None |} in
  let r := executorNode (rt := Sample.runtime) Sample.offline state Sample.boot in
  exists update,
    r = (Return update, snd r) /\
    u_ipfsTranscriptCid update <> None /\
    (update = no_update \/
     exists outcome cid tx,
       terminal_outcome state = Some outcome /\
       update = {| u_facts := None; u_factConfidences := None; u_decision := None;
                   u_reasoning := None; u_iterations := None;
                   u_ipfsTranscriptCid := Some cid;
                   u_transactionSignature := Some tx |} /\
       ResolveMarket (resolved_address (H := Sample.runtime) state) outcome
         (cidToBytes32 (rt := Sample.runtime) cid) ∈ new_events Sample.boot (snd r)).
Proof.
  cbn zeta.
  set (state := apply_update _ _).
  assert (Hrun : exists update,
    executorNode (rt := Sample.runtime) Sample.offline state Sample.boot =
    (Return update,
     snd (executorNode (rt := Sample.runtime) Sample.offline state Sample.boot)) /\
    u_ipfsTranscriptCid update <> None)
    by (vm_compute; eexists; split; [reflexivity|discriminate]).
  destruct Hrun as (update & Hrun & Hcid).
  exists update. split; [exact Hrun|]. split; [exact Hcid|].
  exact (proj1 (executor_reports_what_it_committed (rt := Sample.runtime) Sample.offline
                  state update Sample.boot
                  (snd (executorNode (rt := Sample.runtime) Sample.offline state
                          Sample.boot))
                  Hrun)).
Defined.
